(** * dim-aegis-wishlist: the matching engine and the roll expander

    A shallow embedding of [src/match_items.py], [src/bungie_api.py],
    [src/sheet_parser.py], [src/config_manager.py],
    [src/wishlist_generator.py] and [src/main.py], the properties of the
    specification settled against it, and further properties of the code.

    Conventions of the embedding.
    - A Python [str] is a [string]; each [ascii] is read as the code point
      0..255 it encodes, so the development covers names over Latin-1.
      [str.lower], [str.split()] and [str.strip()] are written out for that
      range.
    - A Python [int] is a [Z]; [len] is [String.length].
    - The similarity score, a Python [float] obtained as the quotient of two
      lengths, is the exact rational [Q].  The double closest to 0.8 (0.9) is
      reached by [min_len / max_len] exactly when the quotient is 4/5 (9/10),
      and distinct quotients of lengths below 2^26 round to distinct doubles,
      so comparisons agree with the code for every name below that length.
    - The caches, [dict]s that are only looked up, are [gmap]s; the [dict]
      that removes repeated hashes is iterated, so it keeps its insertion
      order as an association list; the [set] of roll lines is a
      [gset string], the set of search variants a list without repetition
      in an order left open ([SetIteration]); the catalog snapshot
      [cache['manifest']] is the list of its items in iteration order. *)

From stdpp Require Import base tactics option list sorting gmap strings pretty.
From Stdlib Require Import QArith.
From Stdlib Require Import Ascii String.

Close Scope Q_scope.

#[global] Set Warnings "-clear-no-such-hyp".

(** ** Python string primitives *)

Module PyStr.

Definition code (c : ascii) : N := N_of_ascii c.

(** [c.lower()] for one code point below 256: A-Z and the upper-case
    letters of Latin-1 (all of 192..222 but the multiplication sign). *)
Definition lower_char (c : ascii) : ascii :=
  let n := code c in
  if ((65 <=? n) && (n <=? 90)
      || (192 <=? n) && (n <=? 222) && negb (n =? 215))%N
  then ascii_of_N (n + 32) else c.

(** [c.isspace()] for one code point below 256. *)
Definition is_space (c : ascii) : bool :=
  let n := code c in
  ((9 <=? n) && (n <=? 13) || (28 <=? n) && (n <=? 32)
   || (n =? 133) || (n =? 160))%N.

Fixpoint lower (s : string) : string :=
  match s with
  | EmptyString => EmptyString
  | String c s' => String (lower_char c) (lower s')
  end.

(** [s.replace(old, new)] for one-character [old] and [new]. *)
Fixpoint replace_char (old new : ascii) (s : string) : string :=
  match s with
  | EmptyString => EmptyString
  | String c s' =>
      String (if Ascii.eqb c old then new else c) (replace_char old new s')
  end.

(** [s.split()]: the maximal runs of non-whitespace, [cur] being the run
    under construction. *)
Fixpoint split_ws_go (cur : string) (s : string) : list string :=
  match s with
  | EmptyString => if String.eqb cur "" then [] else [cur]
  | String c s' =>
      if is_space c
      then (if String.eqb cur "" then split_ws_go "" s'
            else cur :: split_ws_go "" s')
      else split_ws_go (cur +:+ String c "") s'
  end.

Definition split_ws (s : string) : list string := split_ws_go "" s.

(** [sep.join(parts)] *)
Fixpoint join (sep : string) (parts : list string) : string :=
  match parts with
  | [] => ""
  | [p] => p
  | p :: ps => p +:+ sep +:+ join sep ps
  end.

(** [pat in s] *)
Fixpoint contains (pat s : string) : bool :=
  String.prefix pat s ||
  match s with
  | EmptyString => false
  | String _ s' => contains pat s'
  end.

(** [s.split(pat)[0]] for a non-empty [pat]: the text before the leftmost
    occurrence of [pat], all of [s] when there is none. *)
Fixpoint split_head (pat s : string) : string :=
  if String.prefix pat s then ""
  else match s with
       | EmptyString => ""
       | String c s' => String c (split_head pat s')
       end.

(** [s.split(sep)] for a one-character [sep]. *)
Fixpoint split_char_go (sep : ascii) (cur : string) (s : string)
  : list string :=
  match s with
  | EmptyString => [cur]
  | String c s' =>
      if Ascii.eqb c sep then cur :: split_char_go sep "" s'
      else split_char_go sep (cur +:+ String c "") s'
  end.

Definition split_char (sep : ascii) (s : string) : list string :=
  split_char_go sep "" s.

Fixpoint lstrip (s : string) : string :=
  match s with
  | EmptyString => ""
  | String c s' => if is_space c then lstrip s' else s
  end.

Fixpoint rstrip (s : string) : string :=
  match s with
  | EmptyString => ""
  | String c s' =>
      let r := rstrip s' in
      if String.eqb r "" && is_space c then "" else String c r
  end.

Definition strip (s : string) : string := rstrip (lstrip s).

Definition newline : ascii := ascii_of_N 10.
Definition nl : string := String newline "".

(** [str(n)] / [f"{n}"] for an [int]. *)
Definition str_of_int (n : Z) : string := pretty n.

End PyStr.

(** ** Exceptions *)

Inductive exn : Set := ZeroDivisionError.

Inductive result (A : Type) : Type :=
| Ok (a : A)
| Raise (e : exn).
Arguments Ok {A} a.
Arguments Raise {A} e.

#[global] Instance result_ret : MRet result := λ A a, Ok a.
#[global] Instance result_bind : MBind result := λ A B f r,
  match r with
  | Ok a => f a
  | Raise e => Raise e
  end.

(** ** The catalog accessor (bungie_api.py) *)

(** One item definition of the manifest.  [hash] is [int(item_hash)] of the
    key it is stored under ([search_destiny_items] writes it into the item
    before returning it); [name] and [description] are the fields of
    [displayProperties]; the [option] fields are those the code reads with
    [item.get].  Entries without [displayProperties] are never returned by a
    search and are left out of the snapshot. *)
Record Item : Type := {
  hash : Z;
  name : string;
  description : option string;
  itemType : option Z;
  itemSubType : option Z;
  itemTypeDisplayName : option string
}.

#[global] Instance Item_eq_dec : EqDecision Item.
Proof. solve_decision. Defined.

Module BungieAPI.

Definition weapon_subtypes : list (Z * string) :=
  [ (6, "Auto Rifle"); (7, "Hand Cannon"); (8, "Pulse Rifle");
    (9, "Scout Rifle"); (10, "Fusion Rifle"); (11, "Sniper Rifle");
    (12, "Shotgun"); (13, "Machine Gun"); (14, "Rocket Launcher");
    (17, "Submachine Gun"); (18, "Linear Fusion Rifle");
    (19, "Grenade Launcher"); (20, "Trace Rifle"); (21, "Bow");
    (22, "Glaive"); (23, "Sword"); (24, "Special Grenade Launcher");
    (25, "Heavy Grenade Launcher"); (26, "Stasis Auto Rifle");
    (27, "Stasis Hand Cannon"); (28, "Stasis Pulse Rifle");
    (29, "Stasis Scout Rifle"); (30, "Stasis Fusion Rifle");
    (31, "Stasis Sniper Rifle"); (32, "Stasis Shotgun");
    (33, "Stasis Machine Gun"); (34, "Stasis Rocket Launcher");
    (35, "Stasis Submachine Gun"); (36, "Stasis Linear Fusion Rifle");
    (37, "Stasis Grenade Launcher"); (38, "Stasis Trace Rifle");
    (39, "Stasis Bow"); (40, "Stasis Glaive"); (41, "Strand Auto Rifle");
    (42, "Strand Hand Cannon"); (43, "Strand Pulse Rifle");
    (44, "Strand Scout Rifle"); (45, "Strand Fusion Rifle");
    (46, "Strand Sniper Rifle"); (47, "Strand Shotgun");
    (48, "Strand Machine Gun"); (49, "Strand Rocket Launcher");
    (50, "Strand Submachine Gun"); (51, "Strand Linear Fusion Rifle");
    (52, "Strand Grenade Launcher"); (53, "Strand Trace Rifle");
    (54, "Strand Bow"); (55, "Strand Glaive") ]%Z.

Definition weapon_keywords : list string :=
  ["rifle"; "cannon"; "launcher"; "sword"; "shotgun"; "bow"; "glaive"; "smg"].

Definition perk_keywords : list string :=
  ["weapon"; "rounds"; "magazine"; "reload"; "precision"; "damage";
   "final blow"; "kills"; "defeating"; "precision hits"; "burst"].

(** [any(k in text for k in keywords)] *)
Definition any_in (keywords : list string) (text : string) : bool :=
  existsb (λ k, PyStr.contains k text) keywords.

Definition is_weapon (item : Item) : bool :=
  let display_name := PyStr.lower (default "" (itemTypeDisplayName item)) in
  (bool_decide (itemType item = Some 3%Z)
   && (match itemSubType item with
       | Some st => existsb (λ kv, Z.eqb kv.1 st) weapon_subtypes
       | None => false
       end
       || any_in (map (λ kv, PyStr.lower kv.2) weapon_subtypes) display_name))
  || any_in weapon_keywords display_name.

Definition is_perk (item : Item) : bool :=
  if bool_decide (itemTypeDisplayName item = Some "Trait") then true
  else
    let valid_perk := bool_decide (itemType item = Some 19%Z)
                      || bool_decide (itemType item = Some 20%Z) in
    if negb valid_perk then false
    else any_in perk_keywords (PyStr.lower (default "" (description item))).

(** The result of [search_destiny_items(search_term)] on a loaded snapshot:
    the items whose display name contains the term, case-insensitively, in
    the snapshot's iteration order. *)
Definition search_results (manifest : list Item) (search_term : string)
  : list Item :=
  let search_term_lower := PyStr.lower search_term in
  filter (λ item, Is_true (PyStr.contains search_term_lower
                             (PyStr.lower (name item)))) manifest.

End BungieAPI.

(** ** Iteration order of a set of strings

    [list(set(variants))] enumerates each element once, in an order the
    language leaves open; the development holds for every such order. *)
Class SetIteration : Type := {
  set_to_list : list string → list string;
  set_to_list_NoDup : ∀ l, NoDup (set_to_list l);
  set_to_list_elem : ∀ l x, x ∈ set_to_list l ↔ x ∈ l
}.

(** One admissible order: first occurrence first. *)
Definition first_seen_order : SetIteration :=
  {| set_to_list := remove_dups;
     set_to_list_NoDup := NoDup_remove_dups;
     set_to_list_elem := elem_of_remove_dups |}.

(** Another one: last occurrence first. *)
Definition last_seen_order : SetIteration.
Proof.
  refine {| set_to_list := λ l, remove_dups (reverse l) |}.
  - intros l. apply NoDup_remove_dups.
  - intros l x. rewrite elem_of_remove_dups, elem_of_reverse. reflexivity.
Defined.

(** ** The spreadsheet rows (sheet_parser.py) *)

Module SheetParser.

(** [WeaponRoll] of sheet_parser.py *)
Record WeaponRoll : Type := {
  name : string;
  tier : string;
  perks : list string
}.

(** [parse_perks]: one perk per non-blank line of the cell, stripped. *)
Definition parse_perks (perk_string : string) : list string :=
  if String.eqb perk_string "" then []
  else
    filter (λ p, p ≠ "")
           (map PyStr.strip (PyStr.split_char PyStr.newline perk_string)).

(** The body of the row loop of [parse_tab], for the four cells of a row
    that is long enough; [None] is a skipped row ([continue]). *)
Definition parse_row (name perk1 perk2 tier : string) : option WeaponRoll :=
  if String.eqb name "" || String.eqb tier "" then None
  else if bool_decide (PyStr.lower name ∈ ["name"; "weapon"])
          || String.eqb (PyStr.lower tier) "tier"
          || String.eqb (PyStr.lower name) "ideal"
          || String.eqb tier "/" then None
  else
    let name := PyStr.split_head PyStr.nl name in
    let name := PyStr.strip (PyStr.split_head "BRAVE version" name) in
    let perks := [] in
    let perks := if String.eqb perk1 "" then perks
                 else perks ++ parse_perks perk1 in
    let perks := if String.eqb perk2 "" then perks
                 else perks ++ parse_perks perk2 in
    if bool_decide (perks = []) then None
    else Some {| name := PyStr.strip name;
                 tier := PyStr.strip tier;
                 perks := perks |}.

End SheetParser.

(** ** The matcher (match_items.py) *)

Definition Qltb (a b : Q) : bool :=
  match (a ?= b)%Q with Lt => true | _ => false end.

Module ItemMatcher.

(** The fields of [ItemMatcher] that the matching reads and writes, and two
    logs: the terms passed to [search_destiny_items], and the perk names
    announced by "Looking for perk" with the output column of the loop that
    looks them up; both oldest first. *)
Record State : Type := {
  weapon_matches : gmap string (list Item);
  perk_matches : gmap string (list Item);
  missing_weapons : gset string;
  missing_perks : gset string;
  catalog_queries : list string;
  perk_lookups : list (nat * string)
}.

Definition init : State :=
  {| weapon_matches := ∅; perk_matches := ∅;
     missing_weapons := ∅; missing_perks := ∅;
     catalog_queries := []; perk_lookups := [] |}.

(** Computations that read and write the matcher and may raise. *)
Definition M (A : Type) : Type := State → result (A * State).

#[global] Instance M_ret : MRet M := λ A a s, Ok (a, s).
#[global] Instance M_bind : MBind M := λ A B f m s,
  match m s with
  | Ok (a, s') => f a s'
  | Raise e => Raise e
  end.

Definition get : M State := λ s, Ok (s, s).
Definition lift {A} (r : result A) : M A := λ s,
  match r with
  | Ok a => Ok (a, s)
  | Raise e => Raise e
  end.

Definition normalize_name (name : string) : string :=
  let normalized := PyStr.lower name in
  let normalized := PyStr.replace_char "_" " " normalized in
  let normalized := PyStr.replace_char "-" " " normalized in
  let normalized := PyStr.replace_char "." " " normalized in
  PyStr.join " " (PyStr.split_ws normalized).

Definition version_patterns : list string :=
  ["_v"; " v"; "version "; "_ver"; " ver";
   ".0."; ".1."; ".2."; ".3."; ".4."; ".5."].

(** The [for pattern in version_patterns] loop with its [break]. *)
Fixpoint base_name_loop (patterns : list string) (name : string) : string :=
  match patterns with
  | [] => name
  | pattern :: rest =>
      if PyStr.contains pattern (PyStr.lower name)
      then PyStr.split_head pattern name
      else base_name_loop rest name
  end.

(** The list [variants] before it goes through [list(set(...))]. *)
Definition variants_list (name : string) : list string :=
  let variants := [name] in
  let base_name := base_name_loop version_patterns name in
  let variants := if bool_decide (base_name ≠ name)
                  then variants ++ [base_name] else variants in
  let variants := variants ++ [normalize_name name] in
  let variants := if bool_decide (base_name ≠ name)
                  then variants ++ [normalize_name base_name] else variants in
  variants.

Definition get_search_variants `{SetIteration} (name : string)
  : list string :=
  set_to_list (variants_list name).

(** [a / b] on two lengths *)
Definition truediv (a b : nat) : result Q :=
  match b with
  | O => Raise ZeroDivisionError
  | S _ => Ok (Z.of_nat a # Pos.of_nat b)%Q
  end.

Definition compare_names (name1 name2 : string) : result (bool * Q) :=
  let norm1 := normalize_name name1 in
  let norm2 := normalize_name name2 in
  if String.eqb norm1 norm2 then Ok (true, 1%Q)
  else if PyStr.contains norm1 norm2 || PyStr.contains norm2 norm1 then
    let min_len := Nat.min (String.length norm1) (String.length norm2) in
    let max_len := Nat.max (String.length norm1) (String.length norm2) in
    ratio ← truediv min_len max_len;
    Ok (false, ratio)
  else Ok (false, 0%Q).

End ItemMatcher.

(** [{m['hash']: m for m in ms}]: the first occurrence of a hash fixes its
    position, the last one its value. *)
Fixpoint dict_set {V : Type} (k : Z) (v : V) (d : list (Z * V))
  : list (Z * V) :=
  match d with
  | [] => [(k, v)]
  | (k', v') :: d' =>
      if Z.eqb k k' then (k, v) :: d' else (k', v') :: dict_set k v d'
  end.

Definition dict_by_hash (ms : list Item) : list (Z * Item) :=
  fold_left (λ d m, dict_set (hash m) m d) ms [].

Definition dict_values {V : Type} (d : list (Z * V)) : list V := map snd d.

(** A candidate with its score: [(match, exact_match, similarity)]. *)
Definition Scored : Type := Item * bool * Q.

Definition sort_key (x : Scored) : bool * Q := (x.1.2, x.2).

(** [k1 < k2] on the tuples [(exact_match, similarity)]. *)
Definition key_lt (k1 k2 : bool * Q) : bool :=
  if Bool.eqb k1.1 k2.1 then Qltb k1.2 k2.2 else negb k1.1.

(** [l.sort(key=..., reverse=True)]: the stable sort with every comparison
    reversed; elements with equal keys keep their order.  A stable sort has
    one result only, written here by insertion. *)
Fixpoint insert_desc (x : Scored) (l : list Scored) : list Scored :=
  match l with
  | [] => [x]
  | y :: ys =>
      if key_lt (sort_key x) (sort_key y) then y :: insert_desc x ys
      else x :: y :: ys
  end.

Fixpoint sort_desc (l : list Scored) : list Scored :=
  match l with
  | [] => []
  | x :: xs => insert_desc x (sort_desc xs)
  end.

(** The dicts that [match_weapon] returns. *)
Record PerkDict : Type := {
  pd_name : string;
  pd_hash : option Z;
  pd_description : string;
  pd_column : nat
}.

Record MatchedWeapon : Type := {
  mw_name : string;
  mw_hash : Z;
  mw_type : string;
  mw_tier : string;
  mw_perks_column1 : list PerkDict;
  mw_perks_column2 : list PerkDict
}.

Module Matching.
Import ItemMatcher.

Section WithCatalog.
Context `{SetIteration}.
(** The loaded snapshot [self.bungie.cache['manifest']]. *)
Variable manifest : list Item.

Definition log_query (term : string) (s : State) : State :=
  {| weapon_matches := weapon_matches s;
     perk_matches := perk_matches s;
     missing_weapons := missing_weapons s;
     missing_perks := missing_perks s;
     catalog_queries := catalog_queries s ++ [term];
     perk_lookups := perk_lookups s |}.

Definition log_lookup (column : nat) (perk : string) (s : State) : State :=
  {| weapon_matches := weapon_matches s;
     perk_matches := perk_matches s;
     missing_weapons := missing_weapons s;
     missing_perks := missing_perks s;
     catalog_queries := catalog_queries s;
     perk_lookups := perk_lookups s ++ [(column, perk)] |}.

Definition store_weapon_matches (k : string) (v : list Item) (s : State)
  : State :=
  {| weapon_matches := <[k := v]> (weapon_matches s);
     perk_matches := perk_matches s;
     missing_weapons := missing_weapons s;
     missing_perks := missing_perks s;
     catalog_queries := catalog_queries s;
     perk_lookups := perk_lookups s |}.

Definition store_perk_matches (k : string) (v : list Item) (s : State)
  : State :=
  {| weapon_matches := weapon_matches s;
     perk_matches := <[k := v]> (perk_matches s);
     missing_weapons := missing_weapons s;
     missing_perks := missing_perks s;
     catalog_queries := catalog_queries s;
     perk_lookups := perk_lookups s |}.

Definition add_missing_weapon (k : string) (s : State) : State :=
  {| weapon_matches := weapon_matches s;
     perk_matches := perk_matches s;
     missing_weapons := {[k]} ∪ missing_weapons s;
     missing_perks := missing_perks s;
     catalog_queries := catalog_queries s;
     perk_lookups := perk_lookups s |}.

Definition add_missing_perk (k : string) (s : State) : State :=
  {| weapon_matches := weapon_matches s;
     perk_matches := perk_matches s;
     missing_weapons := missing_weapons s;
     missing_perks := {[k]} ∪ missing_perks s;
     catalog_queries := catalog_queries s;
     perk_lookups := perk_lookups s |}.

Definition modify (f : State → State) : M unit := λ s, Ok ((), f s).

(** [await self.bungie.search_destiny_items(search_term)] *)
Definition search_destiny_items (search_term : string) : M (list Item) :=
  modify (log_query search_term);;
  mret (BungieAPI.search_results manifest search_term).

(** The [for variant in search_variants] loop of [find_weapon_matches];
    its value is what the loop appends to [all_matches]. *)
Fixpoint search_variants_loop (variants : list string) : M (list Item) :=
  match variants with
  | [] => mret []
  | variant :: rest =>
      results ← search_destiny_items variant;
      let weapon_matches :=
        filter (λ item, Is_true (BungieAPI.is_weapon item)) results in
      more ← search_variants_loop rest;
      mret (weapon_matches ++ more)
  end.

(** The scoring loop shared by both finders; its value is what the loop
    appends to [scored_matches]. *)
Fixpoint score_loop (threshold : Q) (raw_name : string) (ms : list Item)
  : result (list Scored) :=
  match ms with
  | [] => Ok []
  | m :: rest =>
      '(exact_match, similarity) ← compare_names raw_name (name m);
      more ← score_loop threshold raw_name rest;
      Ok (if exact_match || Qltb threshold similarity
          then (m, exact_match, similarity) :: more else more)
  end.

Definition extract_matches (scored_matches : list Scored) : list Item :=
  map (λ x, x.1.1) scored_matches.

Definition find_weapon_matches (weapon_name : string) : M (list Item) :=
  s ← get;
  match weapon_matches s !! weapon_name with
  | Some cached => mret cached
  | None =>
      all_matches ← search_variants_loop (get_search_variants weapon_name);
      let unique_matches := dict_values (dict_by_hash all_matches) in
      scored_matches ← lift (score_loop (8 # 10)%Q weapon_name unique_matches);
      let matches := extract_matches (sort_desc scored_matches) in
      modify (store_weapon_matches weapon_name matches);;
      mret matches
  end.

Definition find_perk_matches (perk_name : string) : M (list Item) :=
  s ← get;
  match perk_matches s !! perk_name with
  | Some cached => mret cached
  | None =>
      results ← search_destiny_items perk_name;
      let perk_matches :=
        filter (λ item, Is_true (BungieAPI.is_perk item)) results in
      scored_matches ← lift (score_loop (9 # 10)%Q perk_name perk_matches);
      let matches := extract_matches (sort_desc scored_matches) in
      modify (store_perk_matches perk_name matches);;
      mret matches
  end.

(** The two perk loops of [match_weapon], which differ in the slice they
    run over and in the column they tag the perk with. *)
Fixpoint match_perks_loop (column : nat) (perks : list string)
  : M (list PerkDict) :=
  match perks with
  | [] => mret []
  | perk :: rest =>
      modify (log_lookup column perk);;
      perk_results ← find_perk_matches perk;
      match perk_results with
      | perk_match :: _ =>
          more ← match_perks_loop column rest;
          mret ({| pd_name := perk;
                   pd_hash := Some (hash perk_match);
                   pd_description := default "" (description perk_match);
                   pd_column := column |} :: more)
      | [] =>
          search_destiny_items perk;;
          modify (add_missing_perk perk);;
          match_perks_loop column rest
      end
  end.

Definition match_weapon (weapon : SheetParser.WeaponRoll)
  : M (option MatchedWeapon) :=
  matches ← find_weapon_matches (SheetParser.name weapon);
  match matches with
  | [] =>
      search_destiny_items (SheetParser.name weapon);;
      modify (add_missing_weapon (SheetParser.name weapon));;
      mret None
  | weapon_match :: _ =>
      let perks := SheetParser.perks weapon in
      column1_perks ←
        match_perks_loop 1 (take (List.length perks `div` 2) perks);
      column2_perks ←
        match_perks_loop 2 (drop (List.length perks `div` 2) perks);
      mret (Some {| mw_name := SheetParser.name weapon;
                    mw_hash := hash weapon_match;
                    mw_type := default "Unknown"
                                 (itemTypeDisplayName weapon_match);
                    mw_tier := SheetParser.tier weapon;
                    mw_perks_column1 := column1_perks;
                    mw_perks_column2 := column2_perks |})
  end.

End WithCatalog.
End Matching.

(** ** The tier policy (config_manager.py) *)

Module ConfigManager.

Inductive PerkOption : Set :=
| BOTH_COLUMNS   (* only combinations with perks in both columns *)
| ANY_COLUMN     (* combinations with at least one perk *)
| ANY_PERKS.     (* include the weapon even without perks *)

#[global] Instance PerkOption_eq_dec : EqDecision PerkOption.
Proof. solve_decision. Defined.

Record TierConfig : Type := {
  tier : string;
  perk_option : PerkOption
}.

Fixpoint should_include_weapon (tier_label : string)
  (configs : list TierConfig) : option PerkOption :=
  match configs with
  | [] => None
  | config :: rest =>
      if String.eqb (tier config) tier_label then Some (perk_option config)
      else should_include_weapon tier_label rest
  end.

End ConfigManager.

(** ** The roll expander and the emitter (wishlist_generator.py) *)

(** [sorted(s)] for a set of strings: ascending in the code-point order
    [String.le] of [str]. *)
Definition sorted (s : gset string) : list string :=
  merge_sort String.le (elements s).

Module WishlistGenerator.
Import ConfigManager.

Record Perk : Type := {
  name : string;
  hash : Z;
  description : string
}.

(** [WeaponRoll] of wishlist_generator.py *)
Record WeaponRoll : Type := {
  w_name : string;
  w_hash : Z;
  w_type : string;
  w_tier : string;
  perks_column1 : list Perk;
  perks_column2 : list Perk
}.

Definition bare_line (weapon_hash : Z) : string :=
  "dimwishlist:item=" +:+ PyStr.str_of_int weapon_hash.

Definition single_line (weapon_hash perk_hash : Z) : string :=
  "dimwishlist:item=" +:+ PyStr.str_of_int weapon_hash
    +:+ "&perks=" +:+ PyStr.str_of_int perk_hash.

Definition pair_line (weapon_hash perk1_hash perk2_hash : Z) : string :=
  "dimwishlist:item=" +:+ PyStr.str_of_int weapon_hash
    +:+ "&perks=" +:+ PyStr.str_of_int perk1_hash
    +:+ "," +:+ PyStr.str_of_int perk2_hash.

Definition header_line (weapon : WeaponRoll) : string :=
  w_name weapon +:+ " - Tier: " +:+ w_tier weapon.

(** [itertools.product(xs, ys)] *)
Definition product {A B : Type} (xs : list A) (ys : list B) : list (A * B) :=
  x ← xs; y ← ys; [(x, y)].

(** The set [all_combinations] once the three blocks that fill it ran. *)
Definition all_combinations (perk_option : PerkOption) (weapon : WeaponRoll)
  : gset string :=
  let combos : gset string := ∅ in
  let combos :=
    if bool_decide (perk_option ∈ [ANY_COLUMN; ANY_PERKS]) then
      let combos :=
        combos ∪ list_to_set
          (map (λ perk1, single_line (w_hash weapon) (hash perk1))
               (perks_column1 weapon)) in
      combos ∪ list_to_set
        (map (λ perk2, single_line (w_hash weapon) (hash perk2))
             (perks_column2 weapon))
    else combos in
  if bool_decide (perks_column1 weapon ≠ [] ∧ perks_column2 weapon ≠ []) then
    combos ∪ list_to_set
      (map (λ pp, pair_line (w_hash weapon) (hash pp.1) (hash pp.2))
           (product (perks_column1 weapon) (perks_column2 weapon)))
  else combos.

(** The list [output] that [_format_weapon_rolls] joins, [None] when it
    returns [None]. *)
Definition output_lines (configs : list TierConfig) (weapon : WeaponRoll)
  : option (list string) :=
  match should_include_weapon (w_tier weapon) configs with
  | None => None
  | Some perk_option =>
      let output := [header_line weapon] in
      let output := if bool_decide (perk_option = ANY_PERKS)
                    then output ++ [bare_line (w_hash weapon)] else output in
      let combos := all_combinations perk_option weapon in
      if bool_decide (combos ≠ ∅) then Some (output ++ sorted combos)
      else if bool_decide (perk_option = ANY_PERKS) then Some output
      else None
  end.

Definition _format_weapon_rolls (configs : list TierConfig)
  (weapon : WeaponRoll) : option string :=
  output ← output_lines configs weapon;
  Some (PyStr.join PyStr.nl output +:+ PyStr.nl).

Definition perk_of_dict (perk : PerkDict) : option Perk :=
  h ← pd_hash perk;
  Some {| name := pd_name perk; hash := h;
          description := pd_description perk |}.

Definition process_matched_weapon (weapon_data : MatchedWeapon) : WeaponRoll :=
  {| w_name := mw_name weapon_data;
     w_hash := mw_hash weapon_data;
     w_type := mw_type weapon_data;
     w_tier := mw_tier weapon_data;
     perks_column1 := omap perk_of_dict (mw_perks_column1 weapon_data);
     perks_column2 := omap perk_of_dict (mw_perks_column2 weapon_data) |}.

(** The list [output] of [generate_dim_wishlist]: the entries that are
    neither [None] nor empty. *)
Definition entries (configs : list TierConfig)
  (matched_weapons : list MatchedWeapon) : list string :=
  omap (λ weapon_data,
          entry ← _format_weapon_rolls configs
                    (process_matched_weapon weapon_data);
          if String.eqb entry "" then None else Some entry)
       matched_weapons.

Definition generate_dim_wishlist (configs : list TierConfig)
  (matched_weapons : list MatchedWeapon) : string :=
  PyStr.join PyStr.nl (entries configs matched_weapons).

End WishlistGenerator.

Module Examples.
Import ConfigManager WishlistGenerator.

Definition perk (h : Z) : Perk :=
  {| name := "p"; hash := h; description := "" |}.

Definition weapon100 (t : string) (c1 c2 : list Z) : WeaponRoll :=
  {| w_name := "Weapon"; w_hash := 100; w_type := "Auto Rifle"; w_tier := t;
     perks_column1 := map perk c1; perks_column2 := map perk c2 |}.

Definition policy : list TierConfig :=
  [ {| tier := "S"; perk_option := ANY_COLUMN |};
    {| tier := "A"; perk_option := BOTH_COLUMNS |};
    {| tier := "B"; perk_option := ANY_PERKS |} ].

End Examples.

(** * Notions the properties are stated with *)

Inductive ItemClass : Set := Weapon | Perk.

(** The three line forms as the specification words them. *)
Definition spec_roll_line (weapon_hash : Z) (line : string) : Prop :=
  line = "item=" +:+ PyStr.str_of_int weapon_hash
  ∨ (∃ perk_hash : Z,
       line = "item=" +:+ PyStr.str_of_int weapon_hash
                +:+ "&perks=" +:+ PyStr.str_of_int perk_hash)
  ∨ (∃ perk1_hash perk2_hash : Z,
       line = "item=" +:+ PyStr.str_of_int weapon_hash
                +:+ "&perks=" +:+ PyStr.str_of_int perk1_hash
                +:+ "," +:+ PyStr.str_of_int perk2_hash).

(** The similarity and the exact-match test in the words of the
    specification, to compare with [compare_names]. *)
Definition spec_exact (rawName displayName : string) : Prop :=
  ItemMatcher.normalize_name rawName = ItemMatcher.normalize_name displayName.

#[global] Instance spec_exact_dec (rawName displayName : string) :
  Decision (spec_exact rawName displayName).
Proof. unfold spec_exact. apply _. Defined.

Definition spec_similarity (rawName displayName : string) : Q :=
  let norm1 := ItemMatcher.normalize_name rawName in
  let norm2 := ItemMatcher.normalize_name displayName in
  if decide (norm1 = norm2) then 1%Q
  else if PyStr.contains norm1 norm2 || PyStr.contains norm2 norm1
       then (Z.of_nat (Nat.min (String.length norm1) (String.length norm2))
             # Pos.of_nat (Nat.max (String.length norm1) (String.length norm2)))%Q
       else 0%Q.

Module MatcherFacts.
Import ItemMatcher Matching.

(** The score [compare_names] assigns, as a value. *)
Definition score (raw_name : string) (item : Item) : bool * Q :=
  match compare_names raw_name (name item) with
  | Ok r => r
  | Raise _ => (false, 0%Q)
  end.

(** A candidate is kept when it is exact or above the threshold. *)
Definition retained (threshold : Q) (raw_name : string) (item : Item) : bool :=
  (score raw_name item).1 || Qltb threshold (score raw_name item).2.

Definition attach (raw_name : string) (item : Item) : Scored :=
  (item, (score raw_name item).1, (score raw_name item).2).

(** The candidates the scoring loop keeps, and the list it makes of them. *)
Definition kept (threshold : Q) (raw_name : string)
  (candidates : list Item) : list Item :=
  filter (λ m, Is_true (retained threshold raw_name m)) candidates.

Definition rank (threshold : Q) (raw_name : string)
  (candidates : list Item) : list Item :=
  extract_matches
    (sort_desc (map (attach raw_name) (kept threshold raw_name candidates))).

(** The state after the catalog was searched for [terms], in order. *)
Definition log_queries (terms : list string) (s : State) : State :=
  fold_left (λ s term, log_query term s) terms s.

Section WithCatalog.
Context `{SetIteration}.
Variable manifest : list Item.

Definition weapon_hits (variant : string) : list Item :=
  filter (λ item, Is_true (BungieAPI.is_weapon item))
         (BungieAPI.search_results manifest variant).

Definition perk_hits (perk_name : string) : list Item :=
  filter (λ item, Is_true (BungieAPI.is_perk item))
         (BungieAPI.search_results manifest perk_name).

(** The candidates a weapon name is scored against, and the list a
    lookup that misses the cache computes. *)
Definition weapon_candidates (weapon_name : string) : list Item :=
  dict_values (dict_by_hash (get_search_variants weapon_name ≫= weapon_hits)).

Definition weapon_result (weapon_name : string) : list Item :=
  rank (8 # 10)%Q weapon_name (weapon_candidates weapon_name).

Definition perk_result (perk_name : string) : list Item :=
  rank (9 # 10)%Q perk_name (perk_hits perk_name).

End WithCatalog.
End MatcherFacts.

Module Cache.
Import ItemMatcher Matching.

Section WithCatalog.
Context `{SetIteration}.
Variable manifest : list Item.

(** The two finders under the name the specification gives them. *)
Definition findCandidates (wantedClass : ItemClass) (rawName : string)
  : M (list Item) :=
  match wantedClass with
  | Weapon => find_weapon_matches manifest rawName
  | Perk => find_perk_matches manifest rawName
  end.

(** The dictionary that caches the lookups of a class. *)
Definition cache_of (wantedClass : ItemClass) (s : State)
  : gmap string (list Item) :=
  match wantedClass with
  | Weapon => weapon_matches s
  | Perk => perk_matches s
  end.

(** What a run does with the matcher: it looks names up and matches
    weapons, one call after the other. *)
Inductive Call : Type :=
| LookupCall (wantedClass : ItemClass) (rawName : string)
| MatchCall (weapon : SheetParser.WeaponRoll).

Definition run_call (call : Call) : M unit :=
  match call with
  | LookupCall wantedClass rawName =>
      findCandidates wantedClass rawName;; mret ()
  | MatchCall weapon => match_weapon manifest weapon;; mret ()
  end.

Fixpoint run_calls (calls : list Call) : M unit :=
  match calls with
  | [] => mret ()
  | call :: rest => run_call call;; run_calls rest
  end.

(** [s'] caches whatever [s] caches. *)
Definition cache_kept (s s' : State) : Prop :=
  ∀ wantedClass rawName cached,
    cache_of wantedClass s !! rawName = Some cached →
    cache_of wantedClass s' !! rawName = Some cached.

End WithCatalog.
End Cache.

Module Lookup.
Import ItemMatcher Matching MatcherFacts Cache.

Definition threshold_of (wantedClass : ItemClass) : Q :=
  match wantedClass with
  | Weapon => (8 # 10)%Q
  | Perk => (9 # 10)%Q
  end.

Section WithCatalog.
Context `{SetIteration}.
Variable manifest : list Item.

(** The class-filtered items a name is scored against: for a weapon the
    hits of all variant queries without repeated hashes, for a perk the
    hits of the one query. *)
Definition candidates_of (wantedClass : ItemClass) (rawName : string)
  : list Item :=
  match wantedClass with
  | Weapon => weapon_candidates manifest rawName
  | Perk => perk_hits manifest rawName
  end.

Definition result_of (wantedClass : ItemClass) (rawName : string)
  : list Item :=
  rank (threshold_of wantedClass) rawName
       (candidates_of wantedClass rawName).

(** The caches hold what the lookups of this catalog computed. *)
Definition consistent (s : State) : Prop :=
  ∀ wantedClass rawName cached,
    cache_of wantedClass s !! rawName = Some cached →
    cached = result_of wantedClass rawName.

End WithCatalog.
End Lookup.

(** [k1 >= k2] on keys *)
Definition key_ge (k1 k2 : bool * Q) : Prop := key_lt k1 k2 = false.

(** Equal exact-match flag and equal similarity *)
Definition key_eq (k1 k2 : bool * Q) : Prop :=
  k1.1 = k2.1 ∧ (k1.2 == k2.2)%Q.

#[global] Instance key_eq_dec : RelDecision key_eq.
Proof.
  intros k1 k2. unfold key_eq.
  destruct (decide (k1.1 = k2.1)) as [?|?]; [|right; tauto].
  destruct (Qeq_dec k1.2 k2.2) as [?|?]; [left|right]; tauto.
Defined.

Definition scored_ge (x y : Scored) : Prop := key_ge (sort_key x) (sort_key y).

(** Every scored candidate carries the score of its item. *)
Definition well_scored (raw_name : string) (x : Scored) : Prop :=
  x = MatcherFacts.attach raw_name x.1.1.

(** Catalog snapshots for the examples *)
Module Catalogs.

Definition weapon_item (h : Z) (display_name : string) : Item :=
  {| hash := h; name := display_name; description := None;
     itemType := Some 3%Z; itemSubType := Some 6%Z;
     itemTypeDisplayName := Some "Auto Rifle" |}.

Definition perk_item (h : Z) (display_name : string) : Item :=
  {| hash := h; name := display_name;
     description := Some "Precision kills reload the magazine.";
     itemType := Some 19%Z; itemSubType := None;
     itemTypeDisplayName := Some "Trait" |}.

(** Two perks and two weapons that share a display name; the larger hash
    comes first in the snapshot. *)
Definition twins : list Item :=
  [ perk_item 20 "Outlaw"; perk_item 10 "Outlaw";
    weapon_item 40 "Trustee"; weapon_item 30 "Trustee" ].

Definition armory : list Item :=
  [ weapon_item 100 "The Recluse"; weapon_item 101 "Recluse";
    weapon_item 201 "Fatebringer 2"; weapon_item 200 "Fatebringer";
    perk_item 1 "Rapid Hit"; perk_item 2 "Outlaw"; perk_item 3 "Rampage" ].

End Catalogs.

(** ** Notions and code for the further properties *)

(** [all(P(c) for c in s)] *)
Fixpoint all_chars (P : ascii → bool) (s : string) : bool :=
  match s with
  | EmptyString => true
  | String c s' => P c && all_chars P s'
  end.

Definition canonical_char (c : ascii) : bool :=
  Ascii.eqb (PyStr.lower_char c) c
  && negb (Ascii.eqb c "_") && negb (Ascii.eqb c "-") && negb (Ascii.eqb c ".").

Definition word_char (c : ascii) : bool :=
  canonical_char c && negb (PyStr.is_space c).

Definition is_word (w : string) : Prop :=
  w ≠ "" ∧ all_chars word_char w = true.

(** The string [normalize_name] splits into words. *)
Definition unpunctuated (name : string) : string :=
  PyStr.replace_char "." " "
    (PyStr.replace_char "-" " "
       (PyStr.replace_char "_" " " (PyStr.lower name))).

(** The sub-types [is_weapon] knows: 6 to 14 and 17 to 55. *)
Definition known_subtype (st : Z) : bool :=
  ((6 <=? st) && (st <=? 14) || (17 <=? st) && (st <=? 55))%Z.

(** The class test a lookup filters the search results with. *)
Definition is_class (wantedClass : ItemClass) (item : Item) : bool :=
  match wantedClass with
  | Weapon => BungieAPI.is_weapon item
  | Perk => BungieAPI.is_perk item
  end.

(** The dict of [find_weapon_matches] filled from [ms], starting from [d]. *)
Definition dict_fold (ms : list Item) (d : list (Z * Item))
  : list (Z * Item) :=
  fold_left (λ d m, dict_set (hash m) m d) ms d.

Module Resolution.
Import ItemMatcher Matching MatcherFacts.

(** The terms a lookup of [rawName] sends to the catalog. *)
Definition queried_terms `{SetIteration} (wantedClass : ItemClass)
  (rawName : string) : list string :=
  match wantedClass with
  | Weapon => get_search_variants rawName
  | Perk => [rawName]
  end.

Section WithCatalog.
Context `{SetIteration}.
Variable manifest : list Item.

(** The dict a perk loop appends for [perk]; [None] when the perk goes to
    [missing_perks] instead. *)
Definition perk_dict (column : nat) (perk : string) : option PerkDict :=
  match perk_result manifest perk with
  | perk_match :: _ =>
      Some {| pd_name := perk;
              pd_hash := Some (hash perk_match);
              pd_description := default "" (description perk_match);
              pd_column := column |}
  | [] => None
  end.

Definition perk_dicts (column : nat) (perks : list string) : list PerkDict :=
  omap (perk_dict column) perks.

(** The perks of a row that no catalog perk matches. *)
Definition unresolved (perks : list string) : list string :=
  filter (λ perk, perk_result manifest perk = []) perks.

(** The dict [match_weapon] returns for a row. *)
Definition matched_weapon (weapon : SheetParser.WeaponRoll)
  : option MatchedWeapon :=
  match weapon_result manifest (SheetParser.name weapon) with
  | [] => None
  | weapon_match :: _ =>
      let perks := SheetParser.perks weapon in
      Some {| mw_name := SheetParser.name weapon;
              mw_hash := hash weapon_match;
              mw_type := default "Unknown" (itemTypeDisplayName weapon_match);
              mw_tier := SheetParser.tier weapon;
              mw_perks_column1 :=
                perk_dicts 1 (take (List.length perks `div` 2) perks);
              mw_perks_column2 :=
                perk_dicts 2 (drop (List.length perks `div` 2) perks) |}
  end.

(** What a call adds to the two sets of missing names. *)
Definition missing_after (weapon : SheetParser.WeaponRoll) (s : State)
  : gset string * gset string :=
  match weapon_result manifest (SheetParser.name weapon) with
  | [] => ({[SheetParser.name weapon]} ∪ missing_weapons s, missing_perks s)
  | _ :: _ =>
      (missing_weapons s,
       list_to_set (unresolved (SheetParser.perks weapon)) ∪ missing_perks s)
  end.

End WithCatalog.
End Resolution.

(** Rows and matched weapons for the examples *)
Module Sheets.
Definition fatebringer : SheetParser.WeaponRoll :=
  {| SheetParser.name := "Fatebringer"; SheetParser.tier := "S";
     SheetParser.perks := ["Rapid Hit"; "Vorpal Weapon"; "Rampage"] |}.
Definition gjallarhorn : SheetParser.WeaponRoll :=
  {| SheetParser.name := "Gjallarhorn"; SheetParser.tier := "A";
     SheetParser.perks := ["Outlaw"; "Rampage"] |}.
Definition matched : list (string * list MatchedWeapon) :=
  [ ("1595979957",
     [ {| mw_name := "Trustee"; mw_hash := 40; mw_type := "Scout Rifle";
          mw_tier := "S"; mw_perks_column1 := []; mw_perks_column2 := [] |};
       {| mw_name := "Fatebringer"; mw_hash := 200; mw_type := "Hand Cannon";
          mw_tier := "A"; mw_perks_column1 := []; mw_perks_column2 := [] |} ]);
    ("1090554564",
     [ {| mw_name := "Austringer"; mw_hash := 300; mw_type := "Hand Cannon";
          mw_tier := "S"; mw_perks_column1 := []; mw_perks_column2 := [] |} ]) ].
End Sheets.

Definition not_newline (c : ascii) : bool := negb (Ascii.eqb c PyStr.newline).

(** A string that [strip] leaves as it is: no white space at either end. *)
Definition stripped (s : string) : Prop := PyStr.strip s = s.

(** ** The tab parser (sheet_parser.py) *)

Module SheetTab.

(** The dict [indices] of [find_column_indices], one field per key. *)
Record Indices : Type := {
  i_name : Z;
  i_column1 : Z;
  i_column2 : Z;
  i_tier : Z
}.

(** The body of the loop over [enumerate(headers)]. *)
Definition find_column_indices_step (indices : Indices) (i : Z)
  (header : string) : Indices :=
  let header_lower := PyStr.strip (PyStr.lower header) in
  if String.eqb header_lower "name" then
    {| i_name := i; i_column1 := i_column1 indices;
       i_column2 := i_column2 indices; i_tier := i_tier indices |}
  else if String.eqb header_lower "column 1" then
    {| i_name := i_name indices; i_column1 := i;
       i_column2 := i_column2 indices; i_tier := i_tier indices |}
  else if String.eqb header_lower "column 2" then
    {| i_name := i_name indices; i_column1 := i_column1 indices;
       i_column2 := i; i_tier := i_tier indices |}
  else if String.eqb header_lower "tier" then
    {| i_name := i_name indices; i_column1 := i_column1 indices;
       i_column2 := i_column2 indices; i_tier := i |}
  else indices.

Fixpoint find_column_indices_loop (i : Z) (headers : list string)
  (indices : Indices) : Indices :=
  match headers with
  | [] => indices
  | header :: rest =>
      find_column_indices_loop (i + 1) rest
        (find_column_indices_step indices i header)
  end.

Definition find_column_indices (headers : list string) : Indices :=
  find_column_indices_loop 0 headers
    {| i_name := -1; i_column1 := -1; i_column2 := -1; i_tier := -1 |}.

(** [indices.values()] *)
Definition values_of (indices : Indices) : list Z :=
  [i_name indices; i_column1 indices; i_column2 indices; i_tier indices].

(** [max(indices.values())] *)
Definition max_index (indices : Indices) : Z :=
  Z.max (i_name indices)
    (Z.max (i_column1 indices) (Z.max (i_column2 indices) (i_tier indices))).

(** [row[i]]; the parser reads it for [0 <= i < len(row)] only. *)
Definition cell (row : list string) (i : Z) : string :=
  default "" (row !! Z.to_nat i).

(** The body of the loop over [values[2:]]; [None] is a skipped row. *)
Definition parse_tab_row (indices : Indices) (row : list string)
  : option SheetParser.WeaponRoll :=
  if (Z.of_nat (List.length row) <=? max_index indices)%Z then None
  else SheetParser.parse_row (cell row (i_name indices))
         (cell row (i_column1 indices)) (cell row (i_column2 indices))
         (cell row (i_tier indices)).

(** [parse_tab] from the point where [read_sheet] returned [values]. *)
Definition parse_tab (values : list (list string))
  : list SheetParser.WeaponRoll :=
  if bool_decide (values = []) || (List.length values <? 2)%nat then []
  else
    let headers := default [] (values !! 1%nat) in
    let indices := find_column_indices headers in
    if existsb (λ idx, (idx =? -1)%Z) (values_of indices) then []
    else omap (parse_tab_row indices) (drop 2 values).

(** The four columns and the header text that selects each. *)
Inductive Column : Set := NameColumn | Column1 | Column2 | TierColumn.

Definition header_text (column : Column) : string :=
  match column with
  | NameColumn => "name"
  | Column1 => "column 1"
  | Column2 => "column 2"
  | TierColumn => "tier"
  end.

(** [indices[key]] *)
Definition index_of (column : Column) (indices : Indices) : Z :=
  match column with
  | NameColumn => i_name indices
  | Column1 => i_column1 indices
  | Column2 => i_column2 indices
  | TierColumn => i_tier indices
  end.

(** The text a header is compared by. *)
Definition header_key (header : string) : string :=
  PyStr.strip (PyStr.lower header).

End SheetTab.

(** ** The prompts of the tier policy (config_manager.py) *)

Module ConfigPrompt.
Import ConfigManager.

Inductive TierSelection : Set := S_ONLY | S_A | S_A_B | ALL.

(** [TierSelection.get_tiers] *)
Definition get_tiers (selection : TierSelection) : gset string :=
  match selection with
  | S_ONLY => {["S"]}
  | S_A => {["S"; "A"]}
  | S_A_B => {["S"; "A"; "B"]}
  | ALL => {["S"; "A"; "B"; "C"; "D"; "F"]}
  end.

(** [TierSelection(choice)] for [1 <= choice <= 4] *)
Definition TierSelection_of (choice : Z) : TierSelection :=
  if (choice =? 1)%Z then S_ONLY
  else if (choice =? 2)%Z then S_A
  else if (choice =? 3)%Z then S_A_B
  else ALL.

(** [PerkOption(choice)] for [1 <= choice <= 3] *)
Definition PerkOption_of (choice : Z) : PerkOption :=
  if (choice =? 1)%Z then BOTH_COLUMNS
  else if (choice =? 2)%Z then ANY_COLUMN
  else ANY_PERKS.

(** The lines typed at the prompts, each as [int(input(...))] reads it:
    a number, or [None] when [int] raises [ValueError].  A prompt that
    finds no line left ends the program ([input] raises [EOFError], which
    the loop does not catch): the result is [None]. *)
Fixpoint get_tier_selection (answers : list (option Z))
  : option (TierSelection * list (option Z)) :=
  match answers with
  | [] => None
  | Some choice :: rest =>
      if ((1 <=? choice) && (choice <=? 4))%Z
      then Some (TierSelection_of choice, rest)
      else get_tier_selection rest
  | None :: rest => get_tier_selection rest
  end.

Fixpoint get_perk_option (answers : list (option Z))
  : option (PerkOption * list (option Z)) :=
  match answers with
  | [] => None
  | Some choice :: rest =>
      if ((1 <=? choice) && (choice <=? 3))%Z
      then Some (PerkOption_of choice, rest)
      else get_perk_option rest
  | None :: rest => get_perk_option rest
  end.

(** The loop [for tier in sorted(tiers)] of [get_config]. *)
Fixpoint perk_options_loop (tiers : list string) (answers : list (option Z))
  : option (list TierConfig * list (option Z)) :=
  match tiers with
  | [] => Some ([], answers)
  | tier :: rest =>
      '(perk_option, answers) ← get_perk_option answers;
      '(configs, answers) ← perk_options_loop rest answers;
      Some ({| tier := tier; perk_option := perk_option |} :: configs,
            answers)
  end.

Definition get_config (answers : list (option Z))
  : option (list TierConfig * list (option Z)) :=
  '(tier_selection, answers) ← get_tier_selection answers;
  let tiers := get_tiers tier_selection in
  perk_options_loop (sorted tiers) answers.

(** An answer a prompt with choices 1 to [n] accepts. *)
Definition valid_choice (n : Z) (answer : option Z) : Prop :=
  match answer with
  | Some choice => (1 ≤ choice ≤ n)%Z
  | None => False
  end.

#[global] Instance valid_choice_dec (n : Z) (answer : option Z) :
  Decision (valid_choice n answer).
Proof. destruct answer; simpl; apply _. Defined.

End ConfigPrompt.

(** ** The loop over the parsed tabs (match_items.py, main.py) *)

Module ProcessWeapons.
Import ItemMatcher Matching MatcherFacts Resolution.

(** [self.weapons[weapon_type].append(result)], after the list was
    created if the key was new; the dict keeps its insertion order. *)
Fixpoint weapons_append (weapon_type : string) (result : MatchedWeapon)
  (weapons : list (string * list MatchedWeapon))
  : list (string * list MatchedWeapon) :=
  match weapons with
  | [] => [(weapon_type, [result])]
  | (k, v) :: rest =>
      if String.eqb k weapon_type then (k, v ++ [result]) :: rest
      else (k, v) :: weapons_append weapon_type result rest
  end.

(** [self.weapons] and the two counters of the loop. *)
Record Progress : Type := {
  weapons : list (string * list MatchedWeapon);
  processed : nat;
  matched : nat
}.

Section WithCatalog.
Context `{SetIteration}.
Variable manifest : list Item.

(** [for weapon in weapons] *)
Fixpoint weapons_loop (weapon_type : string)
  (rows : list SheetParser.WeaponRoll) (p : Progress) : M Progress :=
  match rows with
  | [] => mret p
  | weapon :: rest =>
      result ← match_weapon manifest weapon;
      let p :=
        match result with
        | Some result =>
            {| weapons := weapons_append weapon_type result (weapons p);
               processed := processed p;
               matched := matched p + 1 |}
        | None => p
        end in
      weapons_loop weapon_type rest
        {| weapons := weapons p;
           processed := processed p + 1;
           matched := matched p |}
  end.

(** [for weapon_type, weapons in all_weapons.items()] *)
Fixpoint types_loop (all_weapons : list (string * list SheetParser.WeaponRoll))
  (p : Progress) : M Progress :=
  match all_weapons with
  | [] => mret p
  | (weapon_type, rows) :: rest =>
      p ← weapons_loop weapon_type rows p;
      types_loop rest p
  end.

(** [process_weapons] / [process_all_weapons] from the parsed tabs on, for
    a matcher whose [weapons] is [weapons0]. *)
Definition process_weapons
  (all_weapons : list (string * list SheetParser.WeaponRoll))
  (weapons0 : list (string * list MatchedWeapon)) : M Progress :=
  types_loop all_weapons
    {| weapons := weapons0; processed := 0; matched := 0 |}.

(** The rows of a tab that resolve, as the dicts they resolve to. *)
Definition resolved_rows (rows : list SheetParser.WeaponRoll)
  : list MatchedWeapon :=
  omap (matched_weapon manifest) rows.

(** One entry of [self.weapons]: none when no row of the tab resolves. *)
Definition group (weapon_type : string) (results : list MatchedWeapon)
  : list (string * list MatchedWeapon) :=
  match results with
  | [] => []
  | _ :: _ => [(weapon_type, results)]
  end.

Definition grouped (all_weapons : list (string * list SheetParser.WeaponRoll))
  : list (string * list MatchedWeapon) :=
  all_weapons ≫= λ kv, group kv.1 (resolved_rows kv.2).

(** The names a run over [rows] reports as missing. *)
Definition missing_weapon_names (rows : list SheetParser.WeaponRoll)
  : list string :=
  map SheetParser.name
      (filter (λ weapon,
                 weapon_result manifest (SheetParser.name weapon) = [])
              rows).

Definition missing_perk_names (rows : list SheetParser.WeaponRoll)
  : list string :=
  filter (λ weapon, weapon_result manifest (SheetParser.name weapon) ≠ [])
         rows
  ≫= λ weapon, unresolved manifest (SheetParser.perks weapon).

End WithCatalog.
End ProcessWeapons.

(** ** Writing the wishlist (main.py) *)

Module WishlistBuilder.
Import WishlistGenerator ConfigPrompt.

(** The sort key [(w['type'], w['name'])]. *)
Definition type_name (w : MatchedWeapon) : string * string :=
  (mw_type w, mw_name w).

(** [k1 < k2] on tuples of two strings: the first components decide unless
    they are equal. *)
Definition tuple_lt (k1 k2 : string * string) : bool :=
  if String.eqb k1.1 k2.1 then String.ltb k1.2 k2.2
  else String.ltb k1.1 k2.1.

(** [l.sort(key=...)]: the stable sort, written by insertion. *)
Fixpoint insert_asc (x : MatchedWeapon) (l : list MatchedWeapon)
  : list MatchedWeapon :=
  match l with
  | [] => [x]
  | y :: ys =>
      if tuple_lt (type_name y) (type_name x) then y :: insert_asc x ys
      else x :: y :: ys
  end.

Fixpoint sort_asc (l : list MatchedWeapon) : list MatchedWeapon :=
  match l with
  | [] => []
  | x :: xs => insert_asc x (sort_asc xs)
  end.

(** [output_path.split('/')[-1]] *)
Definition file_name (output_path : string) : string :=
  default "" (last (PyStr.split_char "/" output_path)).

(** The header of the file; [now] is the formatted time of the run. *)
Definition header (now : string) (count : nat) (output_path : string)
  : string :=
  "// DIM Wishlist generated by dim-wishlist-builder" +:+ PyStr.nl
  +:+ "// Generated on: " +:+ now +:+ PyStr.nl
  +:+ "// Weapons processed: " +:+ PyStr.str_of_int (Z.of_nat count)
  +:+ PyStr.nl
  +:+ "// Format: " +:+ file_name output_path +:+ PyStr.nl
  +:+ PyStr.nl.

(** The text [generate_wishlist] hands to [save_wishlist], from the answers
    typed at the prompts; [None] when the input ends at a prompt. *)
Definition generate_wishlist (answers : list (option Z)) (now : string)
  (matched_weapons : list (string * list MatchedWeapon))
  (output_path : string) : option string :=
  '(configs, _) ← get_config answers;
  let all_matched_weapons := matched_weapons ≫= snd in
  let all_matched_weapons := sort_asc all_matched_weapons in
  let wishlist_content := generate_dim_wishlist configs all_matched_weapons in
  Some (header now (List.length all_matched_weapons) output_path
        +:+ wishlist_content).

(** [k1 <= k2] on sort keys *)
Definition tuple_le (k1 k2 : string * string) : Prop := tuple_lt k2 k1 = false.

End WishlistBuilder.

(** ** Looking an id up by name (bungie_api.py) *)

Module BungieIds.
Import BungieAPI.

(** The two name-to-id dicts of [self.cache]. *)
Record IdCache : Type := {
  weapons : gmap string Z;
  perks : gmap string Z
}.

(** The loop [for item in results] with its [return]: the first item that
    passes the test. *)
Fixpoint first_match (test : Item → bool) (results : list Item)
  : option Item :=
  match results with
  | [] => None
  | item :: rest => if test item then Some item else first_match test rest
  end.

Definition find_weapon_id (manifest : list Item) (weapon_name : string)
  (cache : IdCache) : option Z * IdCache :=
  match weapons cache !! weapon_name with
  | Some item_hash => (Some item_hash, cache)
  | None =>
      let results := search_results manifest weapon_name in
      match first_match
              (λ item, is_weapon item
                       && String.eqb (PyStr.lower (name item))
                                     (PyStr.lower weapon_name))
              results with
      | Some item =>
          (Some (hash item),
           {| weapons := <[weapon_name := hash item]> (weapons cache);
              perks := perks cache |})
      | None => (None, cache)
      end
  end.

Definition find_perk_id (manifest : list Item) (perk_name : string)
  (cache : IdCache) : option Z * IdCache :=
  match perks cache !! perk_name with
  | Some item_hash => (Some item_hash, cache)
  | None =>
      let results := search_results manifest perk_name in
      match first_match
              (λ item, is_perk item
                       && String.eqb (PyStr.lower (name item))
                                     (PyStr.lower perk_name))
              results with
      | Some item =>
          (Some (hash item),
           {| weapons := weapons cache;
              perks := <[perk_name := hash item]> (perks cache) |})
      | None => (None, cache)
      end
  end.

(** The two finders by the class they look for. *)
Definition find_id (wantedClass : ItemClass) (manifest : list Item)
  (item_name : string) (cache : IdCache) : option Z * IdCache :=
  match wantedClass with
  | Weapon => find_weapon_id manifest item_name cache
  | Perk => find_perk_id manifest item_name cache
  end.

Definition ids_of (wantedClass : ItemClass) (cache : IdCache)
  : gmap string Z :=
  match wantedClass with
  | Weapon => weapons cache
  | Perk => perks cache
  end.

(** An item of the class whose display name is [item_name] up to case. *)
Definition named (wantedClass : ItemClass) (item_name : string)
  (item : Item) : Prop :=
  is_class wantedClass item = true
  ∧ PyStr.lower (name item) = PyStr.lower item_name.

#[global] Instance named_dec (wantedClass : ItemClass) (item_name : string)
  (item : Item) : Decision (named wantedClass item_name item).
Proof. unfold named. apply _. Defined.

End BungieIds.

(** ** The catalog searches of the perk loops *)

Module PerkSearches.
Import ItemMatcher MatcherFacts.

Section WithCatalog.
Variable manifest : list Item.

(** The terms the two perk loops of [match_weapon] send to the catalog for
    [perks], in order, when the names in [seen] are cached: a perk that is
    not cached yet is searched by its lookup, and a perk without candidate
    is searched once more for the report. *)
Fixpoint perk_queries (seen : gset string) (perks : list string)
  : list string :=
  match perks with
  | [] => []
  | perk :: rest =>
      (if decide (perk ∈ seen) then [] else [perk])
      ++ (if decide (perk_result manifest perk = []) then [perk] else [])
      ++ perk_queries ({[perk]} ∪ seen) rest
  end.

End WithCatalog.

(** The terms the weapon lookup of [match_weapon] sends to the catalog for
    a name, when the names in [seen] are cached. *)
Definition weapon_queries `{SetIteration} (seen : gset string)
  (weapon_name : string) : list string :=
  if decide (weapon_name ∈ seen) then []
  else get_search_variants weapon_name.

End PerkSearches.

(** * Properties *)

(** ** The primitives on examples *)

Example is_weapon_ex :
  BungieAPI.is_weapon (Catalogs.weapon_item 1 "x") = true
  ∧ BungieAPI.is_perk (Catalogs.weapon_item 1 "x") = false
  ∧ BungieAPI.is_perk (Catalogs.perk_item 1 "x") = true
  ∧ BungieAPI.is_weapon (Catalogs.perk_item 1 "x") = false.
Proof. vm_compute. done. Qed.

Example lower_ex : PyStr.lower "IKELOS_SMG_v1.0.2" = "ikelos_smg_v1.0.2".
Proof. reflexivity. Qed.

Example split_ws_ex : PyStr.split_ws "  a  bc d " = ["a"; "bc"; "d"].
Proof. reflexivity. Qed.

Example split_head_ex : PyStr.split_head "_v" "IKELOS_SMG_v1.0.2" = "IKELOS_SMG".
Proof. reflexivity. Qed.

Example split_head_none : PyStr.split_head "_v" "Gun_V2" = "Gun_V2".
Proof. reflexivity. Qed.

Example strip_ex : PyStr.strip "  a b  " = "a b".
Proof. reflexivity. Qed.

Example str_of_int_ex : PyStr.str_of_int 100 = "100" /\ PyStr.str_of_int 0 = "0"
                        /\ PyStr.str_of_int (-7) = "-7".
Proof. vm_compute. auto. Qed.

Example parse_perks_ex :
  SheetParser.parse_perks ("Outlaw" +:+ PyStr.nl +:+ " Rampage " +:+ PyStr.nl)
  = ["Outlaw"; "Rampage"].
Proof. vm_compute. reflexivity. Qed.

Example normalize_ex :
  ItemMatcher.normalize_name "IKELOS_SMG_v1.0.2" = "ikelos smg v1 0 2".
Proof. reflexivity. Qed.

Example variants_ex :
  ItemMatcher.variants_list "IKELOS_SMG_v1.0.2"
  = ["IKELOS_SMG_v1.0.2"; "IKELOS_SMG"; "ikelos smg v1 0 2"; "ikelos smg"].
Proof. vm_compute. reflexivity. Qed.

Example variants_orders_ex :
  ItemMatcher.get_search_variants (H := first_seen_order) "The-Recluse"
  = ["The-Recluse"; "the recluse"]
  ∧ ItemMatcher.get_search_variants (H := last_seen_order) "The-Recluse"
    = ["the recluse"; "The-Recluse"].
Proof. vm_compute. done. Qed.

Example compare_ex :
  ItemMatcher.compare_names "The-Recluse" "the recluse" = Ok (true, 1%Q)
  ∧ ItemMatcher.compare_names "Recluse" "The Recluse" = Ok (false, (7 # 11)%Q)
  ∧ ItemMatcher.compare_names "" "..." = Ok (true, 1%Q)
  ∧ ItemMatcher.compare_names "" "x" = Ok (false, (0 # 1)%Q)
  ∧ ItemMatcher.compare_names "ab" "cd" = Ok (false, 0%Q).
Proof. vm_compute. repeat split. Qed.

Example expander_any_column :
  WishlistGenerator.output_lines Examples.policy (Examples.weapon100 "S" [1; 2]%Z [3]%Z)
  = Some [ "Weapon - Tier: S";
           "dimwishlist:item=100&perks=1";
           "dimwishlist:item=100&perks=1,3";
           "dimwishlist:item=100&perks=2";
           "dimwishlist:item=100&perks=2,3";
           "dimwishlist:item=100&perks=3" ].
Proof. vm_compute. reflexivity. Qed.

(** A weapon that is found, one that is not, and the wishlist of the two:
    one block, and one name among the missing weapons. *)
Example end_to_end_ex :
  let run :=
    found ← Matching.match_weapon (H := first_seen_order) Catalogs.armory
               {| SheetParser.name := "Fatebringer"; SheetParser.tier := "S";
                  SheetParser.perks := ["Rapid Hit"; "Rampage"] |};
    lost ← Matching.match_weapon (H := first_seen_order) Catalogs.armory
              {| SheetParser.name := "Gjallarhorn"; SheetParser.tier := "S";
                 SheetParser.perks := ["Outlaw"; "Rampage"] |};
    mret (omap id [found; lost]) in
  ∃ matched s,
    run ItemMatcher.init = Ok (matched, s)
    ∧ ItemMatcher.missing_weapons s = {["Gjallarhorn"]}
    ∧ ItemMatcher.missing_perks s = ∅
    ∧ WishlistGenerator.generate_dim_wishlist Examples.policy matched
      = PyStr.join PyStr.nl
          [ "Fatebringer - Tier: S";
            "dimwishlist:item=200&perks=1";
            "dimwishlist:item=200&perks=1,3";
            "dimwishlist:item=200&perks=3" ] +:+ PyStr.nl.
Proof.
  eexists _, _. split; [vm_compute; reflexivity|].
  split_and!; [by vm_compute..].
Qed.

(** The second lookup of a name that matched nothing is served from the
    cache. *)
Example cached_empty_ex :
  ∃ s1,
    Matching.find_perk_matches Catalogs.armory "Vorpal Weapon" ItemMatcher.init
    = Ok ([], s1)
    ∧ ItemMatcher.catalog_queries s1 = ["Vorpal Weapon"]
    ∧ Matching.find_perk_matches Catalogs.armory "Vorpal Weapon" s1
      = Ok ([], s1).
Proof.
  eexists. split; [vm_compute; reflexivity|]. split; by vm_compute.
Qed.

(** ** Strings and their order *)

Lemma elem_of_sorted (s : gset string) (x : string) : x ∈ sorted s ↔ x ∈ s.
Proof.
  unfold sorted. rewrite merge_sort_Permutation. apply elem_of_elements.
Qed.

Lemma NoDup_sorted (s : gset string) : NoDup (sorted s).
Proof.
  unfold sorted. rewrite merge_sort_Permutation. apply NoDup_elements.
Qed.

Lemma StronglySorted_sorted (s : gset string) :
  StronglySorted String.le (sorted s).
Proof. apply StronglySorted_merge_sort; apply _. Qed.

Lemma sorted_empty : sorted ∅ = [].
Proof. unfold sorted. by rewrite elements_empty. Qed.

(** ** compare_names *)

Section CompareNames.
Import ItemMatcher.

Lemma string_length_0 (s : string) : String.length s = 0%nat → s = "".
Proof. by destruct s. Qed.

Lemma truediv_pos (a b : nat) :
  (0 < b)%nat → truediv a b = Ok (Z.of_nat a # Pos.of_nat b)%Q.
Proof. destruct b; [lia|done]. Qed.

(** The three outcomes of [compare_names], by the case of the normalized
    names. *)
Lemma compare_names_equal (name1 name2 : string) :
  normalize_name name1 = normalize_name name2 →
  compare_names name1 name2 = Ok (true, 1%Q).
Proof.
  intros Heq. unfold compare_names. rewrite Heq.
  by rewrite (proj2 (String.eqb_eq _ _) eq_refl).
Qed.

Lemma max_len_pos (norm1 norm2 : string) :
  norm1 ≠ norm2 →
  (0 < Nat.max (String.length norm1) (String.length norm2))%nat.
Proof.
  intros Hne.
  destruct (decide (Nat.max (String.length norm1) (String.length norm2) = 0%nat))
    as [Hz|]; [|lia].
  destruct Hne.
  rewrite (string_length_0 norm1), (string_length_0 norm2); [done|lia..].
Qed.

Lemma compare_names_substring (name1 name2 : string) :
  let norm1 := normalize_name name1 in
  let norm2 := normalize_name name2 in
  norm1 ≠ norm2 →
  PyStr.contains norm1 norm2 || PyStr.contains norm2 norm1 = true →
  compare_names name1 name2
  = Ok (false,
        (Z.of_nat (Nat.min (String.length norm1) (String.length norm2))
         # Pos.of_nat (Nat.max (String.length norm1) (String.length norm2)))%Q).
Proof.
  intros norm1 norm2 Hne Hsub. unfold compare_names.
  fold norm1 norm2. rewrite (proj2 (String.eqb_neq _ _) Hne), Hsub.
  by rewrite truediv_pos by by apply max_len_pos.
Qed.

Lemma compare_names_unrelated (name1 name2 : string) :
  let norm1 := normalize_name name1 in
  let norm2 := normalize_name name2 in
  norm1 ≠ norm2 →
  PyStr.contains norm1 norm2 || PyStr.contains norm2 norm1 = false →
  compare_names name1 name2 = Ok (false, 0%Q).
Proof.
  intros norm1 norm2 Hne Hsub. unfold compare_names.
  fold norm1 norm2. by rewrite (proj2 (String.eqb_neq _ _) Hne), Hsub.
Qed.

Lemma compare_names_Ok (name1 name2 : string) :
  ∃ exact_match similarity,
    compare_names name1 name2 = Ok (exact_match, similarity).
Proof.
  destruct (decide (normalize_name name1 = normalize_name name2)) as [Heq|Hne].
  - eexists _, _. by apply compare_names_equal.
  - destruct (PyStr.contains (normalize_name name1) (normalize_name name2)
              || PyStr.contains (normalize_name name2) (normalize_name name1))
      eqn:Hin; eexists _, _.
    + by apply compare_names_substring.
    + by apply compare_names_unrelated.
Qed.

End CompareNames.

(** C10.  [compare_names] raises on no pair of names: it returns an exact
    match with similarity 1 when the normalized names are equal (two names
    that normalize to the empty string among them), the quotient
    [min_len / max_len] with a positive [max_len] when they differ and one
    contains the other, and similarity 0 in the remaining case, the only
    one where neither holds; the quotient is computed in the second case
    only. *)
Theorem compare_names_total (name1 name2 : string) :
  let norm1 := ItemMatcher.normalize_name name1 in
  let norm2 := ItemMatcher.normalize_name name2 in
  let min_len := Nat.min (String.length norm1) (String.length norm2) in
  let max_len := Nat.max (String.length norm1) (String.length norm2) in
  let one_in_other :=
    PyStr.contains norm1 norm2 || PyStr.contains norm2 norm1 in
  (∃ exact_match similarity,
     ItemMatcher.compare_names name1 name2 = Ok (exact_match, similarity))
  ∧ (norm1 = norm2 →
     ItemMatcher.compare_names name1 name2 = Ok (true, 1%Q))
  ∧ (norm1 ≠ norm2 → one_in_other = true →
     (0 < max_len)%nat
     ∧ ItemMatcher.truediv min_len max_len
       = Ok (Z.of_nat min_len # Pos.of_nat max_len)%Q
     ∧ ItemMatcher.compare_names name1 name2
       = Ok (false, (Z.of_nat min_len # Pos.of_nat max_len)%Q))
  ∧ (norm1 ≠ norm2 → one_in_other = false →
     ItemMatcher.compare_names name1 name2 = Ok (false, 0%Q))
  ∧ (norm1 = "" → norm2 = "" →
     ItemMatcher.compare_names name1 name2 = Ok (true, 1%Q)).
Proof.
  intros norm1 norm2 min_len max_len one_in_other.
  assert (Hsub : norm1 ≠ norm2 → one_in_other = true →
     (0 < max_len)%nat
     ∧ ItemMatcher.truediv min_len max_len
       = Ok (Z.of_nat min_len # Pos.of_nat max_len)%Q
     ∧ ItemMatcher.compare_names name1 name2
       = Ok (false, (Z.of_nat min_len # Pos.of_nat max_len)%Q)).
  { intros Hne Hin. pose proof (max_len_pos _ _ Hne) as Hpos.
    split_and!; [done|by apply truediv_pos|by apply compare_names_substring]. }
  split_and!.
  - apply compare_names_Ok.
  - apply compare_names_equal.
  - done.
  - apply compare_names_unrelated.
  - intros H1 H2. apply compare_names_equal. fold norm1 norm2. congruence.
Qed.

(** ** The roll expander *)

Section RollExpander.
Import ConfigManager WishlistGenerator.

Lemma should_include_weapon_None (tier_label : string)
  (configs : list TierConfig) :
  should_include_weapon tier_label configs = None
  ↔ tier_label ∉ map tier configs.
Proof.
  induction configs as [|config rest IH]; simpl.
  - split; [intros _; apply not_elem_of_nil|done].
  - rewrite not_elem_of_cons. destruct (String.eqb_spec (tier config) tier_label).
    + split; [done|]. by intros [? _].
    + rewrite IH. naive_solver.
Qed.

Lemma should_include_weapon_Some (tier_label : string)
  (configs : list TierConfig) (perk_option : PerkOption) :
  should_include_weapon tier_label configs = Some perk_option →
  ∃ config, config ∈ configs ∧ tier config = tier_label
            ∧ ConfigManager.perk_option config = perk_option.
Proof.
  induction configs as [|config rest IH]; simpl; [done|].
  destruct (String.eqb_spec (tier config) tier_label).
  - intros [= <-]. exists config. split_and!; [left|done..].
  - intros (c & ? & ? & ?)%IH. exists c. split_and!; [by right|done..].
Qed.

Lemma elem_of_product {A B : Type} (xs : list A) (ys : list B) (x : A) (y : B) :
  (x, y) ∈ product xs ys ↔ x ∈ xs ∧ y ∈ ys.
Proof.
  unfold product. rewrite list_elem_of_bind. split.
  - intros (x' & (y' & Hin & Hy)%list_elem_of_bind & Hx).
    apply list_elem_of_singleton in Hin as [= -> ->]. done.
  - intros [Hx Hy]. exists x. split; [|done].
    apply list_elem_of_bind. exists y. split; [|done].
    by apply list_elem_of_singleton.
Qed.

Lemma elem_of_all_combinations (perk_option : PerkOption)
  (weapon : WeaponRoll) (line : string) :
  line ∈ all_combinations perk_option weapon
  ↔ (perk_option ≠ BOTH_COLUMNS
     ∧ ∃ perk, perk ∈ perks_column1 weapon ++ perks_column2 weapon
               ∧ line = single_line (w_hash weapon) (hash perk))
    ∨ (∃ perk1 perk2,
         perk1 ∈ perks_column1 weapon ∧ perk2 ∈ perks_column2 weapon
         ∧ line = pair_line (w_hash weapon) (hash perk1) (hash perk2)).
Proof.
  unfold all_combinations.
  assert (Hpairs : ∀ X : gset string,
    line ∈ (if bool_decide (perks_column1 weapon ≠ [] ∧ perks_column2 weapon ≠ [])
            then X ∪ list_to_set
                   (map (λ pp, pair_line (w_hash weapon) (hash pp.1) (hash pp.2))
                      (product (perks_column1 weapon) (perks_column2 weapon)))
            else X)
    ↔ line ∈ X ∨ (∃ perk1 perk2,
         perk1 ∈ perks_column1 weapon ∧ perk2 ∈ perks_column2 weapon
         ∧ line = pair_line (w_hash weapon) (hash perk1) (hash perk2))).
  { intros X. case_bool_decide as Hne.
    - rewrite elem_of_union, elem_of_list_to_set, list_elem_of_fmap.
      split; (intros [?|Hp]; [by left|right]).
      + destruct Hp as ([p1 p2] & -> & Hin%elem_of_product). naive_solver.
      + destruct Hp as (p1 & p2 & ? & ? & ->). exists (p1, p2).
        split; [done|]. by apply elem_of_product.
    - split; [by left|]. intros [?|(p1 & p2 & H1 & H2 & _)]; [done|].
      destruct Hne. split; intros E; rewrite E in *; by eapply not_elem_of_nil. }
  rewrite Hpairs. clear Hpairs.
  case_bool_decide as Hopt.
  - rewrite !elem_of_union, !elem_of_list_to_set, !list_elem_of_fmap.
    setoid_rewrite elem_of_app.
    assert (perk_option ≠ BOTH_COLUMNS).
    { intros ->. by repeat (apply elem_of_cons in Hopt as [?|Hopt]; [done|]);
                   apply not_elem_of_nil in Hopt. }
    set_solver.
  - assert (perk_option = BOTH_COLUMNS) as ->.
    { destruct perk_option; [done|destruct Hopt..]; set_solver. }
    set_solver.
Qed.

Lemma all_combinations_both_one_empty (weapon : WeaponRoll) :
  perks_column1 weapon = [] ∨ perks_column2 weapon = [] →
  all_combinations BOTH_COLUMNS weapon = ∅.
Proof.
  intros Hempty. apply set_eq. intros line.
  rewrite elem_of_all_combinations. split; [|set_solver].
  intros [[? _]|(p1 & p2 & H1 & H2 & _)]; [done|].
  destruct Hempty as [E|E]; rewrite E in *; by eapply not_elem_of_nil in H1 || eapply not_elem_of_nil in H2.
Qed.

(** Dropping a weapon whose entry is [None] leaves the wishlist as it is. *)
Lemma generate_without (configs : list TierConfig)
  (weapon_data : MatchedWeapon) (before after : list MatchedWeapon) :
  _format_weapon_rolls configs (process_matched_weapon weapon_data) = None →
  generate_dim_wishlist configs (before ++ weapon_data :: after)
  = generate_dim_wishlist configs (before ++ after).
Proof.
  intros Hnone. unfold generate_dim_wishlist, entries.
  rewrite !omap_app. simpl. by rewrite Hnone.
Qed.

End RollExpander.

(** C7.  A weapon whose tier is configured [BOTH_COLUMNS] and one of whose
    perk columns is empty gets no entry: [_format_weapon_rolls] returns
    [None], whatever the other column holds, and the wishlist is the one
    generated without that weapon. *)
Theorem both_columns_one_empty_excluded
  (configs : list ConfigManager.TierConfig)
  (weapon : WishlistGenerator.WeaponRoll) :
  ConfigManager.should_include_weapon (WishlistGenerator.w_tier weapon) configs
  = Some ConfigManager.BOTH_COLUMNS →
  WishlistGenerator.perks_column1 weapon = []
  ∨ WishlistGenerator.perks_column2 weapon = [] →
  WishlistGenerator._format_weapon_rolls configs weapon = None
  ∧ ∀ weapon_data before after,
      WishlistGenerator.process_matched_weapon weapon_data = weapon →
      WishlistGenerator.generate_dim_wishlist configs
        (before ++ weapon_data :: after)
      = WishlistGenerator.generate_dim_wishlist configs (before ++ after).
Proof.
  intros Hpolicy Hempty.
  assert (Hnone : WishlistGenerator._format_weapon_rolls configs weapon = None).
  { unfold WishlistGenerator._format_weapon_rolls,
      WishlistGenerator.output_lines.
    rewrite Hpolicy, all_combinations_both_one_empty by done.
    by rewrite bool_decide_false by (by intros []). }
  split; [done|]. intros weapon_data before after <-.
  by apply generate_without.
Qed.

Lemma both_columns_one_empty_excluded_witness :
  WishlistGenerator._format_weapon_rolls Examples.policy
    (Examples.weapon100 "A" [1; 2]%Z []) = None
  ∧ ∀ weapon_data before after,
      WishlistGenerator.process_matched_weapon weapon_data
      = Examples.weapon100 "A" [1; 2]%Z [] →
      WishlistGenerator.generate_dim_wishlist Examples.policy
        (before ++ weapon_data :: after)
      = WishlistGenerator.generate_dim_wishlist Examples.policy
          (before ++ after).
Proof.
  apply (both_columns_one_empty_excluded Examples.policy
           (Examples.weapon100 "A" [1; 2]%Z [])).
  - reflexivity.
  - right. reflexivity.
Defined.

(** C8.  A weapon whose tier label no [TierConfig] carries gets no entry,
    whatever its perks: [_format_weapon_rolls] returns [None] and the
    wishlist is the one generated without that weapon. *)
Theorem absent_tier_excluded
  (configs : list ConfigManager.TierConfig)
  (weapon : WishlistGenerator.WeaponRoll) :
  WishlistGenerator.w_tier weapon ∉ map ConfigManager.tier configs →
  WishlistGenerator._format_weapon_rolls configs weapon = None
  ∧ ∀ weapon_data before after,
      WishlistGenerator.process_matched_weapon weapon_data = weapon →
      WishlistGenerator.generate_dim_wishlist configs
        (before ++ weapon_data :: after)
      = WishlistGenerator.generate_dim_wishlist configs (before ++ after).
Proof.
  intros Habsent%should_include_weapon_None.
  assert (Hnone : WishlistGenerator._format_weapon_rolls configs weapon = None).
  { unfold WishlistGenerator._format_weapon_rolls,
      WishlistGenerator.output_lines. by rewrite Habsent. }
  split; [done|]. intros weapon_data before after <-.
  by apply generate_without.
Qed.

Lemma absent_tier_excluded_witness :
  WishlistGenerator._format_weapon_rolls Examples.policy
    (Examples.weapon100 "Z" [1; 2]%Z [3]%Z) = None
  ∧ ∀ weapon_data before after,
      WishlistGenerator.process_matched_weapon weapon_data
      = Examples.weapon100 "Z" [1; 2]%Z [3]%Z →
      WishlistGenerator.generate_dim_wishlist Examples.policy
        (before ++ weapon_data :: after)
      = WishlistGenerator.generate_dim_wishlist Examples.policy
          (before ++ after).
Proof.
  apply (absent_tier_excluded Examples.policy
           (Examples.weapon100 "Z" [1; 2]%Z [3]%Z)).
  apply (bool_decide_unpack _). vm_compute. exact I.
Defined.

(** C1, as stated, fails: the block of weapon 100 with column 1 = 1, 2 and
    column 2 = 3 under [ANY_COLUMN] has the header and five roll lines, and
    its first roll line starts with [dimwishlist:], so it is none of the
    three forms [item=...]. *)
Lemma roll_lines_carry_prefix :
  WishlistGenerator._format_weapon_rolls Examples.policy
    (Examples.weapon100 "S" [1; 2]%Z [3]%Z)
  = Some (PyStr.join PyStr.nl
            [ "Weapon - Tier: S";
              "dimwishlist:item=100&perks=1";
              "dimwishlist:item=100&perks=1,3";
              "dimwishlist:item=100&perks=2";
              "dimwishlist:item=100&perks=2,3";
              "dimwishlist:item=100&perks=3" ] +:+ PyStr.nl)
  ∧ ¬ spec_roll_line 100 "dimwishlist:item=100&perks=1".
Proof.
  split; [by vm_compute|].
  unfold spec_roll_line.
  intros [H|[[p H]|(p1 & p2 & H)]]; discriminate H.
Qed.

Section WeaponBlock.
Import ConfigManager WishlistGenerator.

Lemma string_app_nonempty_r (a b : string) : a = a +:+ b → b = "".
Proof.
  induction a as [|c a IH]; [done|]. intros [= Heq]. auto.
Qed.

Lemma bare_line_not_combination (perk_option : PerkOption)
  (weapon : WeaponRoll) :
  bare_line (w_hash weapon) ∉ all_combinations perk_option weapon.
Proof.
  rewrite elem_of_all_combinations. unfold bare_line, single_line, pair_line.
  intros [[_ (p & _ & Heq)]|(p1 & p2 & _ & _ & Heq)];
    apply (inj (String.app _)) in Heq;
    by apply string_app_nonempty_r in Heq.
Qed.

End WeaponBlock.

(** C1, amended.  The entry of a weapon is its header line, then the roll
    lines, each followed by a newline.  The roll lines are the bare line
    [dimwishlist:item=<hash>] under [ANY_PERKS], then, in ascending order and
    each once, the lines [dimwishlist:item=<hash>&perks=<p>] for every perk
    [p] of either column unless the option is [BOTH_COLUMNS], and the lines
    [dimwishlist:item=<hash>&perks=<p1>,<p2>] for every [p1] of column 1 and
    [p2] of column 2; no line has any other form. *)
Theorem weapon_block_format
  (configs : list ConfigManager.TierConfig)
  (weapon : WishlistGenerator.WeaponRoll) (block : string) :
  WishlistGenerator._format_weapon_rolls configs weapon = Some block →
  ∃ perk_option combos,
    let weapon_hash := WishlistGenerator.w_hash weapon in
    let rolls :=
      (if bool_decide (perk_option = ConfigManager.ANY_PERKS)
       then [WishlistGenerator.bare_line weapon_hash] else []) ++ combos in
    ConfigManager.should_include_weapon
      (WishlistGenerator.w_tier weapon) configs = Some perk_option
    ∧ block = PyStr.join PyStr.nl
                (WishlistGenerator.header_line weapon :: rolls) +:+ PyStr.nl
    ∧ StronglySorted String.le combos
    ∧ NoDup rolls
    ∧ ∀ line, line ∈ combos ↔
        (perk_option ≠ ConfigManager.BOTH_COLUMNS
         ∧ ∃ perk, perk ∈ WishlistGenerator.perks_column1 weapon
                            ++ WishlistGenerator.perks_column2 weapon
                   ∧ line = WishlistGenerator.single_line weapon_hash
                              (WishlistGenerator.hash perk))
        ∨ (∃ perk1 perk2,
             perk1 ∈ WishlistGenerator.perks_column1 weapon
             ∧ perk2 ∈ WishlistGenerator.perks_column2 weapon
             ∧ line = WishlistGenerator.pair_line weapon_hash
                        (WishlistGenerator.hash perk1)
                        (WishlistGenerator.hash perk2)).
Proof.
  unfold WishlistGenerator._format_weapon_rolls, WishlistGenerator.output_lines.
  destruct (ConfigManager.should_include_weapon _ configs)
    as [perk_option|] eqn:Hpolicy; [|done].
  intros Hblock.
  exists perk_option,
    (sorted (WishlistGenerator.all_combinations perk_option weapon)).
  cbn zeta. split; [done|]. split.
  { destruct (decide (WishlistGenerator.all_combinations perk_option weapon = ∅))
      as [Hempty|Hne].
    - rewrite (bool_decide_false (_ ≠ _)) in Hblock by (by intros ?).
      rewrite Hempty, sorted_empty, app_nil_r.
      destruct (decide (perk_option = ConfigManager.ANY_PERKS)) as [->|Hopt].
      + simpl in Hblock. by injection Hblock as <-.
      + by rewrite !(bool_decide_false (perk_option = _)) in Hblock by done.
    - rewrite (bool_decide_true (_ ≠ _)) in Hblock by done.
      simpl in Hblock. injection Hblock as <-.
      by destruct (bool_decide (perk_option = ConfigManager.ANY_PERKS)). }
  clear Hblock. split_and!.
  - apply StronglySorted_sorted.
  - case_bool_decide; simpl; [|apply NoDup_sorted].
    apply NoDup_cons. split; [|apply NoDup_sorted].
    rewrite elem_of_sorted. apply bare_line_not_combination.
  - intros line. rewrite elem_of_sorted. apply elem_of_all_combinations.
Qed.

Lemma weapon_block_format_witness :
  ∃ perk_option combos,
    let rolls :=
      (if bool_decide (perk_option = ConfigManager.ANY_PERKS)
       then [WishlistGenerator.bare_line 100] else []) ++ combos in
    ConfigManager.should_include_weapon "B" Examples.policy = Some perk_option
    ∧ PyStr.join PyStr.nl
        [ "Weapon - Tier: B"; "dimwishlist:item=100";
          "dimwishlist:item=100&perks=1"; "dimwishlist:item=100&perks=1,3";
          "dimwishlist:item=100&perks=3" ] +:+ PyStr.nl
      = PyStr.join PyStr.nl ("Weapon - Tier: B" :: rolls) +:+ PyStr.nl
    ∧ StronglySorted String.le combos
    ∧ NoDup rolls
    ∧ ∀ line, line ∈ combos ↔
        (perk_option ≠ ConfigManager.BOTH_COLUMNS
         ∧ ∃ perk, perk ∈ [Examples.perk 1] ++ [Examples.perk 3]
                   ∧ line = WishlistGenerator.single_line 100
                              (WishlistGenerator.hash perk))
        ∨ (∃ perk1 perk2,
             perk1 ∈ [Examples.perk 1] ∧ perk2 ∈ [Examples.perk 3]
             ∧ line = WishlistGenerator.pair_line 100
                        (WishlistGenerator.hash perk1)
                        (WishlistGenerator.hash perk2)).
Proof.
  apply (weapon_block_format Examples.policy
           (Examples.weapon100 "B" [1]%Z [3]%Z)).
  vm_compute. reflexivity.
Defined.

(** ** The candidate matcher *)

Module MatcherLemmas.
Import ItemMatcher Matching MatcherFacts.

Lemma compare_names_score (raw_name : string) (item : Item) :
  compare_names raw_name (name item) = Ok (score raw_name item).
Proof.
  unfold score.
  by destruct (compare_names_Ok raw_name (name item))
    as (exact_match & similarity & ->).
Qed.

Lemma score_loop_run (threshold : Q) (raw_name : string) (ms : list Item) :
  score_loop threshold raw_name ms
  = Ok (map (attach raw_name)
          (filter (λ m, Is_true (retained threshold raw_name m)) ms)).
Proof.
  induction ms as [|m ms IH]; [done|].
  cbn [score_loop]. rewrite compare_names_score, IH.
  unfold mbind, result_bind. rewrite filter_cons.
  assert (Hattach : attach raw_name m
                    = (m, (score raw_name m).1, (score raw_name m).2)) by done.
  assert (Hkeep : retained threshold raw_name m
                  = (score raw_name m).1
                    || Qltb threshold (score raw_name m).2) by done.
  destruct (score raw_name m) as [exact_match similarity].
  cbn [fst snd] in *.
  destruct (exact_match || Qltb threshold similarity).
  - rewrite decide_True by (by rewrite Hkeep). cbn [map]. by rewrite Hattach.
  - by rewrite decide_False by (rewrite Hkeep; exact id).
Qed.

Section Runs.
Context `{SetIteration}.
Variable manifest : list Item.

Lemma search_variants_loop_run (variants : list string) (s : State) :
  search_variants_loop manifest variants s
  = Ok (variants ≫= weapon_hits manifest, log_queries variants s).
Proof.
  revert s. induction variants as [|variant rest IH]; intros s; [done|].
  cbn [search_variants_loop]. unfold search_destiny_items, modify.
  unfold mbind at 1 2, M_bind at 1 2, mret at 1, M_ret at 1.
  unfold mbind at 1, M_bind at 1. rewrite IH. done.
Qed.

Lemma find_weapon_matches_hit (weapon_name : string) (s : State)
  (cached : list Item) :
  weapon_matches s !! weapon_name = Some cached →
  find_weapon_matches manifest weapon_name s = Ok (cached, s).
Proof.
  intros Hhit. unfold find_weapon_matches, get.
  unfold mbind at 1, M_bind at 1. by rewrite Hhit.
Qed.

Lemma find_weapon_matches_miss (weapon_name : string) (s : State) :
  weapon_matches s !! weapon_name = None →
  find_weapon_matches manifest weapon_name s
  = Ok (weapon_result manifest weapon_name,
        store_weapon_matches weapon_name (weapon_result manifest weapon_name)
          (log_queries (get_search_variants weapon_name) s)).
Proof.
  intros Hmiss. unfold find_weapon_matches, get.
  unfold mbind at 1, M_bind at 1. rewrite Hmiss.
  unfold mbind at 1, M_bind at 1. rewrite search_variants_loop_run.
  unfold mbind at 1, M_bind at 1, lift. rewrite score_loop_run. done.
Qed.

Lemma find_perk_matches_hit (perk_name : string) (s : State)
  (cached : list Item) :
  perk_matches s !! perk_name = Some cached →
  find_perk_matches manifest perk_name s = Ok (cached, s).
Proof.
  intros Hhit. unfold find_perk_matches, get.
  unfold mbind at 1, M_bind at 1. by rewrite Hhit.
Qed.

Lemma find_perk_matches_miss (perk_name : string) (s : State) :
  perk_matches s !! perk_name = None →
  find_perk_matches manifest perk_name s
  = Ok (perk_result manifest perk_name,
        store_perk_matches perk_name (perk_result manifest perk_name)
          (log_query perk_name s)).
Proof.
  intros Hmiss. unfold find_perk_matches, get.
  unfold mbind at 1, M_bind at 1. rewrite Hmiss.
  unfold search_destiny_items, modify.
  unfold mbind at 1 2, M_bind at 1 2, mret at 1, M_ret at 1.
  unfold mbind at 1, M_bind at 1, lift. rewrite score_loop_run. done.
Qed.

End Runs.
End MatcherLemmas.

(** ** The lookup cache *)

Module CacheLemmas.
Import ItemMatcher Matching MatcherFacts MatcherLemmas Cache.

Section WithCatalog.
Context `{SetIteration}.
Variable manifest : list Item.

Lemma cache_kept_refl (s : State) : cache_kept s s.
Proof. by intros ???. Qed.

Lemma cache_kept_trans (s1 s2 s3 : State) :
  cache_kept s1 s2 → cache_kept s2 s3 → cache_kept s1 s3.
Proof. intros H12 H23 ????. by apply H23, H12. Qed.

Lemma log_queries_caches (terms : list string) (s : State) :
  weapon_matches (log_queries terms s) = weapon_matches s
  ∧ perk_matches (log_queries terms s) = perk_matches s.
Proof.
  revert s. induction terms as [|term rest IH]; intros s; [done|].
  simpl. by destruct (IH (log_query term s)) as [-> ->].
Qed.

Lemma log_queries_log (terms : list string) (s : State) :
  catalog_queries (log_queries terms s) = catalog_queries s ++ terms.
Proof.
  revert s. induction terms as [|term rest IH]; intros s; simpl.
  - by rewrite app_nil_r.
  - rewrite IH. simpl. by rewrite <-app_assoc.
Qed.

(** A lookup returns, leaves its result in the cache and keeps what was
    cached. *)
Lemma findCandidates_returns (wantedClass : ItemClass) (rawName : string)
  (s : State) :
  ∃ result s',
    findCandidates manifest wantedClass rawName s = Ok (result, s')
    ∧ cache_of wantedClass s' !! rawName = Some result
    ∧ cache_kept s s'.
Proof.
  destruct (cache_of wantedClass s !! rawName) as [cached|] eqn:Hcache.
  - exists cached, s. split_and!; [|done|apply cache_kept_refl].
    destruct wantedClass; simpl in *;
      [by apply find_weapon_matches_hit|by apply find_perk_matches_hit].
  - destruct wantedClass; simpl in *.
    + eexists _, _. split; [by apply find_weapon_matches_miss|].
      split; [simpl; apply lookup_insert_eq|].
      destruct (log_queries_caches (get_search_variants rawName) s)
        as [Hweapons Hperks].
      intros [] k v; simpl; rewrite ?Hweapons, ?Hperks; [|done].
      intros Hk. rewrite lookup_insert_ne; [done|congruence].
    + eexists _, _. split; [by apply find_perk_matches_miss|].
      split; [simpl; apply lookup_insert_eq|].
      intros [] k v; simpl; [done|].
      intros Hk. rewrite lookup_insert_ne; [done|congruence].
Qed.

Lemma findCandidates_hit (wantedClass : ItemClass) (rawName : string)
  (s : State) (cached : list Item) :
  cache_of wantedClass s !! rawName = Some cached →
  findCandidates manifest wantedClass rawName s = Ok (cached, s).
Proof.
  destruct wantedClass; simpl;
    [apply find_weapon_matches_hit|apply find_perk_matches_hit].
Qed.

Lemma cache_kept_same (s s' : State) :
  weapon_matches s' = weapon_matches s →
  perk_matches s' = perk_matches s →
  cache_kept s s'.
Proof. intros Hweapons Hperks [] k v; simpl; congruence. Qed.

End WithCatalog.
End CacheLemmas.

(** ** The descending stable sort *)

Section SortDesc.

Lemma Qltb_lt (a b : Q) : Qltb a b = true ↔ (a < b)%Q.
Proof.
  unfold Qltb. rewrite Qlt_alt. by destruct (a ?= b)%Q.
Qed.

Lemma Qltb_ge (a b : Q) : Qltb a b = false ↔ (b <= a)%Q.
Proof.
  split.
  - intros Hnot. apply Qnot_lt_le. intros Hlt%Qltb_lt. congruence.
  - intros Hle. destruct (Qltb a b) eqn:Hlt; [|done].
    apply Qltb_lt in Hlt. by apply Qle_not_lt in Hle.
Qed.

Lemma key_ge_spec (k1 k2 : bool * Q) :
  key_ge k1 k2
  ↔ (k1.1 = true ∧ k2.1 = false) ∨ (k1.1 = k2.1 ∧ (k2.2 <= k1.2)%Q).
Proof.
  unfold key_ge, key_lt. destruct k1 as [[] q1], k2 as [[] q2]; simpl;
    rewrite ?Qltb_ge; naive_solver.
Qed.

Lemma key_lt_spec (k1 k2 : bool * Q) :
  key_lt k1 k2 = true
  ↔ (k1.1 = false ∧ k2.1 = true) ∨ (k1.1 = k2.1 ∧ (k1.2 < k2.2)%Q).
Proof.
  unfold key_lt. destruct k1 as [[] q1], k2 as [[] q2]; simpl;
    rewrite ?Qltb_lt; naive_solver.
Qed.

#[global] Instance key_ge_trans : Transitive key_ge.
Proof.
  intros k1 k2 k3. rewrite !key_ge_spec.
  intros [[? ?]|[? ?]] [[? ?]|[? ?]]; try (left; split; congruence).
  right. split; [congruence|]. by eapply Qle_trans.
Qed.

Lemma key_lt_ge (k1 k2 : bool * Q) : key_lt k1 k2 = true → key_ge k2 k1.
Proof.
  rewrite key_lt_spec, key_ge_spec.
  intros [[? ?]|[? ?]]; [by left|right].
  split; [done|]. by apply Qlt_le_weak.
Qed.

Lemma key_eq_ge (k1 k2 : bool * Q) :
  key_eq k1 k2 ↔ key_ge k1 k2 ∧ key_ge k2 k1.
Proof.
  unfold key_eq. rewrite !key_ge_spec. split.
  - intros [? Heq]. split; right; (split; [done|]); rewrite Heq; apply Qle_refl.
  - intros [[[? ?]|[? ?]] [[? ?]|[? ?]]]; try congruence.
    split; [done|]. by apply Qle_antisym.
Qed.

Lemma key_eq_not_lt (k1 k2 k : bool * Q) :
  key_eq k1 k → key_eq k2 k → key_lt k1 k2 = false.
Proof.
  rewrite !key_eq_ge. intros [H1 H1'] [H2 H2'].
  change (key_ge k1 k2). by trans k.
Qed.

Lemma insert_desc_perm (x : Scored) (l : list Scored) :
  insert_desc x l ≡ₚ x :: l.
Proof.
  induction l as [|y ys IH]; simpl; [done|].
  destruct (key_lt (sort_key x) (sort_key y)); [|done].
  rewrite IH. apply Permutation_swap.
Qed.

Lemma sort_desc_perm (l : list Scored) : sort_desc l ≡ₚ l.
Proof.
  induction l as [|x xs IH]; simpl; [done|].
  by rewrite insert_desc_perm, IH.
Qed.

Lemma insert_desc_sorted (x : Scored) (l : list Scored) :
  StronglySorted scored_ge l → StronglySorted scored_ge (insert_desc x l).
Proof.
  induction l as [|y ys IH]; simpl; intros Hsorted.
  - repeat constructor.
  - apply StronglySorted_cons in Hsorted as [Hall Hsorted].
    destruct (key_lt (sort_key x) (sort_key y)) eqn:Hlt.
    + apply StronglySorted_cons. split; [|by apply IH].
      rewrite insert_desc_perm. constructor; [|done].
      by apply key_lt_ge.
    + apply StronglySorted_cons. split; [|by apply StronglySorted_cons].
      constructor; [done|].
      eapply Forall_impl; [done|]. intros z Hz. unfold scored_ge in *.
      by trans (sort_key y).
Qed.

Lemma sort_desc_sorted (l : list Scored) :
  StronglySorted scored_ge (sort_desc l).
Proof.
  induction l as [|x xs IH]; simpl; [constructor|].
  by apply insert_desc_sorted.
Qed.

(** Stability: the candidates that share a key keep their order. *)
Lemma insert_desc_stable (k : bool * Q) (x : Scored) (l : list Scored) :
  filter (λ y, key_eq (sort_key y) k) (insert_desc x l)
  = filter (λ y, key_eq (sort_key y) k) (x :: l).
Proof.
  induction l as [|y ys IH]; simpl; [done|].
  destruct (key_lt (sort_key x) (sort_key y)) eqn:Hlt; [|done].
  rewrite filter_cons, IH, !filter_cons.
  destruct (decide (key_eq (sort_key x) k)) as [Hx|Hx];
    destruct (decide (key_eq (sort_key y) k)) as [Hy|Hy]; try done.
  by rewrite (key_eq_not_lt _ _ _ Hx Hy) in Hlt.
Qed.

Lemma sort_desc_stable (k : bool * Q) (l : list Scored) :
  filter (λ y, key_eq (sort_key y) k) (sort_desc l)
  = filter (λ y, key_eq (sort_key y) k) l.
Proof.
  induction l as [|x xs IH]; simpl; [done|].
  by rewrite insert_desc_stable, !filter_cons, IH.
Qed.

End SortDesc.

(** ** Ranking the candidates *)

Section Rank.
Import ItemMatcher Matching MatcherFacts.

Lemma sort_key_attach (raw_name : string) (m : Item) :
  sort_key (attach raw_name m) = score raw_name m.
Proof. unfold sort_key, attach. simpl. by destruct (score raw_name m). Qed.

Lemma extract_attach (raw_name : string) (l : list Item) :
  extract_matches (map (attach raw_name) l) = l.
Proof. induction l as [|m l IH]; simpl; [done|]. by f_equal. Qed.

Lemma attach_extract (raw_name : string) (l : list Scored) :
  Forall (well_scored raw_name) l →
  map (attach raw_name) (extract_matches l) = l.
Proof.
  induction 1 as [|x l Hx _ IH]; simpl; [done|]. by rewrite IH, <-Hx.
Qed.

Lemma sort_desc_well_scored (raw_name : string) (l : list Item) :
  Forall (well_scored raw_name) (sort_desc (map (attach raw_name) l)).
Proof.
  rewrite sort_desc_perm. apply Forall_fmap, Forall_true. by intros m.
Qed.

Lemma filter_extract (raw_name : string) (k : bool * Q) (l : list Scored) :
  Forall (well_scored raw_name) l →
  filter (λ m, key_eq (score raw_name m) k) (extract_matches l)
  = extract_matches (filter (λ x, key_eq (sort_key x) k) l).
Proof.
  induction 1 as [|x l Hx _ IH]; [done|].
  cbn [extract_matches map]. rewrite !filter_cons.
  fold (extract_matches l). rewrite IH.
  assert (Hkey : sort_key x = score raw_name x.1.1).
  { rewrite Hx at 1. apply sort_key_attach. }
  rewrite Hkey. by destruct (decide (key_eq (score raw_name x.1.1) k)).
Qed.

Variables (threshold : Q) (raw_name : string) (candidates : list Item).

Lemma rank_perm :
  rank threshold raw_name candidates ≡ₚ kept threshold raw_name candidates.
Proof.
  unfold rank, extract_matches. rewrite sort_desc_perm.
  fold (extract_matches
          (map (attach raw_name) (kept threshold raw_name candidates))).
  by rewrite extract_attach.
Qed.

Lemma elem_of_rank (m : Item) :
  m ∈ rank threshold raw_name candidates
  ↔ m ∈ candidates ∧ retained threshold raw_name m = true.
Proof.
  rewrite rank_perm. unfold kept. rewrite list_elem_of_filter.
  rewrite Is_true_true. tauto.
Qed.

Lemma rank_sorted :
  StronglySorted
    (λ a b, key_ge (score raw_name a) (score raw_name b))
    (rank threshold raw_name candidates).
Proof.
  unfold rank.
  generalize (kept threshold raw_name candidates). intros l0.
  pose proof (sort_desc_sorted (map (attach raw_name) l0)) as Hsorted.
  rewrite <-(attach_extract raw_name _ (sort_desc_well_scored raw_name l0))
    in Hsorted.
  revert Hsorted.
  generalize (extract_matches (sort_desc (map (attach raw_name) l0))).
  intros l. induction l as [|m l IH]; [constructor|].
  cbn [map]. rewrite !StronglySorted_cons, Forall_fmap.
  intros [Hall Hrest]. split; [|by apply IH].
  eapply Forall_impl; [done|]. intros b. unfold scored_ge. simpl.
  by rewrite !sort_key_attach.
Qed.

Lemma rank_stable (k : bool * Q) :
  filter (λ m, key_eq (score raw_name m) k) (rank threshold raw_name candidates)
  = filter (λ m, key_eq (score raw_name m) k)
      (kept threshold raw_name candidates).
Proof.
  unfold rank.
  rewrite (filter_extract raw_name) by apply sort_desc_well_scored.
  rewrite sort_desc_stable.
  rewrite <-(filter_extract raw_name)
    by (apply Forall_fmap, Forall_true; by intros m).
  by rewrite extract_attach.
Qed.

End Rank.

Lemma StronglySorted_lookup {A : Type} (R : relation A) (l : list A)
  (i j : nat) (a b : A) :
  StronglySorted R l → l !! i = Some a → l !! j = Some b → (i < j)%nat → R a b.
Proof.
  intros Hsorted Hi Hj Hlt.
  rewrite <-(take_drop j l) in Hsorted.
  eapply StronglySorted_app_1_elem_of; [done| |].
  - apply list_elem_of_lookup. exists i. by rewrite lookup_take_lt.
  - apply list_elem_of_lookup. exists 0%nat. by rewrite lookup_drop, Nat.add_0_r.
Qed.

(** ** What a lookup returns *)

Lemma compare_names_spec (rawName displayName : string) :
  ItemMatcher.compare_names rawName displayName
  = Ok (bool_decide (spec_exact rawName displayName),
        spec_similarity rawName displayName).
Proof.
  unfold spec_exact, spec_similarity.
  destruct (decide (ItemMatcher.normalize_name rawName
                    = ItemMatcher.normalize_name displayName)) as [Heq|Hne].
  - rewrite bool_decide_true by done. by apply compare_names_equal.
  - rewrite bool_decide_false by done.
    destruct (PyStr.contains _ _ || PyStr.contains _ _) eqn:Hin.
    + by apply compare_names_substring.
    + by apply compare_names_unrelated.
Qed.

Module LookupLemmas.
Import ItemMatcher Matching MatcherFacts MatcherLemmas Cache CacheLemmas Lookup.

Section WithCatalog.
Context `{SetIteration}.
Variable manifest : list Item.

Lemma consistent_init : consistent manifest init.
Proof. intros [] rawName cached; simpl; by rewrite lookup_empty. Qed.

Lemma findCandidates_run (wantedClass : ItemClass) (rawName : string)
  (s : State) :
  consistent manifest s →
  ∃ s', findCandidates manifest wantedClass rawName s
        = Ok (result_of manifest wantedClass rawName, s')
        ∧ consistent manifest s'.
Proof.
  intros Hcons.
  destruct (cache_of wantedClass s !! rawName) as [cached|] eqn:Hcache.
  - exists s. split; [|done].
    rewrite (findCandidates_hit manifest _ _ _ _ Hcache).
    by rewrite (Hcons _ _ _ Hcache).
  - destruct wantedClass; simpl in Hcache.
    + eexists. split; [by apply find_weapon_matches_miss|].
      destruct (log_queries_caches (get_search_variants rawName) s)
        as [Hweapons Hperks].
      intros [] k v; simpl; rewrite ?Hweapons, ?Hperks.
      * rewrite lookup_insert. case_decide as Hk.
        -- intros [= <-]. by subst k.
        -- apply (Hcons Weapon).
      * apply (Hcons Perk).
    + eexists. split; [by apply find_perk_matches_miss|].
      intros [] k v; simpl.
      * apply (Hcons Weapon).
      * rewrite lookup_insert. case_decide as Hk.
        -- intros [= <-]. by subst k.
        -- apply (Hcons Perk).
Qed.

Lemma consistent_same (s s' : State) :
  weapon_matches s' = weapon_matches s →
  perk_matches s' = perk_matches s →
  consistent manifest s → consistent manifest s'.
Proof.
  intros Hweapons Hperks Hcons [] k v; simpl; rewrite ?Hweapons, ?Hperks.
  - apply (Hcons Weapon).
  - apply (Hcons Perk).
Qed.

Lemma findCandidates_result (wantedClass : ItemClass) (rawName : string)
  (s s' : State) (result : list Item) :
  consistent manifest s →
  findCandidates manifest wantedClass rawName s = Ok (result, s') →
  result = result_of manifest wantedClass rawName.
Proof.
  intros Hcons Hrun.
  destruct (findCandidates_run wantedClass rawName s Hcons) as (s2 & Hrun2 & _).
  congruence.
Qed.

Lemma retained_spec (threshold : Q) (rawName : string) (item : Item) :
  retained threshold rawName item = true
  ↔ spec_exact rawName (name item)
    ∨ (threshold < spec_similarity rawName (name item))%Q.
Proof.
  unfold retained, score. rewrite compare_names_spec. simpl.
  rewrite orb_true_iff, bool_decide_eq_true, Qltb_lt. done.
Qed.

End WithCatalog.
End LookupLemmas.

(** C2, as stated, fails: looking up the perk name [Rapid_Hit] queries the
    catalog for [Rapid_Hit] alone and finds nothing, while its search
    variants include [rapid hit], whose query returns the perk "Rapid Hit",
    an exact match. *)
Lemma perk_lookup_skips_variants :
  ∃ s', Matching.find_perk_matches Catalogs.armory "Rapid_Hit" ItemMatcher.init
        = Ok ([], s')
        ∧ ItemMatcher.catalog_queries s' = ["Rapid_Hit"]
        ∧ (∀ order : SetIteration,
             "rapid hit" ∈ ItemMatcher.get_search_variants "Rapid_Hit")
        ∧ ("rapid hit" ∉ ItemMatcher.catalog_queries s')
        ∧ MatcherFacts.perk_hits Catalogs.armory "rapid hit"
          = [Catalogs.perk_item 1 "Rapid Hit"]
        ∧ ItemMatcher.compare_names "Rapid_Hit" "Rapid Hit" = Ok (true, 1%Q).
Proof.
  eexists. split; [vm_compute; reflexivity|]. simpl.
  split_and!; [done| |by intros [= ]%list_elem_of_singleton|done..].
  intros order. apply set_to_list_elem.
  apply (bool_decide_unpack _). by vm_compute.
Qed.

(** C2, amended.  A perk name that is not cached is searched once, under the
    raw name, and the perks among the hits of that one query are the
    candidates; the fan-out over the search variants is what a weapon name
    gets. *)
Theorem lookup_queries `{SetIteration} (manifest : list Item)
  (wantedClass : ItemClass) (rawName : string) (s : ItemMatcher.State) :
  Cache.cache_of wantedClass s !! rawName = None →
  ∃ s',
    Cache.findCandidates manifest wantedClass rawName s
    = Ok (MatcherFacts.rank (Lookup.threshold_of wantedClass) rawName
            (Lookup.candidates_of manifest wantedClass rawName), s')
    ∧ ItemMatcher.catalog_queries s'
      = ItemMatcher.catalog_queries s
        ++ match wantedClass with
           | Weapon => ItemMatcher.get_search_variants rawName
           | Perk => [rawName]
           end
    ∧ Lookup.candidates_of manifest Perk rawName
      = filter (λ item, Is_true (BungieAPI.is_perk item))
               (BungieAPI.search_results manifest rawName)
    ∧ Lookup.candidates_of manifest Weapon rawName
      = dict_values
          (dict_by_hash
             (ItemMatcher.get_search_variants rawName
              ≫= λ variant,
                   filter (λ item, Is_true (BungieAPI.is_weapon item))
                          (BungieAPI.search_results manifest variant))).
Proof.
  intros Hmiss. destruct wantedClass; simpl in Hmiss.
  - eexists. split; [by apply MatcherLemmas.find_weapon_matches_miss|].
    split_and!; [|done..]. simpl. apply CacheLemmas.log_queries_log.
  - eexists. split; [by apply MatcherLemmas.find_perk_matches_miss|].
    by split_and!.
Qed.

Lemma lookup_queries_witness :
  ∃ s',
    Cache.findCandidates (H := first_seen_order) Catalogs.armory Perk
      "Rapid_Hit" ItemMatcher.init
    = Ok (MatcherFacts.rank (Lookup.threshold_of Perk) "Rapid_Hit"
            (Lookup.candidates_of (H := first_seen_order) Catalogs.armory
               Perk "Rapid_Hit"), s')
    ∧ ItemMatcher.catalog_queries s'
      = ItemMatcher.catalog_queries ItemMatcher.init ++ ["Rapid_Hit"]
    ∧ Lookup.candidates_of (H := first_seen_order) Catalogs.armory Perk
        "Rapid_Hit"
      = filter (λ item, Is_true (BungieAPI.is_perk item))
               (BungieAPI.search_results Catalogs.armory "Rapid_Hit")
    ∧ Lookup.candidates_of (H := first_seen_order) Catalogs.armory Weapon
        "Rapid_Hit"
      = dict_values
          (dict_by_hash
             (ItemMatcher.get_search_variants (H := first_seen_order)
                "Rapid_Hit"
              ≫= λ variant,
                   filter (λ item, Is_true (BungieAPI.is_weapon item))
                          (BungieAPI.search_results Catalogs.armory variant))).
Proof.
  apply (lookup_queries (H := first_seen_order) Catalogs.armory Perk
           "Rapid_Hit" ItemMatcher.init).
  reflexivity.
Defined.

(** C6.  From a matcher whose caches hold results of this catalog, as they
    do all along a run ([WeaponMatching.run_consistent]), a candidate of a
    lookup is in the returned list exactly when the
    normalized names are equal or the similarity is above 8/10 for a weapon
    and above 9/10 for a perk; [compare_names] returns that exact-match test
    and that similarity, which is 1 on equal normalized names, the quotient
    of the shorter by the longer length when one contains the other, and 0
    otherwise. *)
Theorem retained_iff_above_threshold `{SetIteration} (manifest : list Item)
  (wantedClass : ItemClass) (rawName : string)
  (s s' : ItemMatcher.State) (result : list Item) (item : Item) :
  Lookup.consistent manifest s →
  Cache.findCandidates manifest wantedClass rawName s = Ok (result, s') →
  item ∈ Lookup.candidates_of manifest wantedClass rawName →
  let threshold := match wantedClass with
                   | Weapon => (8 # 10)%Q
                   | Perk => (9 # 10)%Q
                   end in
  ItemMatcher.compare_names rawName (name item)
  = Ok (bool_decide (spec_exact rawName (name item)),
        spec_similarity rawName (name item))
  ∧ (item ∈ result
     ↔ spec_exact rawName (name item)
       ∨ (threshold < spec_similarity rawName (name item))%Q).
Proof.
  intros Hcons Hrun Hcand threshold.
  split; [apply compare_names_spec|].
  rewrite (LookupLemmas.findCandidates_result manifest _ _ _ _ _ Hcons Hrun).
  unfold Lookup.result_of. rewrite elem_of_rank, LookupLemmas.retained_spec.
  assert (Lookup.threshold_of wantedClass = threshold) as ->
    by by destruct wantedClass.
  tauto.
Qed.

Lemma retained_iff_above_threshold_witness :
  ItemMatcher.compare_names "Fatebringer" "Fatebringer 2"
  = Ok (bool_decide (spec_exact "Fatebringer" "Fatebringer 2"),
        spec_similarity "Fatebringer" "Fatebringer 2")
  ∧ (Catalogs.weapon_item 201 "Fatebringer 2"
       ∈ [Catalogs.weapon_item 200 "Fatebringer";
          Catalogs.weapon_item 201 "Fatebringer 2"]
     ↔ spec_exact "Fatebringer" "Fatebringer 2"
       ∨ (8 # 10 < spec_similarity "Fatebringer" "Fatebringer 2")%Q).
Proof.
  eapply (retained_iff_above_threshold (H := first_seen_order)
            Catalogs.armory Weapon "Fatebringer" ItemMatcher.init _ _
            (Catalogs.weapon_item 201 "Fatebringer 2")).
  - apply LookupLemmas.consistent_init.
  - vm_compute. reflexivity.
  - apply (bool_decide_unpack _). vm_compute. exact I.
Defined.

(** C3, as stated, fails: two perks named "Outlaw", and two weapons named
    "Trustee", are exact matches with similarity 1, and the lookup returns
    each pair in the order of the catalog, the larger hash first. *)
Lemma ties_keep_catalog_order :
  (∃ s', Matching.find_perk_matches Catalogs.twins "Outlaw" ItemMatcher.init
         = Ok ([Catalogs.perk_item 20 "Outlaw";
                Catalogs.perk_item 10 "Outlaw"], s'))
  ∧ (∃ s', Matching.find_weapon_matches (H := first_seen_order) Catalogs.twins
             "Trustee" ItemMatcher.init
           = Ok ([Catalogs.weapon_item 40 "Trustee";
                  Catalogs.weapon_item 30 "Trustee"], s'))
  ∧ ItemMatcher.compare_names "Outlaw" "Outlaw" = Ok (true, 1%Q)
  ∧ ItemMatcher.compare_names "Trustee" "Trustee" = Ok (true, 1%Q)
  ∧ (hash (Catalogs.perk_item 10 "Outlaw")
     < hash (Catalogs.perk_item 20 "Outlaw"))%Z
  ∧ (hash (Catalogs.weapon_item 30 "Trustee")
     < hash (Catalogs.weapon_item 40 "Trustee"))%Z.
Proof.
  split_and!; try (eexists; vm_compute; reflexivity); done.
Qed.

(** C3, amended.  From a matcher whose caches hold results of this catalog,
    as they do all along a run ([WeaponMatching.run_consistent]), a lookup
    returns its retained candidates sorted descending by
    (exact match, similarity): every element is at least each later one,
    every exact match stands before every other candidate, and candidates
    with equal flag and equal similarity keep the order they have among the
    candidates. *)
Theorem candidates_sorted_stable `{SetIteration} (manifest : list Item)
  (wantedClass : ItemClass) (rawName : string)
  (s s' : ItemMatcher.State) (result : list Item) :
  Lookup.consistent manifest s →
  Cache.findCandidates manifest wantedClass rawName s = Ok (result, s') →
  let score := MatcherFacts.score rawName in
  let retained := MatcherFacts.retained (Lookup.threshold_of wantedClass)
                    rawName in
  (∀ item, ItemMatcher.compare_names rawName (name item) = Ok (score item))
  ∧ result ≡ₚ filter (λ item, Is_true (retained item))
                (Lookup.candidates_of manifest wantedClass rawName)
  ∧ StronglySorted (λ a b, key_ge (score a) (score b)) result
  ∧ (∀ i j a b,
       (i < j)%nat → result !! i = Some a → result !! j = Some b →
       ((score a).1 = true ∧ (score b).1 = false)
       ∨ ((score a).1 = (score b).1 ∧ ((score b).2 <= (score a).2)%Q))
  ∧ (∀ i j a b,
       result !! i = Some a → result !! j = Some b →
       (score a).1 = true → (score b).1 = false → (i < j)%nat)
  ∧ (∀ k,
       filter (λ item, key_eq (score item) k) result
       = filter (λ item, key_eq (score item) k)
           (filter (λ item, Is_true (retained item))
              (Lookup.candidates_of manifest wantedClass rawName))).
Proof.
  intros Hcons Hrun score retained.
  rewrite (LookupLemmas.findCandidates_result manifest _ _ _ _ _ Hcons Hrun).
  unfold Lookup.result_of.
  pose proof (rank_sorted (Lookup.threshold_of wantedClass) rawName
                (Lookup.candidates_of manifest wantedClass rawName)) as Hsorted.
  split_and!.
  - apply MatcherLemmas.compare_names_score.
  - apply rank_perm.
  - done.
  - intros i j a b Hlt Hi Hj. apply key_ge_spec.
    by apply (StronglySorted_lookup _ _ _ _ _ _ Hsorted Hi Hj).
  - intros i j a b Hi Hj Ha Hb.
    destruct (decide (i < j)%nat) as [|Hge]; [done|exfalso].
    destruct (decide (i = j)) as [->|Hne].
    + rewrite Hi in Hj. injection Hj as ->. congruence.
    + assert (Hji : (j < i)%nat) by lia.
      pose proof (StronglySorted_lookup _ _ _ _ _ _ Hsorted Hj Hi Hji) as Hba.
      apply key_ge_spec in Hba. fold score in Hba.
      destruct Hba as [[? ?]|[? ?]]; congruence.
  - apply rank_stable.
Qed.

Lemma candidates_sorted_stable_witness :
  let result := [Catalogs.weapon_item 200 "Fatebringer";
                 Catalogs.weapon_item 201 "Fatebringer 2"] in
  let score := MatcherFacts.score "Fatebringer" in
  let retained := MatcherFacts.retained (Lookup.threshold_of Weapon)
                    "Fatebringer" in
  (∀ item, ItemMatcher.compare_names "Fatebringer" (name item)
           = Ok (score item))
  ∧ result ≡ₚ filter (λ item, Is_true (retained item))
                (Lookup.candidates_of (H := first_seen_order)
                   Catalogs.armory Weapon "Fatebringer")
  ∧ StronglySorted (λ a b, key_ge (score a) (score b)) result
  ∧ (∀ i j a b,
       (i < j)%nat → result !! i = Some a → result !! j = Some b →
       ((score a).1 = true ∧ (score b).1 = false)
       ∨ ((score a).1 = (score b).1 ∧ ((score b).2 <= (score a).2)%Q))
  ∧ (∀ i j a b,
       result !! i = Some a → result !! j = Some b →
       (score a).1 = true → (score b).1 = false → (i < j)%nat)
  ∧ (∀ k,
       filter (λ item, key_eq (score item) k) result
       = filter (λ item, key_eq (score item) k)
           (filter (λ item, Is_true (retained item))
              (Lookup.candidates_of (H := first_seen_order)
                 Catalogs.armory Weapon "Fatebringer"))).
Proof.
  eapply (candidates_sorted_stable (H := first_seen_order)
            Catalogs.armory Weapon "Fatebringer" ItemMatcher.init).
  - apply LookupLemmas.consistent_init.
  - vm_compute. reflexivity.
Defined.

(** ** Search variants *)

Section SplitHead.

Lemma string_app_nil_l (b : string) : "" +:+ b = b.
Proof. done. Qed.

Lemma string_app_cons (c : ascii) (a b : string) :
  String c a +:+ b = String c (a +:+ b).
Proof. done. Qed.

Lemma prefix_app (pat s : string) :
  String.prefix pat s = true ↔ ∃ rest, s = pat +:+ rest.
Proof.
  revert pat. induction s as [|c s IH]; intros [|p pat]; simpl.
  - split; [by exists ""|done].
  - split; [done|]. intros [rest Hrest].
    by rewrite string_app_cons in Hrest.
  - split; [|done]. intros _. by exists (String c s).
  - destruct (ascii_dec p c) as [->|Hne].
    + rewrite IH. split; intros [rest Hrest]; exists rest.
      * by rewrite string_app_cons, <-Hrest.
      * rewrite string_app_cons in Hrest. by injection Hrest.
    + split; [done|]. intros [rest Hrest].
      rewrite string_app_cons in Hrest. by injection Hrest as ->.
Qed.

Lemma contains_split_head (pat s : string) :
  PyStr.contains pat s = true →
  ∃ rest, s = PyStr.split_head pat s +:+ pat +:+ rest.
Proof.
  induction s as [|c s IH].
  - simpl. rewrite orb_false_r. intros Hpre. rewrite Hpre.
    by apply prefix_app.
  - cbn [PyStr.contains PyStr.split_head].
    destruct (String.prefix pat (String c s)) eqn:Hpre.
    + intros _. by apply prefix_app.
    + simpl. intros [rest Hrest]%IH. exists rest.
      by rewrite string_app_cons, <-Hrest.
Qed.

Lemma split_head_leftmost (pat s pre rest : string) :
  s = pre +:+ pat +:+ rest →
  (String.length (PyStr.split_head pat s) ≤ String.length pre)%nat.
Proof.
  revert pre. induction s as [|c s IH]; intros pre Hs.
  - destruct pat; simpl; lia.
  - cbn [PyStr.split_head].
    destruct (String.prefix pat (String c s)) eqn:Hpre; [simpl; lia|].
    destruct pre as [|c' pre].
    + rewrite string_app_nil_l in Hs.
      assert (String.prefix pat (String c s) = true) as Hyes
        by (apply prefix_app; by exists rest).
      congruence.
    + rewrite string_app_cons in Hs. injection Hs as -> Hs.
      simpl. apply le_n_S. by apply IH.
Qed.

Lemma split_head_shorter (pat s : string) :
  pat ≠ "" → PyStr.contains pat s = true → PyStr.split_head pat s ≠ s.
Proof.
  intros Hpat [rest Hrest]%contains_split_head Heq.
  rewrite Heq in Hrest at 1.
  apply string_app_nonempty_r in Hrest.
  destruct pat; [done|]. by rewrite string_app_cons in Hrest.
Qed.

(** The marker the loop stops at is the first of the list that the
    lower-cased name contains. *)
Lemma base_name_loop_find (patterns : list string) (name : string) :
  ItemMatcher.base_name_loop patterns name
  = match list_find (λ p, Is_true (PyStr.contains p (PyStr.lower name)))
            patterns with
    | Some (_, pattern) => PyStr.split_head pattern name
    | None => name
    end.
Proof.
  induction patterns as [|pattern rest IH]; [done|].
  cbn [ItemMatcher.base_name_loop list_find].
  destruct (PyStr.contains pattern (PyStr.lower name)) eqn:Hin.
  - by rewrite decide_True by done.
  - rewrite decide_False by exact id.
    rewrite IH. by destruct (list_find _ rest) as [[]|].
Qed.

Lemma version_patterns_nonempty (pattern : string) :
  pattern ∈ ItemMatcher.version_patterns → pattern ≠ "".
Proof.
  unfold ItemMatcher.version_patterns. intros Hin ->.
  by apply (bool_decide_pack _) in Hin.
Qed.

End SplitHead.

(** C4, as stated, fails.  The variants of [IKELOS_SMG_v1.0.2] are the name,
    [IKELOS_SMG] and their normalized forms; [ikelos], which is its own
    normalized form, is not among them.  In [Gun ver_v2] the marker that
    occurs earliest is [" v"], at offset 3, and the text before it is [Gun];
    the loop stops at [_v], the first marker of its list, and [Gun] is no
    variant. *)
Lemma earliest_marker_not_used :
  (∀ order : SetIteration,
     "ikelos" ∉ ItemMatcher.get_search_variants "IKELOS_SMG_v1.0.2")
  ∧ ItemMatcher.normalize_name "ikelos" = "ikelos"
  ∧ (∀ (order : SetIteration) v,
       v ∈ ItemMatcher.get_search_variants "IKELOS_SMG_v1.0.2"
       ↔ v ∈ ["IKELOS_SMG_v1.0.2"; "IKELOS_SMG";
              "ikelos smg v1 0 2"; "ikelos smg"])
  ∧ PyStr.contains " v" (PyStr.lower "Gun ver_v2") = true
  ∧ PyStr.split_head " v" "Gun ver_v2" = "Gun"
  ∧ PyStr.split_head "_v" "Gun ver_v2" = "Gun ver"
  ∧ (∀ order : SetIteration,
       "Gun" ∉ ItemMatcher.get_search_variants "Gun ver_v2").
Proof.
  unfold ItemMatcher.get_search_variants.
  split_and!; try done.
  - intros order. rewrite set_to_list_elem.
    apply (bool_decide_unpack _). by vm_compute.
  - intros order v. by rewrite set_to_list_elem.
  - intros order. rewrite set_to_list_elem.
    apply (bool_decide_unpack _). by vm_compute.
Qed.

(** C4, amended.  When [pattern] is the first marker, in the order of the
    list _v, " v", "version ", _ver, " ver", .0. to .5., that the
    lower-cased name contains, and it occurs in the name as written, the
    variants are, each once, the name, the text of the name before the
    leftmost occurrence of that marker, and the normalized forms of both. *)
Theorem search_variants_of_versioned `{SetIteration} (name : string)
  (i : nat) (pattern : string) :
  list_find (λ p, Is_true (PyStr.contains p (PyStr.lower name)))
    ItemMatcher.version_patterns = Some (i, pattern) →
  PyStr.contains pattern name = true →
  let base := PyStr.split_head pattern name in
  NoDup (ItemMatcher.get_search_variants name)
  ∧ (∀ v, v ∈ ItemMatcher.get_search_variants name
          ↔ v = name ∨ v = base ∨ v = ItemMatcher.normalize_name name
            ∨ v = ItemMatcher.normalize_name base)
  ∧ (∃ rest, name = base +:+ pattern +:+ rest)
  ∧ (∀ pre rest, name = pre +:+ pattern +:+ rest →
                 (String.length base ≤ String.length pre)%nat).
Proof.
  intros Hfind Hin base.
  assert (Hpat : pattern ≠ "").
  { apply version_patterns_nonempty.
    apply list_find_Some in Hfind as [Hi _].
    by eapply list_elem_of_lookup_2. }
  split_and!.
  - apply set_to_list_NoDup.
  - intros v. unfold ItemMatcher.get_search_variants.
    rewrite set_to_list_elem. unfold ItemMatcher.variants_list.
    rewrite base_name_loop_find, Hfind. fold base.
    rewrite !bool_decide_true by by apply split_head_shorter.
    simpl. rewrite !elem_of_cons, elem_of_nil. tauto.
  - by apply contains_split_head.
  - intros pre rest. apply split_head_leftmost.
Qed.

Lemma search_variants_of_versioned_witness :
  NoDup (ItemMatcher.get_search_variants (H := first_seen_order)
           "IKELOS_SMG_v1.0.2")
  ∧ (∀ v, v ∈ ItemMatcher.get_search_variants (H := first_seen_order)
                "IKELOS_SMG_v1.0.2"
          ↔ v = "IKELOS_SMG_v1.0.2" ∨ v = "IKELOS_SMG"
            ∨ v = "ikelos smg v1 0 2" ∨ v = "ikelos smg")
  ∧ (∃ rest, "IKELOS_SMG_v1.0.2" = "IKELOS_SMG" +:+ "_v" +:+ rest)
  ∧ (∀ pre rest, "IKELOS_SMG_v1.0.2" = pre +:+ "_v" +:+ rest →
                 (String.length "IKELOS_SMG" ≤ String.length pre)%nat).
Proof.
  apply (search_variants_of_versioned (H := first_seen_order)
           "IKELOS_SMG_v1.0.2" 0 "_v").
  - reflexivity.
  - reflexivity.
Defined.

(** ** Matching a weapon *)

Module WeaponMatching.
Import ItemMatcher Matching MatcherFacts MatcherLemmas Cache CacheLemmas.
Import Lookup LookupLemmas.

Section WithCatalog.
Context `{SetIteration}.
Variable manifest : list Item.

Lemma log_queries_lookups (terms : list string) (s : State) :
  perk_lookups (log_queries terms s) = perk_lookups s.
Proof.
  revert s. induction terms as [|term rest IH]; intros s; [done|].
  simpl. by rewrite IH.
Qed.

Lemma find_perk_matches_frame (perk_name : string) (s : State) :
  ∃ perk_results s',
    find_perk_matches manifest perk_name s = Ok (perk_results, s')
    ∧ perk_lookups s' = perk_lookups s
    ∧ cache_kept s s'.
Proof.
  destruct (findCandidates_returns manifest Perk perk_name s)
    as (perk_results & s' & Hrun & _ & Hkept).
  exists perk_results, s'. split_and!; [done| |done].
  simpl in Hrun.
  destruct (perk_matches s !! perk_name) as [cached|] eqn:Hcache.
  - rewrite (find_perk_matches_hit manifest _ _ _ Hcache) in Hrun.
    by injection Hrun as <- <-.
  - rewrite (find_perk_matches_miss manifest _ _ Hcache) in Hrun.
    by injection Hrun as <- <-.
Qed.

Lemma find_weapon_matches_frame (weapon_name : string) (s : State) :
  ∃ matches s',
    find_weapon_matches manifest weapon_name s = Ok (matches, s')
    ∧ perk_lookups s' = perk_lookups s
    ∧ cache_kept s s'.
Proof.
  destruct (findCandidates_returns manifest Weapon weapon_name s)
    as (matches & s' & Hrun & _ & Hkept).
  exists matches, s'. split_and!; [done| |done].
  simpl in Hrun.
  destruct (weapon_matches s !! weapon_name) as [cached|] eqn:Hcache.
  - rewrite (find_weapon_matches_hit manifest _ _ _ Hcache) in Hrun.
    by injection Hrun as <- <-.
  - rewrite (find_weapon_matches_miss manifest _ _ Hcache) in Hrun.
    injection Hrun as <- <-. simpl. apply log_queries_lookups.
Qed.

(** One perk loop: it announces every name of its slice, in order, returns
    dicts for a sublist of them, tagged with its column, and keeps what is
    cached. *)
Lemma match_perks_loop_run (column : nat) (perks : list string)
  (s : State) :
  ∃ dicts s',
    match_perks_loop manifest column perks s = Ok (dicts, s')
    ∧ perk_lookups s' = perk_lookups s ++ map (pair column) perks
    ∧ sublist (map pd_name dicts) perks
    ∧ Forall (λ d, pd_column d = column) dicts
    ∧ cache_kept s s'.
Proof.
  revert s. induction perks as [|perk rest IH]; intros s.
  - exists [], s. split_and!; [done| |done..|apply cache_kept_refl].
    by rewrite app_nil_r.
  - cbn [match_perks_loop]. unfold modify.
    unfold mbind at 1, M_bind at 1. unfold mbind at 1, M_bind at 1.
    destruct (find_perk_matches_frame perk (log_lookup column perk s))
      as (perk_results & s1 & -> & Hlog1 & Hkept1).
    assert (Hkept : cache_kept s s1).
    { eapply cache_kept_trans; [|done]. by apply cache_kept_same. }
    destruct perk_results as [|perk_match others].
    + unfold search_destiny_items, modify.
      do 2 (unfold mbind at 1, M_bind at 1).
      unfold mret at 1, M_ret at 1. unfold mbind at 1, M_bind at 1.
      destruct (IH (add_missing_perk perk (log_query perk s1)))
        as (dicts & s2 & -> & Hlog2 & Hsub & Hcol & Hkept2).
      exists dicts, s2. split_and!; [done| |by apply sublist_cons|done|].
      * rewrite Hlog2. simpl. rewrite Hlog1. simpl.
        by rewrite <-app_assoc.
      * eapply cache_kept_trans; [done|].
        eapply cache_kept_trans; [|done]. by apply cache_kept_same.
    + unfold mbind at 1, M_bind at 1.
      destruct (IH s1) as (dicts & s2 & -> & Hlog2 & Hsub & Hcol & Hkept2).
      eexists _, s2. split_and!; [done| | | |].
      * rewrite Hlog2, Hlog1. simpl. by rewrite <-app_assoc.
      * simpl. by apply sublist_skip.
      * by constructor.
      * by eapply cache_kept_trans.
Qed.

(** [match_weapon] returns and keeps what is cached; when the weapon is not
    found no perk is looked up. *)
Lemma match_weapon_returns (weapon : SheetParser.WeaponRoll) (s : State) :
  ∃ matched s',
    match_weapon manifest weapon s = Ok (matched, s')
    ∧ (matched = None → perk_lookups s' = perk_lookups s)
    ∧ cache_kept s s'.
Proof.
  unfold match_weapon. unfold mbind at 1, M_bind at 1.
  destruct (find_weapon_matches_frame (SheetParser.name weapon) s)
    as (matches & s1 & -> & Hlog1 & Hkept1).
  destruct matches as [|weapon_match others].
  - eexists _, _. split; [done|]. split.
    + intros _. simpl. by rewrite Hlog1.
    + eapply cache_kept_trans; [done|]. by apply cache_kept_same.
  - unfold mbind at 1, M_bind at 1.
    destruct (match_perks_loop_run 1
                (take (List.length (SheetParser.perks weapon) `div` 2)
                      (SheetParser.perks weapon)) s1)
      as (column1 & s2 & -> & _ & _ & _ & Hkept2).
    unfold mbind at 1, M_bind at 1.
    destruct (match_perks_loop_run 2
                (drop (List.length (SheetParser.perks weapon) `div` 2)
                      (SheetParser.perks weapon)) s2)
      as (column2 & s3 & -> & _ & _ & _ & Hkept3).
    eexists _, _. split; [done|]. split; [by intros [=]|].
    eapply cache_kept_trans; [done|]. by eapply cache_kept_trans.
Qed.

Lemma match_weapon_found (weapon : SheetParser.WeaponRoll)
  (s s' : State) (matched : MatchedWeapon) :
  match_weapon manifest weapon s = Ok (Some matched, s') →
  let perks := SheetParser.perks weapon in
  let half := (List.length perks `div` 2)%nat in
  perk_lookups s'
  = perk_lookups s ++ map (pair 1%nat) (take half perks)
                   ++ map (pair 2%nat) (drop half perks)
  ∧ sublist (map pd_name (mw_perks_column1 matched)) (take half perks)
  ∧ sublist (map pd_name (mw_perks_column2 matched)) (drop half perks)
  ∧ Forall (λ d, pd_column d = 1%nat) (mw_perks_column1 matched)
  ∧ Forall (λ d, pd_column d = 2%nat) (mw_perks_column2 matched).
Proof.
  unfold match_weapon. unfold mbind at 1, M_bind at 1.
  destruct (find_weapon_matches_frame (SheetParser.name weapon) s)
    as (matches & s1 & -> & Hlog1 & _).
  destruct matches as [|weapon_match others]; [done|].
  unfold mbind at 1, M_bind at 1.
  destruct (match_perks_loop_run 1
              (take (List.length (SheetParser.perks weapon) `div` 2)
                    (SheetParser.perks weapon)) s1)
    as (column1 & s2 & -> & Hlog2 & Hsub1 & Hcol1 & _).
  unfold mbind at 1, M_bind at 1.
  destruct (match_perks_loop_run 2
              (drop (List.length (SheetParser.perks weapon) `div` 2)
                    (SheetParser.perks weapon)) s2)
    as (column2 & s3 & -> & Hlog3 & Hsub2 & Hcol2 & _).
  intros [= <- <-]. cbn zeta. simpl.
  split_and!; [|done..]. by rewrite Hlog3, Hlog2, Hlog1, <-app_assoc.
Qed.

(** The calls of a run keep the caches consistent with the catalog. *)
Lemma findCandidates_consistent (wantedClass : ItemClass) (rawName : string)
  (s s' : State) (result : list Item) :
  findCandidates manifest wantedClass rawName s = Ok (result, s') →
  consistent manifest s → consistent manifest s'.
Proof.
  intros Hrun Hcons.
  destruct (findCandidates_run manifest wantedClass rawName s Hcons)
    as (s2 & Hrun2 & Hcons2).
  rewrite Hrun in Hrun2. by injection Hrun2 as _ ->.
Qed.

Lemma match_perks_loop_consistent (column : nat) (perks : list string)
  (s s' : State) (dicts : list PerkDict) :
  match_perks_loop manifest column perks s = Ok (dicts, s') →
  consistent manifest s → consistent manifest s'.
Proof.
  revert s dicts. induction perks as [|perk rest IH]; intros s dicts.
  - by intros [= _ <-].
  - cbn [match_perks_loop]. unfold modify.
    unfold mbind at 1, M_bind at 1. unfold mbind at 1, M_bind at 1.
    destruct (find_perk_matches manifest perk (log_lookup column perk s))
      as [[perk_results s1]|] eqn:Hfind; [|done].
    intros Hrun Hcons.
    assert (Hcons1 : consistent manifest s1).
    { apply (findCandidates_consistent Perk perk _ _ _ Hfind).
      by apply (consistent_same manifest s). }
    destruct perk_results as [|perk_match others].
    + revert Hrun. unfold search_destiny_items, modify.
      do 2 (unfold mbind at 1, M_bind at 1).
      unfold mret at 1, M_ret at 1. unfold mbind at 1, M_bind at 1.
      intros Hrun. eapply IH; [done|].
      by apply (consistent_same manifest s1).
    + revert Hrun. unfold mbind at 1, M_bind at 1.
      destruct (match_perks_loop manifest column rest s1)
        as [[more s2]|] eqn:Hrest; [|done].
      intros [= _ <-]. by eapply IH.
Qed.

Lemma match_weapon_consistent (weapon : SheetParser.WeaponRoll)
  (s s' : State) (matched : option MatchedWeapon) :
  match_weapon manifest weapon s = Ok (matched, s') →
  consistent manifest s → consistent manifest s'.
Proof.
  unfold match_weapon. unfold mbind at 1, M_bind at 1.
  destruct (find_weapon_matches manifest (SheetParser.name weapon) s)
    as [[matches s1]|] eqn:Hfind; [|done].
  intros Hrun Hcons.
  pose proof (findCandidates_consistent Weapon _ _ _ _ Hfind Hcons) as Hcons1.
  destruct matches as [|weapon_match others].
  - injection Hrun as _ <-. by apply (consistent_same manifest s1).
  - revert Hrun. unfold mbind at 1, M_bind at 1.
    destruct (match_perks_loop manifest 1 _ s1)
      as [[column1 s2]|] eqn:Hloop1; [|done].
    unfold mbind at 1, M_bind at 1.
    destruct (match_perks_loop manifest 2 _ s2)
      as [[column2 s3]|] eqn:Hloop2; [|done].
    intros [= _ <-].
    eapply match_perks_loop_consistent; [done|].
    by eapply match_perks_loop_consistent.
Qed.

Lemma run_calls_consistent (calls : list Call) (s s' : State) :
  run_calls manifest calls s = Ok ((), s') →
  consistent manifest s → consistent manifest s'.
Proof.
  revert s. induction calls as [|call rest IH]; intros s.
  - by intros [= <-].
  - cbn [run_calls]. unfold mbind at 1, M_bind at 1.
    destruct (run_call manifest call s) as [[[] s1]|] eqn:Hcall; [|done].
    intros Hrest Hcons. eapply IH; [done|].
    destruct call as [wantedClass rawName|weapon]; unfold run_call in Hcall;
      revert Hcall; unfold mbind at 1, M_bind at 1.
    + destruct (findCandidates manifest wantedClass rawName s)
        as [[result s0]|] eqn:Hrun; [|done].
      intros [= <-]. by eapply findCandidates_consistent.
    + destruct (match_weapon manifest weapon s)
        as [[matched s0]|] eqn:Hrun; [|done].
      intros [= <-]. by eapply match_weapon_consistent.
Qed.

(** Whatever a run has done since the matcher was created, its caches are
    consistent with the catalog. *)
Lemma run_consistent (calls : list Call) (s : State) :
  run_calls manifest calls init = Ok ((), s) → consistent manifest s.
Proof.
  intros Hrun. eapply run_calls_consistent; [done|]. apply consistent_init.
Qed.

(** The calls of a run return and keep what is cached. *)
Lemma run_calls_returns (calls : list Call) (s : State) :
  ∃ s', run_calls manifest calls s = Ok ((), s') ∧ cache_kept s s'.
Proof.
  revert s. induction calls as [|call rest IH]; intros s.
  - exists s. split; [done|apply cache_kept_refl].
  - assert (∃ s1, run_call manifest call s = Ok ((), s1) ∧ cache_kept s s1)
      as (s1 & Hcall & Hkept1).
    { destruct call as [wantedClass rawName|weapon]; unfold run_call.
      - destruct (findCandidates_returns manifest wantedClass rawName s)
          as (result & s1 & Hrun & _ & Hkept).
        exists s1. split; [|done].
        unfold mbind at 1, M_bind at 1. by rewrite Hrun.
      - destruct (match_weapon_returns weapon s)
          as (matched & s1 & Hrun & _ & Hkept).
        exists s1. split; [|done].
        unfold mbind at 1, M_bind at 1. by rewrite Hrun. }
    destruct (IH s1) as (s2 & Hrest & Hkept2).
    exists s2. split; [|by eapply cache_kept_trans].
    cbn [run_calls]. unfold mbind at 1, M_bind at 1. by rewrite Hcall.
Qed.

End WithCatalog.

Lemma parse_perks_empty : SheetParser.parse_perks "" = [].
Proof. done. Qed.

Lemma parse_row_perks (name perk1 perk2 tier : string)
  (weapon : SheetParser.WeaponRoll) :
  SheetParser.parse_row name perk1 perk2 tier = Some weapon →
  SheetParser.perks weapon
  = SheetParser.parse_perks perk1 ++ SheetParser.parse_perks perk2.
Proof.
  unfold SheetParser.parse_row.
  destruct (String.eqb name "" || String.eqb tier ""); [done|].
  destruct (_ || _ || _ || _); [done|].
  case_bool_decide; [done|]. intros [= <-]. simpl.
  destruct (String.eqb_spec perk1 "") as [->|_],
           (String.eqb_spec perk2 "") as [->|_];
    rewrite ?parse_perks_empty, ?app_nil_r; done.
Qed.

End WeaponMatching.

(** C9.  A lookup returns; when the same name is looked up again for the same
    class, at once or after any further lookups and weapon matchings of the
    run, the call returns the list of the first call and leaves the matcher
    as it finds it, the log of catalog queries included.  The list of the
    first call may be empty. *)
Theorem repeated_lookup_cached `{SetIteration} (manifest : list Item)
  (wantedClass : ItemClass) (rawName : string)
  (between : list Cache.Call) (s : ItemMatcher.State) :
  ∃ result s1 s2,
    Cache.findCandidates manifest wantedClass rawName s = Ok (result, s1)
    ∧ Cache.findCandidates manifest wantedClass rawName s1 = Ok (result, s1)
    ∧ Cache.run_calls manifest between s1 = Ok ((), s2)
    ∧ Cache.findCandidates manifest wantedClass rawName s2 = Ok (result, s2).
Proof.
  destruct (CacheLemmas.findCandidates_returns manifest wantedClass rawName s)
    as (result & s1 & Hfirst & Hcached & _).
  destruct (WeaponMatching.run_calls_returns manifest between s1)
    as (s2 & Hbetween & Hkept).
  exists result, s1, s2. split_and!; [done| |done|].
  - by apply CacheLemmas.findCandidates_hit.
  - by apply CacheLemmas.findCandidates_hit, Hkept.
Qed.

(** * Further properties of the code *)

(** ** Normalized names *)

Lemma lower_char_idem (c : ascii) :
  PyStr.lower_char (PyStr.lower_char c) = PyStr.lower_char c.
Proof. destruct c as [[] [] [] [] [] [] [] []]; reflexivity. Qed.

Lemma lower_idem (s : string) : PyStr.lower (PyStr.lower s) = PyStr.lower s.
Proof.
  induction s as [|c s IH]; simpl; [done|]. by rewrite lower_char_idem, IH.
Qed.

Lemma all_chars_app (P : ascii → bool) (a b : string) :
  all_chars P (a +:+ b) = all_chars P a && all_chars P b.
Proof.
  induction a as [|c a IH]; [done|].
  rewrite string_app_cons. simpl. by rewrite IH, andb_assoc.
Qed.

Lemma all_chars_impl (P Q : ascii → bool) (s : string) :
  (∀ c, P c = true → Q c = true) →
  all_chars P s = true → all_chars Q s = true.
Proof.
  intros HPQ. induction s as [|c s IH]; simpl; [done|].
  rewrite !andb_true_iff. intros [? ?]. auto.
Qed.

Lemma all_chars_and (P Q : ascii → bool) (s : string) :
  all_chars (λ c, P c && Q c) s = all_chars P s && all_chars Q s.
Proof.
  induction s as [|c s IH]; simpl; [done|]. rewrite IH.
  destruct (P c), (Q c), (all_chars P s); done.
Qed.

Lemma all_chars_lower (s : string) :
  all_chars (λ c, Ascii.eqb (PyStr.lower_char c) c) (PyStr.lower s) = true.
Proof.
  induction s as [|c s IH]; simpl; [done|].
  by rewrite lower_char_idem, Ascii.eqb_refl.
Qed.

Lemma all_chars_replace (Q : ascii → bool) (old new : ascii) (s : string) :
  Q new = true → all_chars Q s = true →
  all_chars Q (PyStr.replace_char old new s) = true.
Proof.
  intros Hnew. induction s as [|c s IH]; simpl; [done|].
  rewrite !andb_true_iff. intros [Hc Hs]. split; [|auto].
  by destruct (Ascii.eqb c old).
Qed.

Lemma all_chars_replaced (old new : ascii) (s : string) :
  Ascii.eqb new old = false →
  all_chars (λ c, negb (Ascii.eqb c old)) (PyStr.replace_char old new s) = true.
Proof.
  intros Hne. induction s as [|c s IH]; simpl; [done|].
  rewrite IH, andb_true_r.
  destruct (Ascii.eqb c old) eqn:Hc; by rewrite ?Hne, ?Hc.
Qed.

Lemma lower_fixed (s : string) :
  all_chars (λ c, Ascii.eqb (PyStr.lower_char c) c) s = true →
  PyStr.lower s = s.
Proof.
  induction s as [|c s IH]; simpl; [done|].
  rewrite andb_true_iff. intros [Hc%Ascii.eqb_eq Hs]. by rewrite Hc, IH.
Qed.

Lemma replace_char_fixed (old new : ascii) (s : string) :
  all_chars (λ c, negb (Ascii.eqb c old)) s = true →
  PyStr.replace_char old new s = s.
Proof.
  induction s as [|c s IH]; simpl; [done|].
  rewrite andb_true_iff. intros [Hc Hs]. rewrite IH by done.
  by destruct (Ascii.eqb c old).
Qed.

Lemma unpunctuated_canonical (name : string) :
  all_chars canonical_char (unpunctuated name) = true.
Proof.
  unfold canonical_char, unpunctuated.
  rewrite !all_chars_and, !andb_true_iff. split_and!.
  - do 3 (apply all_chars_replace; [done|]). apply all_chars_lower.
  - do 2 (apply all_chars_replace; [done|]). by apply all_chars_replaced.
  - apply all_chars_replace; [done|]. by apply all_chars_replaced.
  - by apply all_chars_replaced.
Qed.

Lemma split_ws_go_words (cur s : string) :
  all_chars word_char cur = true →
  all_chars canonical_char s = true →
  Forall is_word (PyStr.split_ws_go cur s).
Proof.
  revert cur. induction s as [|c s IH]; intros cur Hcur; simpl.
  - intros _. destruct (String.eqb_spec cur ""); [constructor|].
    by repeat constructor.
  - rewrite andb_true_iff. intros [Hc Hs].
    destruct (PyStr.is_space c) eqn:Hspace.
    + destruct (String.eqb_spec cur ""); [by apply IH|].
      constructor; [done|by apply IH].
    + apply IH; [|done]. rewrite all_chars_app, Hcur. simpl.
      unfold word_char. by rewrite Hc, Hspace.
Qed.

Lemma normalize_words (name : string) :
  Forall is_word (PyStr.split_ws (unpunctuated name)).
Proof. apply split_ws_go_words; [done|apply unpunctuated_canonical]. Qed.

Lemma string_app_nil_r (a : string) : a +:+ "" = a.
Proof. induction a as [|c a IH]; [done|]. by rewrite string_app_cons, IH. Qed.

Lemma string_app_snoc (a b : string) (c : ascii) :
  (a +:+ String c "") +:+ b = a +:+ String c b.
Proof.
  induction a as [|x a IH]; [done|]. by rewrite !string_app_cons, IH.
Qed.

Lemma split_ws_go_word (cur w rest : string) :
  all_chars word_char w = true →
  PyStr.split_ws_go cur (w +:+ rest) = PyStr.split_ws_go (cur +:+ w) rest.
Proof.
  revert cur. induction w as [|c w IH]; intros cur.
  - intros _. by rewrite string_app_nil_l, string_app_nil_r.
  - simpl. rewrite andb_true_iff. intros [Hc Hw].
    unfold word_char in Hc. apply andb_true_iff in Hc as [_ Hc].
    apply negb_true_iff in Hc. by rewrite Hc, IH, string_app_snoc.
Qed.

Lemma split_ws_go_space (cur s : string) (c : ascii) :
  PyStr.is_space c = true → cur ≠ "" →
  PyStr.split_ws_go cur (String c s) = cur :: PyStr.split_ws_go "" s.
Proof. intros Hc Hcur. simpl. rewrite Hc. by destruct (String.eqb_spec cur ""). Qed.

Lemma split_ws_join (ws : list string) :
  Forall is_word ws → PyStr.split_ws (PyStr.join " " ws) = ws.
Proof.
  unfold PyStr.split_ws. induction 1 as [|w ws [Hne Hw] Hws IH]; [done|].
  destruct ws as [|w' ws].
  - simpl. rewrite <-(string_app_nil_r w) at 1.
    rewrite split_ws_go_word, string_app_nil_l by done. simpl.
    by destruct (String.eqb_spec w "").
  - change (PyStr.join " " (w :: w' :: ws))
      with (w +:+ String " " (PyStr.join " " (w' :: ws))).
    rewrite split_ws_go_word, string_app_nil_l by done.
    by rewrite split_ws_go_space, IH.
Qed.

Lemma all_chars_join (Q : ascii → bool) (ws : list string) :
  Q " "%char = true →
  Forall (λ w, all_chars Q w = true) ws →
  all_chars Q (PyStr.join " " ws) = true.
Proof.
  intros Hsp. induction 1 as [|w ws Hw Hws IH]; [done|].
  destruct ws as [|w' ws]; [done|].
  change (PyStr.join " " (w :: w' :: ws))
    with (w +:+ " " +:+ PyStr.join " " (w' :: ws)).
  rewrite !all_chars_app, Hw, IH. simpl. by rewrite Hsp.
Qed.

Lemma normalize_name_unfold (name : string) :
  ItemMatcher.normalize_name name
  = PyStr.join " " (PyStr.split_ws (unpunctuated name)).
Proof. done. Qed.

Lemma normalized_canonical (name : string) :
  all_chars canonical_char (ItemMatcher.normalize_name name) = true.
Proof.
  rewrite normalize_name_unfold. apply all_chars_join; [done|].
  eapply Forall_impl; [apply normalize_words|].
  intros w [_ Hw]. eapply all_chars_impl; [|done].
  unfold word_char. by intros c [? _]%andb_true_iff.
Qed.

Lemma normalize_name_idem (name : string) :
  ItemMatcher.normalize_name (ItemMatcher.normalize_name name)
  = ItemMatcher.normalize_name name.
Proof.
  set (t := ItemMatcher.normalize_name name).
  assert (Hcanon : all_chars canonical_char t = true)
    by apply normalized_canonical.
  unfold canonical_char in Hcanon.
  rewrite !all_chars_and, !andb_true_iff in Hcanon.
  destruct Hcanon as [[[Hlow Hund] Hhyp] Hdot].
  assert (Hpre : unpunctuated t = t).
  { unfold unpunctuated. rewrite (lower_fixed t Hlow).
    by rewrite (replace_char_fixed "_" " " t Hund),
      (replace_char_fixed "-" " " t Hhyp), (replace_char_fixed "." " " t Hdot). }
  rewrite normalize_name_unfold, Hpre. unfold t at 1.
  rewrite normalize_name_unfold, split_ws_join by apply normalize_words.
  done.
Qed.

(** X1.  Normalizing a normalized name changes nothing; a normalized name has
    no upper-case letter, no underscore, hyphen or full stop, and is made
    of non-empty words without white space, separated by single spaces. *)
Theorem normalize_name_idempotent (name : string) :
  let normalized := ItemMatcher.normalize_name name in
  ItemMatcher.normalize_name normalized = normalized
  ∧ all_chars canonical_char normalized = true
  ∧ ∃ words, normalized = PyStr.join " " words ∧ Forall is_word words.
Proof.
  split_and!.
  - apply normalize_name_idem.
  - apply normalized_canonical.
  - eexists. split; [apply normalize_name_unfold|apply normalize_words].
Qed.

(** ** Containment and the similarity score *)

Lemma string_length_app (a b : string) :
  String.length (a +:+ b) = (String.length a + String.length b)%nat.
Proof.
  induction a as [|c a IH]; [done|]. rewrite string_app_cons. simpl. by rewrite IH.
Qed.

Lemma string_app_assoc (a b c : string) : (a +:+ b) +:+ c = a +:+ b +:+ c.
Proof.
  induction a as [|x a IH]; [done|]. by rewrite !string_app_cons, IH.
Qed.

Lemma contains_unfold (pat s : string) :
  PyStr.contains pat s
  = String.prefix pat s
    || match s with
       | EmptyString => false
       | String _ s' => PyStr.contains pat s'
       end.
Proof. by destruct s. Qed.

Lemma contains_app (pat s : string) :
  PyStr.contains pat s = true ↔ ∃ pre rest, s = pre +:+ pat +:+ rest.
Proof.
  split.
  - intros Hin. destruct (contains_split_head pat s Hin) as [rest Hs]. eauto.
  - intros (pre & rest & ->). induction pre as [|c pre IH].
    + rewrite string_app_nil_l.
      assert (Hp : String.prefix pat (pat +:+ rest) = true)
        by (apply prefix_app; eauto).
      by rewrite contains_unfold, Hp.
    + rewrite string_app_cons, contains_unfold, IH. apply orb_true_r.
Qed.

Lemma contains_refl (s : string) : PyStr.contains s s = true.
Proof.
  apply contains_app. exists "", "".
  by rewrite string_app_nil_l, string_app_nil_r.
Qed.

Lemma contains_empty (s : string) : PyStr.contains "" s = true.
Proof. apply contains_app. exists "", s. by rewrite !string_app_nil_l. Qed.

Lemma contains_trans (a b c : string) :
  PyStr.contains a b = true → PyStr.contains b c = true →
  PyStr.contains a c = true.
Proof.
  rewrite !contains_app. intros (p1 & r1 & ->) (p2 & r2 & ->).
  exists (p2 +:+ p1), (r1 +:+ r2). by rewrite !string_app_assoc.
Qed.

Lemma contains_length (pat s : string) :
  PyStr.contains pat s = true → (String.length pat ≤ String.length s)%nat.
Proof.
  rewrite contains_app. intros (pre & rest & ->).
  rewrite !string_length_app. lia.
Qed.

Lemma contains_same_length (pat s : string) :
  PyStr.contains pat s = true → String.length pat = String.length s → pat = s.
Proof.
  rewrite contains_app. intros (pre & rest & ->).
  rewrite !string_length_app. intros Hlen.
  assert (String.length pre = 0%nat) as ->%string_length_0 by lia.
  assert (String.length rest = 0%nat) as ->%string_length_0 by lia.
  by rewrite string_app_nil_l, string_app_nil_r.
Qed.

Lemma lower_app (a b : string) :
  PyStr.lower (a +:+ b) = PyStr.lower a +:+ PyStr.lower b.
Proof.
  induction a as [|c a IH]; [done|]. rewrite !string_app_cons. simpl.
  by rewrite string_app_cons, IH.
Qed.

Lemma contains_lower (a b : string) :
  PyStr.contains a b = true →
  PyStr.contains (PyStr.lower a) (PyStr.lower b) = true.
Proof.
  rewrite !contains_app. intros (pre & rest & ->).
  exists (PyStr.lower pre), (PyStr.lower rest). by rewrite !lower_app.
Qed.

Section CompareFacts.
Import ItemMatcher.

(** X2.  [compare_names] does not depend on the order of its two arguments. *)
Theorem compare_names_symmetric (name1 name2 : string) :
  compare_names name1 name2 = compare_names name2 name1.
Proof.
  unfold compare_names.
  rewrite (String.eqb_sym (normalize_name name2) (normalize_name name1)).
  rewrite (orb_comm (PyStr.contains (normalize_name name2) _)).
  by rewrite (Nat.min_comm (String.length (normalize_name name2))),
    (Nat.max_comm (String.length (normalize_name name2))).
Qed.

Lemma ratio_range (m n : nat) :
  (m < n)%nat →
  (0 <= Z.of_nat m # Pos.of_nat n)%Q ∧ (Z.of_nat m # Pos.of_nat n < 1)%Q.
Proof.
  intros Hlt. unfold Qle, Qlt. simpl. split; [lia|].
  destruct n as [|n]; [lia|]. rewrite <-Pos.of_nat_succ. lia.
Qed.

Lemma ratio_pos (m n : nat) :
  (0 < Z.of_nat m # Pos.of_nat n)%Q ↔ (0 < m)%nat.
Proof. unfold Qlt. simpl. lia. Qed.

(** X3.  [compare_names] returns a similarity between 0 and 1; the match is
    exact just when the normalized names are equal, and the similarity is
    1 just when the match is exact; a positive similarity without an exact
    match means that both normalized names are non-empty and one of them
    is contained in the other. *)
Theorem compare_names_range (name1 name2 : string) :
  ∃ exact_match similarity,
    compare_names name1 name2 = Ok (exact_match, similarity)
    ∧ (0 <= similarity)%Q ∧ (similarity <= 1)%Q
    ∧ (exact_match = true ↔ normalize_name name1 = normalize_name name2)
    ∧ ((similarity == 1)%Q ↔ exact_match = true)
    ∧ ((0 < similarity)%Q → exact_match = false →
       normalize_name name1 ≠ "" ∧ normalize_name name2 ≠ ""
       ∧ (PyStr.contains (normalize_name name1) (normalize_name name2) = true
          ∨ PyStr.contains (normalize_name name2) (normalize_name name1) = true)).
Proof.
  set (norm1 := normalize_name name1). set (norm2 := normalize_name name2).
  destruct (decide (norm1 = norm2)) as [Heq|Hne].
  - exists true, 1%Q. rewrite compare_names_equal by done.
    split_and!; try done.
  - destruct (PyStr.contains norm1 norm2 || PyStr.contains norm2 norm1)
      eqn:Hin.
    + eexists false, _. rewrite compare_names_substring by done.
      fold norm1 norm2.
      assert (Hlen : String.length norm1 ≠ String.length norm2).
      { intros Hlen. apply orb_true_iff in Hin as [Hin|Hin].
        - by apply Hne, contains_same_length.
        - symmetry in Hlen. by apply Hne; symmetry; apply contains_same_length. }
      destruct (ratio_range
                  (Nat.min (String.length norm1) (String.length norm2))
                  (Nat.max (String.length norm1) (String.length norm2)))
        as [Hge Hlt]; [lia|].
      split_and!.
      * done.
      * done.
      * by apply Qlt_le_weak.
      * done.
      * split; [|done]. intros Heq. rewrite Heq in Hlt.
        by apply Qlt_irrefl in Hlt.
      * intros Hpos%ratio_pos _. split_and!.
        -- intros Hnil. rewrite Hnil in Hpos. simpl in Hpos. lia.
        -- intros Hnil. rewrite Hnil in Hpos. simpl in Hpos. lia.
        -- by apply orb_true_iff.
    + exists false, 0%Q. rewrite compare_names_unrelated by done.
      split_and!; done.
Qed.


End CompareFacts.

(** ** Search variants, whatever the order *)

Section Variants.
Import ItemMatcher.

Lemma split_head_unfold (pat s : string) :
  PyStr.split_head pat s
  = if String.prefix pat s then ""
    else match s with
         | EmptyString => ""
         | String c s' => String c (PyStr.split_head pat s')
         end.
Proof. by destruct s. Qed.

Lemma split_head_prefix (pat s : string) :
  ∃ rest, s = PyStr.split_head pat s +:+ rest.
Proof.
  induction s as [|c s [rest IH]]; rewrite split_head_unfold.
  - exists "". by destruct (String.prefix pat "").
  - destruct (String.prefix pat (String c s)).
    + exists (String c s). by rewrite string_app_nil_l.
    + exists rest. by rewrite string_app_cons, <-IH.
Qed.

Lemma base_name_loop_prefix (patterns : list string) (name : string) :
  ∃ rest, name = base_name_loop patterns name +:+ rest.
Proof.
  induction patterns as [|pattern patterns IH]; simpl.
  - exists "". by rewrite string_app_nil_r.
  - destruct (PyStr.contains pattern (PyStr.lower name)); [|done].
    apply split_head_prefix.
Qed.

Lemma elem_of_variants_list (name v : string) :
  v ∈ variants_list name
  ↔ v = name ∨ v = normalize_name name
    ∨ (base_name_loop version_patterns name ≠ name
       ∧ (v = base_name_loop version_patterns name
          ∨ v = normalize_name (base_name_loop version_patterns name))).
Proof.
  unfold variants_list. case_bool_decide as Hbase.
  - rewrite !elem_of_app, !list_elem_of_singleton. naive_solver.
  - rewrite !elem_of_app, !list_elem_of_singleton. naive_solver.
Qed.

Lemma variants_list_length (name : string) :
  (List.length (variants_list name) ≤ 4)%nat.
Proof.
  unfold variants_list. case_bool_decide; rewrite ?length_app; simpl; lia.
Qed.

(** X5.  Whatever the iteration order of the set, the search variants of a name
    hold the name itself and its normalized form, hold no variant twice,
    are between one and four, and each of them is a prefix of the name or
    the normalized form of a prefix of the name. *)
Theorem search_variants_basic `{SetIteration} (name : string) :
  let variants := get_search_variants name in
  name ∈ variants
  ∧ normalize_name name ∈ variants
  ∧ NoDup variants
  ∧ (1 ≤ List.length variants ≤ 4)%nat
  ∧ ∀ v, v ∈ variants →
         ∃ base rest, name = base +:+ rest
                      ∧ (v = base ∨ v = normalize_name base).
Proof.
  unfold get_search_variants. split_and!.
  - apply set_to_list_elem, elem_of_variants_list. by left.
  - apply set_to_list_elem, elem_of_variants_list. by right; left.
  - apply set_to_list_NoDup.
  - assert (Hin : name ∈ set_to_list (variants_list name))
      by (apply set_to_list_elem, elem_of_variants_list; by left).
    destruct (set_to_list (variants_list name)); [by apply elem_of_nil in Hin|].
    simpl. lia.
  - etrans; [|apply variants_list_length].
    apply submseteq_length, NoDup_submseteq; [apply set_to_list_NoDup|].
    intros v. apply set_to_list_elem.
  - intros v [->|[->|[_ [->| ->]]]]%set_to_list_elem%elem_of_variants_list.
    + exists name, "". rewrite string_app_nil_r. auto.
    + exists name, "". rewrite string_app_nil_r. auto.
    + destruct (base_name_loop_prefix version_patterns name) as [rest Hrest].
      eauto.
    + destruct (base_name_loop_prefix version_patterns name) as [rest Hrest].
      eauto.
Qed.

Lemma base_name_loop_none (patterns : list string) (name : string) :
  Forall (λ p, PyStr.contains p (PyStr.lower name) = false) patterns →
  base_name_loop patterns name = name.
Proof. induction 1 as [|p ps Hp _ IH]; simpl; [done|]. by rewrite Hp. Qed.

(** X6.  A name whose lower-cased form holds none of the version markers has
    the name itself and its normalized form as its only search variants,
    a single variant when the name is already normalized. *)
Theorem search_variants_unversioned `{SetIteration} (name : string) :
  Forall (λ p, PyStr.contains p (PyStr.lower name) = false) version_patterns →
  (∀ v, v ∈ get_search_variants name ↔ v = name ∨ v = normalize_name name)
  ∧ (List.length (get_search_variants name) ≤ 2)%nat
  ∧ (normalize_name name = name → get_search_variants name = [name]).
Proof.
  intros Hnone%base_name_loop_none.
  assert (Hlist : variants_list name = [name; normalize_name name]).
  { unfold variants_list. by rewrite Hnone, bool_decide_false by auto. }
  assert (Hin : ∀ v, v ∈ get_search_variants name
                     ↔ v = name ∨ v = normalize_name name).
  { intros v. unfold get_search_variants.
    rewrite set_to_list_elem, Hlist, elem_of_cons, list_elem_of_singleton.
    done. }
  split_and!; [done| |].
  - unfold get_search_variants. rewrite Hlist.
    change 2%nat with (List.length [name; normalize_name name]).
    apply submseteq_length, NoDup_submseteq; [apply set_to_list_NoDup|].
    intros v. apply set_to_list_elem.
  - intros Hnorm.
    assert (Hname : name ∈ get_search_variants name) by (apply Hin; auto).
    assert (Hdup : NoDup (get_search_variants name))
      by apply set_to_list_NoDup.
    destruct (get_search_variants name) as [|v1 [|v2 vs]].
    + by apply elem_of_nil in Hname.
    + by apply list_elem_of_singleton in Hname as ->.
    + assert (v1 = name) as ->.
      { destruct (Hin v1) as [[->| ->] _]; [left| |]; done. }
      assert (v2 = name) as ->.
      { destruct (Hin v2) as [[->| ->] _]; [right; left| |]; done. }
      apply NoDup_cons in Hdup as [Hnotin _]. destruct Hnotin. left.
Qed.

(** X6, on an example. *)
Lemma search_variants_unversioned_witness :
  (∀ v, v ∈ get_search_variants (H := first_seen_order) "The-Recluse"
        ↔ v = "The-Recluse" ∨ v = normalize_name "The-Recluse")
  ∧ (List.length (get_search_variants (H := first_seen_order) "The-Recluse")
     ≤ 2)%nat
  ∧ (normalize_name "The-Recluse" = "The-Recluse" →
     get_search_variants (H := first_seen_order) "The-Recluse"
     = ["The-Recluse"]).
Proof.
  apply (search_variants_unversioned (H := first_seen_order) "The-Recluse").
  by vm_compute; repeat constructor.
Defined.

End Variants.

(** ** The catalog search and the weapon test *)

Section Catalog.
Import BungieAPI.

Lemma elem_of_search_results (manifest : list Item) (term : string)
  (item : Item) :
  item ∈ search_results manifest term
  ↔ item ∈ manifest
    ∧ PyStr.contains (PyStr.lower term) (PyStr.lower (name item)) = true.
Proof.
  unfold search_results. rewrite list_elem_of_filter, Is_true_true. tauto.
Qed.

(** X7.  The catalog search is insensitive to the case of the term, and the
    empty term returns the whole snapshot. *)
Theorem search_results_term (manifest : list Item) (term : string) :
  search_results manifest (PyStr.lower term) = search_results manifest term
  ∧ search_results manifest "" = manifest.
Proof.
  unfold search_results. split; [by rewrite lower_idem|].
  induction manifest as [|item manifest IH]; [done|].
  rewrite filter_cons, decide_True, IH; [done|].
  apply Is_true_true, contains_empty.
Qed.

(** X8.  A term that contains another, as written, finds a part of what the
    shorter term finds: searching the longer term in the results of the
    shorter one is searching it in the snapshot, and each result list is a
    sub-list of the snapshot in the snapshot's order. *)
Theorem search_results_refine (manifest : list Item) (term longer : string) :
  PyStr.contains term longer = true →
  search_results manifest longer
  = search_results (search_results manifest term) longer
  ∧ sublist (search_results manifest longer) (search_results manifest term)
  ∧ sublist (search_results manifest term) manifest.
Proof.
  intros Hin%contains_lower. unfold search_results. split_and!.
  - rewrite list_filter_filter. apply list_filter_iff. intros item.
    rewrite !Is_true_true. split; [|tauto]. intros Hitem. split; [done|].
    by eapply contains_trans.
  - induction manifest as [|item manifest IH]; [done|].
    rewrite !filter_cons.
    destruct (decide (Is_true (PyStr.contains (PyStr.lower longer)
                                 (PyStr.lower (name item))))) as [Hl|Hl].
    + rewrite decide_True.
      * by apply sublist_skip.
      * apply Is_true_true. apply Is_true_true in Hl. by eapply contains_trans.
    + destruct (decide _); [by apply sublist_cons|done].
  - apply sublist_filter.
Qed.

(** X8, on an example. *)
Lemma search_results_refine_witness :
  search_results Catalogs.armory "Fatebringer 2"
  = search_results (search_results Catalogs.armory "Fatebringer")
      "Fatebringer 2"
  ∧ sublist (search_results Catalogs.armory "Fatebringer 2")
            (search_results Catalogs.armory "Fatebringer")
  ∧ sublist (search_results Catalogs.armory "Fatebringer") Catalogs.armory.
Proof. apply search_results_refine. by vm_compute. Defined.

Lemma weapon_subtypes_range (st : Z) :
  existsb (λ kv, Z.eqb kv.1 st) weapon_subtypes = known_subtype st.
Proof.
  unfold known_subtype.
  destruct (decide (6 ≤ st ≤ 55)%Z) as [Hin|Hout].
  - assert (Hst : st ∈ (λ i, 6 + Z.of_nat i)%Z <$> seq 0 50).
    { apply list_elem_of_fmap. exists (Z.to_nat (st - 6)). split; [lia|].
      apply elem_of_seq. lia. }
    clear Hin. revert st Hst. apply Forall_forall. by vm_compute; repeat constructor.
  - trans false.
    + apply not_true_is_false. intros Hex%existsb_exists.
      destruct Hex as (kv & Hkv%list_elem_of_In & Heq%Z.eqb_eq).
      assert (Hrange : (6 ≤ kv.1 ≤ 55)%Z); [|lia].
      clear Heq Hout. revert kv Hkv. apply Forall_forall.
      unfold weapon_subtypes.
      repeat (constructor; [simpl; lia|]). constructor.
    + symmetry. apply not_true_is_false.
      rewrite orb_true_iff, !andb_true_iff, !Z.leb_le. lia.
Qed.

Lemma any_in_true (keywords : list string) (text : string) :
  any_in keywords text = true
  ↔ ∃ k, k ∈ keywords ∧ PyStr.contains k text = true.
Proof.
  unfold any_in. rewrite existsb_exists.
  setoid_rewrite list_elem_of_In. done.
Qed.

Lemma table_names_keywords (type_name : string) :
  type_name ∈ map (λ kv, PyStr.lower kv.2) weapon_subtypes →
  PyStr.contains "machine gun" type_name = true
  ∨ any_in weapon_keywords type_name = true.
Proof.
  revert type_name. apply Forall_forall.
  unfold weapon_subtypes.
  repeat (constructor; [vm_compute; auto|]). constructor.
Qed.

(** X9.  [is_weapon] accepts an item exactly when its type display name,
    lower-cased, contains one of the eight weapon keywords, or the item
    has [itemType] 3 and either a sub-type from 6 to 14 or from 17 to 55
    or a type display name that contains [machine gun]: of the table's
    type names only the machine guns are not caught by a keyword. *)
Theorem is_weapon_spec (item : Item) :
  let display_name := PyStr.lower (default "" (itemTypeDisplayName item)) in
  is_weapon item = true
  ↔ any_in weapon_keywords display_name = true
    ∨ (itemType item = Some 3%Z
       ∧ ((∃ st, itemSubType item = Some st
                 ∧ ((6 ≤ st ≤ 14)%Z ∨ (17 ≤ st ≤ 55)%Z))
          ∨ PyStr.contains "machine gun" display_name = true)).
Proof.
  intros display_name. unfold is_weapon. fold display_name.
  rewrite !orb_true_iff, andb_true_iff, orb_true_iff, bool_decide_eq_true.
  assert (Hsub : match itemSubType item with
                 | Some st => existsb (λ kv, Z.eqb kv.1 st) weapon_subtypes
                 | None => false
                 end = true
                 ↔ ∃ st, itemSubType item = Some st
                         ∧ ((6 ≤ st ≤ 14)%Z ∨ (17 ≤ st ≤ 55)%Z)).
  { destruct (itemSubType item) as [st|]; [|naive_solver].
    rewrite weapon_subtypes_range. unfold known_subtype.
    split.
    - intros Hst. exists st. split; [done|lia].
    - intros (? & [= <-] & Hst). lia. }
  rewrite Hsub. split.
  - intros [[Htype [Hst|Htable]]|Hkey]; [naive_solver| |by left].
    apply any_in_true in Htable as (type_name & Hname & Hin).
    destruct (table_names_keywords type_name Hname) as [Hmg|Hkey].
    + right. split; [done|]. right. by eapply contains_trans.
    + left. apply any_in_true in Hkey as (k & Hk & Hkin).
      apply any_in_true. exists k. split; [done|]. by eapply contains_trans.
  - intros [Hkey|[Htype [Hst|Hmg]]]; [by right|naive_solver|].
    left. split; [done|]. right. apply any_in_true.
    exists "machine gun". split; [|done].
    apply (bool_decide_unpack _). by vm_compute.
Qed.

End Catalog.

(** ** Removing repeated hashes *)

Section DictByHash.

Lemma dict_set_keys {V : Type} (k : Z) (v : V) (d : list (Z * V)) :
  map fst (dict_set k v d)
  = if decide (k ∈ map fst d) then map fst d else map fst d ++ [k].
Proof.
  induction d as [|[k' v'] d IH]; simpl; [done|].
  destruct (Z.eqb_spec k k') as [->|Hne].
  - simpl. rewrite decide_True; [done|]. left.
  - simpl. rewrite IH. destruct (decide (k ∈ map fst d)) as [Hin|Hout].
    + rewrite decide_True; [done|]. by right.
    + rewrite decide_False; [done|].
      intros [?|?]%elem_of_cons; [done|]. by apply Hout.
Qed.

Lemma elem_of_dict_set {V : Type} (k : Z) (v : V) (d : list (Z * V))
  (kv : Z * V) :
  kv ∈ dict_set k v d → kv = (k, v) ∨ kv ∈ d.
Proof.
  induction d as [|[k' v'] d IH]; simpl.
  - intros ->%list_elem_of_singleton. by left.
  - destruct (Z.eqb k k').
    + intros [->|?]%elem_of_cons; [by left|]. right. by right.
    + intros [->|Hin]%elem_of_cons; [right; left|].
      destruct (IH Hin) as [->|?]; [by left|]. right. by right.
Qed.

Lemma dict_set_fresh {V : Type} (k : Z) (v : V) (d : list (Z * V)) :
  k ∉ map fst d → dict_set k v d = d ++ [(k, v)].
Proof.
  induction d as [|[k' v'] d IH]; simpl; [done|].
  intros Hout. destruct (Z.eqb_spec k k') as [->|Hne].
  - destruct Hout. left.
  - rewrite IH; [done|]. intros Hin. apply Hout. by right.
Qed.

Lemma dict_fold_NoDup (ms : list Item) (d : list (Z * Item)) :
  NoDup (map fst d) → NoDup (map fst (dict_fold ms d)).
Proof.
  revert d. induction ms as [|m ms IH]; intros d Hd; [done|].
  apply IH. rewrite dict_set_keys. destruct (decide _); [done|].
  apply NoDup_app. split_and!; [done| |apply NoDup_singleton].
  by intros k Hk ->%list_elem_of_singleton.
Qed.

Lemma elem_of_dict_fold (ms : list Item) (d : list (Z * Item))
  (kv : Z * Item) :
  kv ∈ dict_fold ms d → kv ∈ d ∨ (kv.2 ∈ ms ∧ kv.1 = hash kv.2).
Proof.
  revert d. induction ms as [|m ms IH]; intros d; [by left|].
  intros [[->|Hin]%elem_of_dict_set|[Hin ?]]%IH.
  - right. split; [left|done].
  - by left.
  - right. split; [by right|done].
Qed.

Lemma dict_fold_keys (ms : list Item) (d : list (Z * Item)) (k : Z) :
  k ∈ map fst d ∨ k ∈ map hash ms → k ∈ map fst (dict_fold ms d).
Proof.
  revert d. induction ms as [|m ms IH]; intros d.
  - intros [?|Hin]; [done|]. by apply elem_of_nil in Hin.
  - intros Hk. apply IH. rewrite dict_set_keys.
    destruct (decide (hash m ∈ map fst d)) as [Hin|Hout].
    + destruct Hk as [?|[->|?]%elem_of_cons]; auto.
    + rewrite elem_of_app, list_elem_of_singleton.
      destruct Hk as [?|[->|?]%elem_of_cons]; auto.
Qed.

Lemma dict_fold_fresh (ms : list Item) (d : list (Z * Item)) :
  NoDup (map fst d ++ map hash ms) →
  dict_fold ms d = d ++ map (λ m, (hash m, m)) ms.
Proof.
  revert d. induction ms as [|m ms IH]; intros d Hd; simpl.
  - by rewrite app_nil_r.
  - assert (Hout : hash m ∉ map fst d).
    { apply NoDup_app in Hd as (_ & Hd & _). intros Hin.
      apply (Hd _ Hin). left. }
    unfold dict_fold. simpl. fold (dict_fold ms (dict_set (hash m) m d)).
    rewrite dict_set_fresh by done. rewrite IH.
    + by rewrite <-app_assoc.
    + rewrite map_app. simpl. by rewrite <-app_assoc.
Qed.

Lemma dict_values_hash (ms : list Item) :
  map hash (dict_values (dict_by_hash ms)) = map fst (dict_by_hash ms).
Proof.
  unfold dict_values. rewrite map_map. apply map_ext_in.
  intros kv Hkv%list_elem_of_In%elem_of_dict_fold.
  destruct Hkv as [Hkv|[_ ->]]; [by apply elem_of_nil in Hkv|done].
Qed.

Lemma dict_by_hash_spec (ms : list Item) :
  let unique_matches := dict_values (dict_by_hash ms) in
  NoDup (map hash unique_matches)
  ∧ (∀ m, m ∈ unique_matches → m ∈ ms)
  ∧ (∀ h, h ∈ map hash unique_matches ↔ h ∈ map hash ms)
  ∧ (NoDup (map hash ms) → unique_matches = ms).
Proof.
  cbn zeta. rewrite dict_values_hash. split_and!.
  - apply dict_fold_NoDup. constructor.
  - unfold dict_values. intros m ([k m'] & -> & Hin)%list_elem_of_fmap.
    apply elem_of_dict_fold in Hin as [Hin|[Hin _]]; [|done].
    by apply elem_of_nil in Hin.
  - intros h. split.
    + intros ([k m] & -> & Hin)%list_elem_of_fmap.
      apply elem_of_dict_fold in Hin as [Hin|[Hin ->]].
      * by apply elem_of_nil in Hin.
      * apply list_elem_of_fmap. eauto.
    + intros Hin. apply dict_fold_keys. by right.
  - intros Hdup. unfold dict_by_hash. fold (dict_fold ms []).
    rewrite dict_fold_fresh by done. unfold dict_values.
    simpl. rewrite map_map. simpl. apply map_id.
Qed.

End DictByHash.

(** X10.  What the dict of [find_weapon_matches] does to the accumulated hits:
    its values carry every hash of the input exactly once, each through an
    item of the input; an input without repeated hashes passes unchanged. *)
Theorem dict_by_hash_values (ms : list Item) :
  let unique_matches := dict_values (dict_by_hash ms) in
  NoDup (map hash unique_matches)
  ∧ (∀ m, m ∈ unique_matches → m ∈ ms)
  ∧ (∀ h, h ∈ map hash unique_matches ↔ h ∈ map hash ms)
  ∧ (NoDup (map hash ms) → unique_matches = ms).
Proof. apply dict_by_hash_spec. Qed.

(** ** The matcher as a function of the catalog *)

Module ResolutionLemmas.
Import ItemMatcher Matching MatcherFacts MatcherLemmas Cache CacheLemmas.
Import Lookup LookupLemmas WeaponMatching Resolution.

Section WithCatalog.
Context `{SetIteration}.
Variable manifest : list Item.

Lemma Ok_state {A : Type} (a b : A) (s s' : State) :
  Ok (a, s) = Ok (b, s') → s = s'.
Proof. by intros [= _ ->]. Qed.

Lemma log_queries_missing (terms : list string) (s : State) :
  missing_weapons (log_queries terms s) = missing_weapons s
  ∧ missing_perks (log_queries terms s) = missing_perks s.
Proof.
  revert s. induction terms as [|term terms IH]; intros s; [done|].
  simpl. by destruct (IH (log_query term s)) as [-> ->].
Qed.

(** A lookup leaves the sets of missing names alone. *)
Lemma findCandidates_pure (wantedClass : ItemClass) (rawName : string)
  (s : State) :
  consistent manifest s →
  ∃ s', findCandidates manifest wantedClass rawName s
        = Ok (result_of manifest wantedClass rawName, s')
        ∧ consistent manifest s'
        ∧ missing_weapons s' = missing_weapons s
        ∧ missing_perks s' = missing_perks s.
Proof.
  intros Hcons.
  destruct (findCandidates_run manifest wantedClass rawName s Hcons)
    as (s' & Hrun & Hcons').
  exists s'. split_and!; [done..| |].
  - destruct wantedClass; simpl in Hrun.
    + destruct (weapon_matches s !! rawName) as [cached|] eqn:Hcache.
      * rewrite (find_weapon_matches_hit manifest _ _ _ Hcache) in Hrun.
        by apply Ok_state in Hrun as <-.
      * rewrite (find_weapon_matches_miss manifest _ _ Hcache) in Hrun.
        apply Ok_state in Hrun as <-. simpl. apply log_queries_missing.
    + destruct (perk_matches s !! rawName) as [cached|] eqn:Hcache.
      * rewrite (find_perk_matches_hit manifest _ _ _ Hcache) in Hrun.
        by apply Ok_state in Hrun as <-.
      * rewrite (find_perk_matches_miss manifest _ _ Hcache) in Hrun.
        by apply Ok_state in Hrun as <-.
  - destruct wantedClass; simpl in Hrun.
    + destruct (weapon_matches s !! rawName) as [cached|] eqn:Hcache.
      * rewrite (find_weapon_matches_hit manifest _ _ _ Hcache) in Hrun.
        by apply Ok_state in Hrun as <-.
      * rewrite (find_weapon_matches_miss manifest _ _ Hcache) in Hrun.
        apply Ok_state in Hrun as <-. simpl. apply log_queries_missing.
    + destruct (perk_matches s !! rawName) as [cached|] eqn:Hcache.
      * rewrite (find_perk_matches_hit manifest _ _ _ Hcache) in Hrun.
        by apply Ok_state in Hrun as <-.
      * rewrite (find_perk_matches_miss manifest _ _ Hcache) in Hrun.
        by apply Ok_state in Hrun as <-.
Qed.

Lemma match_perks_loop_pure (column : nat) (perks : list string)
  (s : State) :
  consistent manifest s →
  ∃ s', match_perks_loop manifest column perks s
        = Ok (perk_dicts manifest column perks, s')
        ∧ consistent manifest s'
        ∧ missing_weapons s' = missing_weapons s
        ∧ missing_perks s'
          = list_to_set (unresolved manifest perks) ∪ missing_perks s.
Proof.
  revert s. induction perks as [|perk rest IH]; intros s Hcons.
  - exists s. split_and!; [done..|]. unfold unresolved. simpl. set_solver.
  - cbn [match_perks_loop]. unfold modify.
    unfold mbind at 1, M_bind at 1. unfold mbind at 1, M_bind at 1.
    destruct (findCandidates_pure Perk perk (log_lookup column perk s))
      as (s1 & Hfind & Hcons1 & Hw1 & Hp1).
    { by apply (consistent_same manifest s). }
    simpl in Hfind. rewrite Hfind.
    change (result_of manifest Perk perk) with (perk_result manifest perk).
    unfold perk_dicts, unresolved. simpl. unfold perk_dict at 1.
    rewrite filter_cons.
    destruct (perk_result manifest perk) as [|perk_match others] eqn:Hres.
    + unfold search_destiny_items, modify.
      do 2 (unfold mbind at 1, M_bind at 1).
      unfold mret at 1, M_ret at 1. unfold mbind at 1, M_bind at 1.
      destruct (IH (add_missing_perk perk (log_query perk s1)))
        as (s2 & -> & Hcons2 & Hw2 & Hp2).
      { by apply (consistent_same manifest s1). }
      exists s2. split_and!; [done..| |].
      * by rewrite Hw2.
      * rewrite Hp2. simpl. rewrite Hp1. simpl.
        unfold unresolved. set_solver.
    + unfold mbind at 1, M_bind at 1.
      destruct (IH s1 Hcons1) as (s2 & -> & Hcons2 & Hw2 & Hp2).
      exists s2. split_and!; [done..| |].
      * by rewrite Hw2.
      * by rewrite Hp2, Hp1.
Qed.

End WithCatalog.
End ResolutionLemmas.

Module MatchWeapon.
Import ItemMatcher Matching MatcherFacts MatcherLemmas Cache CacheLemmas.
Import Lookup LookupLemmas WeaponMatching Resolution ResolutionLemmas.

Section WithCatalog.
Context `{SetIteration}.
Variable manifest : list Item.

Lemma unresolved_halves (perks : list string) (n : nat) :
  list_to_set (C := gset string) (unresolved manifest (drop n perks))
  ∪ (list_to_set (unresolved manifest (take n perks)) ∪ ∅)
  = list_to_set (unresolved manifest perks).
Proof.
  rewrite <-(take_drop n perks) at 3. unfold unresolved.
  rewrite filter_app, list_to_set_app_L. set_solver.
Qed.

Lemma match_weapon_pure (weapon : SheetParser.WeaponRoll) (s : State) :
  consistent manifest s →
  ∃ s', match_weapon manifest weapon s
        = Ok (matched_weapon manifest weapon, s')
        ∧ consistent manifest s'
        ∧ (missing_weapons s', missing_perks s')
          = missing_after manifest weapon s.
Proof.
  intros Hcons. unfold match_weapon, matched_weapon, missing_after.
  unfold mbind at 1, M_bind at 1.
  destruct (findCandidates_pure manifest Weapon (SheetParser.name weapon) s
              Hcons) as (s1 & Hfind & Hcons1 & Hw1 & Hp1).
  simpl in Hfind. rewrite Hfind.
  change (result_of manifest Weapon (SheetParser.name weapon))
    with (weapon_result manifest (SheetParser.name weapon)).
  destruct (weapon_result manifest (SheetParser.name weapon))
    as [|weapon_match others].
  - eexists. split; [done|]. split.
    + by apply (consistent_same manifest s1).
    + simpl. by rewrite Hw1, Hp1.
  - unfold mbind at 1, M_bind at 1.
    destruct (match_perks_loop_pure manifest 1
                (take (List.length (SheetParser.perks weapon) `div` 2)
                      (SheetParser.perks weapon)) s1 Hcons1)
      as (s2 & -> & Hcons2 & Hw2 & Hp2).
    unfold mbind at 1, M_bind at 1.
    destruct (match_perks_loop_pure manifest 2
                (drop (List.length (SheetParser.perks weapon) `div` 2)
                      (SheetParser.perks weapon)) s2 Hcons2)
      as (s3 & -> & Hcons3 & Hw3 & Hp3).
    exists s3. split; [done|]. split; [done|].
    rewrite Hw3, Hw2, Hw1, Hp3, Hp2, Hp1. f_equal.
    rewrite <-(unresolved_halves (SheetParser.perks weapon)
                 (List.length (SheetParser.perks weapon) `div` 2)).
    set_solver.
Qed.

End WithCatalog.
End MatchWeapon.

Module CandidateLemmas.
Import ItemMatcher Matching MatcherFacts MatcherLemmas Cache CacheLemmas.
Import Lookup LookupLemmas WeaponMatching Resolution ResolutionLemmas.

Section WithCatalog.
Context `{SetIteration}.
Variable manifest : list Item.

Lemma elem_of_candidates_of (wantedClass : ItemClass) (rawName : string)
  (item : Item) :
  item ∈ candidates_of manifest wantedClass rawName →
  item ∈ manifest
  ∧ is_class wantedClass item = true
  ∧ ∃ term, term ∈ queried_terms wantedClass rawName
            ∧ PyStr.contains (PyStr.lower term) (PyStr.lower (name item))
              = true.
Proof.
  destruct wantedClass; simpl.
  - unfold weapon_candidates.
    intros Hin%dict_by_hash_spec%list_elem_of_bind.
    destruct Hin as (variant & Hitem & Hvariant).
    apply list_elem_of_filter in Hitem as [Hweapon Hitem].
    apply elem_of_search_results in Hitem as [Hitem Hname].
    split_and!; [done|by apply Is_true_true|eauto].
  - unfold perk_hits. intros [Hperk Hitem]%list_elem_of_filter.
    apply elem_of_search_results in Hitem as [Hitem Hname].
    split_and!; [done|by apply Is_true_true|].
    exists rawName. split; [left|done].
Qed.

Lemma candidates_of_NoDup (wantedClass : ItemClass) (rawName : string) :
  wantedClass = Weapon ∨ NoDup (map hash manifest) →
  NoDup (map hash (candidates_of manifest wantedClass rawName)).
Proof.
  destruct wantedClass; simpl.
  - intros _. apply dict_by_hash_spec.
  - intros [?|Hdup]; [done|]. apply (sublist_NoDup _ (map hash manifest)); [exact Hdup|].
    apply (fmap_sublist hash). unfold perk_hits, BungieAPI.search_results.
    etrans; apply sublist_filter.
Qed.

Lemma score_spec (rawName : string) (item : Item) :
  score rawName item
  = (bool_decide (spec_exact rawName (name item)),
     spec_similarity rawName (name item)).
Proof. unfold score. by rewrite compare_names_spec. Qed.

Lemma result_first_best (wantedClass : ItemClass) (rawName : string)
  (first : Item) (others : list Item) :
  result_of manifest wantedClass rawName = first :: others →
  (∀ item, item ∈ others →
     (spec_exact rawName (name item) → spec_exact rawName (name first))
     ∧ ((spec_exact rawName (name item) ↔ spec_exact rawName (name first)) →
        (spec_similarity rawName (name item)
         <= spec_similarity rawName (name first))%Q))
  ∧ (∀ item, item ∈ candidates_of manifest wantedClass rawName →
             spec_exact rawName (name item) →
             spec_exact rawName (name first)).
Proof.
  intros Hresult.
  pose proof (rank_sorted (threshold_of wantedClass) rawName
                (candidates_of manifest wantedClass rawName)) as Hsorted.
  unfold result_of in Hresult. rewrite Hresult in Hsorted.
  apply StronglySorted_inv in Hsorted as [_ Hfirst].
  rewrite Forall_forall in Hfirst.
  assert (Hbest : ∀ item, item ∈ others →
            (spec_exact rawName (name item) → spec_exact rawName (name first))
            ∧ ((spec_exact rawName (name item)
                ↔ spec_exact rawName (name first)) →
               (spec_similarity rawName (name item)
                <= spec_similarity rawName (name first))%Q)).
  { intros item Hitem. specialize (Hfirst item Hitem).
    apply key_ge_spec in Hfirst.
    rewrite !score_spec in Hfirst. simpl in Hfirst.
    rewrite !bool_decide_eq_true, bool_decide_eq_false in Hfirst.
    split.
    - intros Hexact. destruct Hfirst as [[? _]|[Heq _]]; [done|].
      apply (bool_decide_unpack _). rewrite Heq. by apply bool_decide_pack.
    - intros Hiff. destruct Hfirst as [[? ?]|[_ ?]]; [tauto|done]. }
  split; [done|].
  intros item Hitem Hexact.
  assert (Hin : item ∈ first :: others).
  { rewrite <-Hresult. apply elem_of_rank. split; [done|].
    apply retained_spec. by left. }
  apply elem_of_cons in Hin as [->|Hin]; [done|].
  by apply (Hbest item Hin).
Qed.

Lemma perk_dicts_cons (column : nat) (perk : string) (perks : list string) :
  perk_dicts manifest column (perk :: perks)
  = match perk_result manifest perk with
    | perk_match :: _ =>
        {| pd_name := perk;
           pd_hash := Some (hash perk_match);
           pd_description := default "" (description perk_match);
           pd_column := column |} :: perk_dicts manifest column perks
    | [] => perk_dicts manifest column perks
    end.
Proof.
  unfold perk_dicts. simpl. unfold perk_dict at 1.
  by destruct (perk_result manifest perk).
Qed.

Lemma perk_dicts_names (column : nat) (perks : list string) :
  map pd_name (perk_dicts manifest column perks)
  = filter (λ perk, perk_result manifest perk ≠ []) perks.
Proof.
  induction perks as [|perk perks IH]; [done|].
  rewrite perk_dicts_cons, filter_cons.
  destruct (perk_result manifest perk) as [|perk_match others].
  - by destruct (decide _) as [Hne|_]; [destruct Hne|].
  - rewrite decide_True by done. simpl. by rewrite IH.
Qed.

Lemma perk_dicts_hashes (column : nat) (perks : list string) :
  Forall (λ d, ∃ item others,
            perk_result manifest (pd_name d) = item :: others
            ∧ pd_hash d = Some (hash item)
            ∧ pd_description d = default "" (description item)
            ∧ pd_column d = column)
         (perk_dicts manifest column perks).
Proof.
  induction perks as [|perk perks IH]; [constructor|].
  rewrite perk_dicts_cons.
  destruct (perk_result manifest perk) as [|perk_match others] eqn:Hres;
    [done|].
  constructor; [|done]. simpl. by eexists _, _.
Qed.

End WithCatalog.
End CandidateLemmas.

(** ** What the lookups return *)

(** X11.  Whatever a lookup returns is an item of the snapshot that passes the
    class test and whose display name contains, case-insensitively, one of
    the terms the lookup queries; weapon candidates never repeat a hash,
    perk candidates do not when the snapshot does not. *)
Theorem lookup_results_sound `{SetIteration} (manifest : list Item)
  (wantedClass : ItemClass) (rawName : string)
  (s s' : ItemMatcher.State) (result : list Item) :
  Lookup.consistent manifest s →
  Cache.findCandidates manifest wantedClass rawName s = Ok (result, s') →
  (∀ item, item ∈ result →
     item ∈ manifest
     ∧ is_class wantedClass item = true
     ∧ ∃ term, term ∈ Resolution.queried_terms wantedClass rawName
               ∧ PyStr.contains (PyStr.lower term) (PyStr.lower (name item))
                 = true)
  ∧ (wantedClass = Weapon ∨ NoDup (map hash manifest) →
     NoDup (map hash result))
  ∧ (List.length result
     ≤ List.length (Lookup.candidates_of manifest wantedClass rawName))%nat.
Proof.
  intros Hcons Hrun.
  rewrite (LookupLemmas.findCandidates_result manifest _ _ _ _ _ Hcons Hrun).
  unfold Lookup.result_of. split_and!.
  - intros item [Hitem _]%elem_of_rank.
    by apply CandidateLemmas.elem_of_candidates_of.
  - intros Hdup. rewrite rank_perm. unfold MatcherFacts.kept.
    eapply sublist_NoDup;
      [by apply CandidateLemmas.candidates_of_NoDup|].
    apply (fmap_sublist hash), sublist_filter.
  - rewrite rank_perm. apply sublist_length, sublist_filter.
Qed.

(** X11, on an example. *)
Lemma lookup_results_sound_witness :
  let result := [Catalogs.weapon_item 200 "Fatebringer";
                 Catalogs.weapon_item 201 "Fatebringer 2"] in
  (∀ item, item ∈ result →
     item ∈ Catalogs.armory
     ∧ is_class Weapon item = true
     ∧ ∃ term, term ∈ Resolution.queried_terms (H := first_seen_order)
                        Weapon "Fatebringer"
               ∧ PyStr.contains (PyStr.lower term) (PyStr.lower (name item))
                 = true)
  ∧ (Weapon = Weapon ∨ NoDup (map hash Catalogs.armory) →
     NoDup (map hash result))
  ∧ (List.length result
     ≤ List.length (Lookup.candidates_of (H := first_seen_order)
                      Catalogs.armory Weapon "Fatebringer"))%nat.
Proof.
  eapply (lookup_results_sound (H := first_seen_order)
            Catalogs.armory Weapon "Fatebringer" ItemMatcher.init).
  - apply LookupLemmas.consistent_init.
  - vm_compute. reflexivity.
Defined.

(** X12.  The candidate a lookup returns first is the best one: no other
    returned candidate is an exact match unless the first is, and among
    candidates of the same exactness none has a higher similarity.  So the
    item [match_weapon] uses is an exact match whenever the catalog has
    one for the name. *)
Theorem first_candidate_best `{SetIteration} (manifest : list Item)
  (wantedClass : ItemClass) (rawName : string)
  (s s' : ItemMatcher.State) (first : Item) (others : list Item) :
  Lookup.consistent manifest s →
  Cache.findCandidates manifest wantedClass rawName s
  = Ok (first :: others, s') →
  (∀ item, item ∈ others →
     (spec_exact rawName (name item) → spec_exact rawName (name first))
     ∧ ((spec_exact rawName (name item) ↔ spec_exact rawName (name first)) →
        (spec_similarity rawName (name item)
         <= spec_similarity rawName (name first))%Q))
  ∧ (∀ item, item ∈ Lookup.candidates_of manifest wantedClass rawName →
             spec_exact rawName (name item) →
             spec_exact rawName (name first)).
Proof.
  intros Hcons Hrun. apply CandidateLemmas.result_first_best.
  symmetry. by eapply LookupLemmas.findCandidates_result.
Qed.

(** X12, on an example. *)
Lemma first_candidate_best_witness :
  let first := Catalogs.weapon_item 200 "Fatebringer" in
  let others := [Catalogs.weapon_item 201 "Fatebringer 2"] in
  (∀ item, item ∈ others →
     (spec_exact "Fatebringer" (name item)
      → spec_exact "Fatebringer" (name first))
     ∧ ((spec_exact "Fatebringer" (name item)
         ↔ spec_exact "Fatebringer" (name first)) →
        (spec_similarity "Fatebringer" (name item)
         <= spec_similarity "Fatebringer" (name first))%Q))
  ∧ (∀ item, item ∈ Lookup.candidates_of (H := first_seen_order)
                      Catalogs.armory Weapon "Fatebringer" →
             spec_exact "Fatebringer" (name item) →
             spec_exact "Fatebringer" (name first)).
Proof.
  eapply (first_candidate_best (H := first_seen_order)
            Catalogs.armory Weapon "Fatebringer" ItemMatcher.init).
  - apply LookupLemmas.consistent_init.
  - vm_compute. reflexivity.
Defined.

(** ** Matched rows *)

(** X13.  For each order in which the set of search variants is iterated:
    with caches that hold results of the catalog, [match_weapon] does not
    raise, and what it returns and what it adds to the two sets of missing
    names does not depend on the lookups made before.  The result is
    [Resolution.matched_weapon], computed from the row, the catalog and
    that order: the first weapon candidate and the first candidate of each
    perk that has one; without a weapon candidate the call returns [None]
    and records the weapon name, and no perk.  The caches hold results of
    the catalog afterwards too.  The order of the set is part of what the
    result depends on, see [set_order_decides_ties_ex] below. *)
Theorem match_weapon_ignores_history `{SetIteration} (manifest : list Item)
  (weapon : SheetParser.WeaponRoll) (s : ItemMatcher.State) :
  Lookup.consistent manifest s →
  ∃ s',
    Matching.match_weapon manifest weapon s
    = Ok (Resolution.matched_weapon manifest weapon, s')
    ∧ Lookup.consistent manifest s'
    ∧ (ItemMatcher.missing_weapons s', ItemMatcher.missing_perks s')
      = Resolution.missing_after manifest weapon s.
Proof. apply MatchWeapon.match_weapon_pure. Qed.

(** X13, on an example. *)
Lemma match_weapon_ignores_history_witness :
  ∃ s',
    Matching.match_weapon (H := first_seen_order) Catalogs.armory
      Sheets.fatebringer ItemMatcher.init
    = Ok (Resolution.matched_weapon (H := first_seen_order) Catalogs.armory
            Sheets.fatebringer, s')
    ∧ Lookup.consistent (H := first_seen_order) Catalogs.armory s'
    ∧ (ItemMatcher.missing_weapons s', ItemMatcher.missing_perks s')
      = Resolution.missing_after (H := first_seen_order) Catalogs.armory
          Sheets.fatebringer ItemMatcher.init.
Proof.
  apply (match_weapon_ignores_history (H := first_seen_order) Catalogs.armory
           Sheets.fatebringer ItemMatcher.init).
  apply LookupLemmas.consistent_init.
Defined.

(** The order in which the set of search variants is iterated decides
    among weapon candidates of equal score: for the row "Gun-X" and a
    catalog with the weapons "Gun X" and "gun-x", both exact matches, one
    order resolves the row to the second weapon and the other to the
    first. *)
Example set_order_decides_ties_ex :
  let catalog := [Catalogs.weapon_item 1 "Gun X";
                  Catalogs.weapon_item 2 "gun-x"] in
  let row := {| SheetParser.name := "Gun-X"; SheetParser.tier := "S";
                SheetParser.perks := ["Outlaw"] |} in
  mw_hash <$> Resolution.matched_weapon (H := first_seen_order) catalog row
  = Some 2%Z
  ∧ mw_hash <$> Resolution.matched_weapon (H := last_seen_order) catalog row
    = Some 1%Z.
Proof. by vm_compute. Qed.

Section Accounting.
Import ItemMatcher Matching MatcherFacts Lookup Resolution.
Context `{SetIteration}.
Variable manifest : list Item.

Lemma matched_weapon_Some (weapon : SheetParser.WeaponRoll)
  (matched : MatchedWeapon) :
  matched_weapon manifest weapon = Some matched →
  let perks := SheetParser.perks weapon in
  let half := (List.length perks `div` 2)%nat in
  ∃ weapon_match others,
    weapon_result manifest (SheetParser.name weapon) = weapon_match :: others
    ∧ mw_name matched = SheetParser.name weapon
    ∧ mw_hash matched = hash weapon_match
    ∧ mw_type matched = default "Unknown" (itemTypeDisplayName weapon_match)
    ∧ mw_tier matched = SheetParser.tier weapon
    ∧ mw_perks_column1 matched = perk_dicts manifest 1 (take half perks)
    ∧ mw_perks_column2 matched = perk_dicts manifest 2 (drop half perks).
Proof.
  unfold matched_weapon.
  destruct (weapon_result manifest (SheetParser.name weapon))
    as [|weapon_match others]; [done|].
  intros [= <-]. by eexists _, _.
Qed.

Lemma match_weapon_Some (weapon : SheetParser.WeaponRoll) (s s' : State)
  (matched : MatchedWeapon) :
  consistent manifest s →
  match_weapon manifest weapon s = Ok (Some matched, s') →
  matched_weapon manifest weapon = Some matched
  ∧ missing_perks s'
    = list_to_set (unresolved manifest (SheetParser.perks weapon))
      ∪ missing_perks s
  ∧ missing_weapons s' = missing_weapons s.
Proof.
  intros Hcons Hrun.
  destruct (MatchWeapon.match_weapon_pure manifest weapon s Hcons)
    as (s1 & Hrun1 & _ & Hmissing).
  rewrite Hrun in Hrun1. injection Hrun1 as Hmatched <-.
  split; [done|]. unfold missing_after in Hmissing.
  destruct (matched_weapon_Some weapon matched)
    as (weapon_match & others & Hres & _); [done|].
  rewrite Hres in Hmissing. by injection Hmissing as -> ->.
Qed.

End Accounting.

(** X14.  Every perk name of a matched row is accounted for once: the names of
    the two output columns, in order, are the row's perks that have a
    candidate, and every other perk of the row is in [missing_perks]. *)
Theorem sheet_perks_accounted `{SetIteration} (manifest : list Item)
  (weapon : SheetParser.WeaponRoll) (s s' : ItemMatcher.State)
  (matched : MatchedWeapon) :
  Lookup.consistent manifest s →
  Matching.match_weapon manifest weapon s = Ok (Some matched, s') →
  let resolved :=
    map pd_name (mw_perks_column1 matched ++ mw_perks_column2 matched) in
  resolved
  = filter (λ perk, MatcherFacts.perk_result manifest perk ≠ [])
           (SheetParser.perks weapon)
  ∧ (∀ perk, perk ∈ SheetParser.perks weapon →
       (perk ∈ resolved ∧ MatcherFacts.perk_result manifest perk ≠ [])
       ∨ ((perk ∉ resolved) ∧ MatcherFacts.perk_result manifest perk = []
          ∧ perk ∈ ItemMatcher.missing_perks s'))
  ∧ (List.length resolved ≤ List.length (SheetParser.perks weapon))%nat.
Proof.
  intros Hcons Hrun resolved.
  destruct (match_weapon_Some manifest weapon s s' matched Hcons Hrun)
    as (Hmatched & Hmissing & _).
  destruct (matched_weapon_Some manifest weapon matched Hmatched)
    as (weapon_match & others & _ & _ & _ & _ & _ & Hcol1 & Hcol2).
  assert (Hresolved :
    resolved = filter (λ perk, MatcherFacts.perk_result manifest perk ≠ [])
                      (SheetParser.perks weapon)).
  { unfold resolved. rewrite Hcol1, Hcol2, map_app.
    rewrite !CandidateLemmas.perk_dicts_names, <-filter_app.
    by rewrite take_drop. }
  split_and!; [done| |].
  - intros perk Hperk. rewrite Hresolved, Hmissing.
    destruct (decide (MatcherFacts.perk_result manifest perk = []))
      as [Hnone|Hsome].
    + right. split_and!; [|done|].
      * by intros [? _]%list_elem_of_filter.
      * apply elem_of_union_l, elem_of_list_to_set.
        by apply list_elem_of_filter.
    + left. split; [|done]. by apply list_elem_of_filter.
  - rewrite Hresolved. apply length_filter.
Qed.

(** X14, on an example. *)
Lemma sheet_perks_accounted_witness :
  ∃ matched s',
    Matching.match_weapon (H := first_seen_order) Catalogs.armory
      Sheets.fatebringer ItemMatcher.init = Ok (Some matched, s')
    ∧ let resolved :=
        map pd_name (mw_perks_column1 matched ++ mw_perks_column2 matched) in
      resolved
      = filter (λ perk, MatcherFacts.perk_result Catalogs.armory perk ≠ [])
               (SheetParser.perks Sheets.fatebringer)
      ∧ (∀ perk, perk ∈ SheetParser.perks Sheets.fatebringer →
           (perk ∈ resolved
            ∧ MatcherFacts.perk_result Catalogs.armory perk ≠ [])
           ∨ ((perk ∉ resolved)
              ∧ MatcherFacts.perk_result Catalogs.armory perk = []
              ∧ perk ∈ ItemMatcher.missing_perks s'))
      ∧ (List.length resolved
         ≤ List.length (SheetParser.perks Sheets.fatebringer))%nat.
Proof.
  eexists _, _. split; [vm_compute; reflexivity|].
  eapply (sheet_perks_accounted (H := first_seen_order) Catalogs.armory
            Sheets.fatebringer ItemMatcher.init).
  - apply LookupLemmas.consistent_init.
  - vm_compute. reflexivity.
Defined.

Section Hashes.
Import ItemMatcher Matching MatcherFacts Lookup Resolution.
Context `{SetIteration}.
Variable manifest : list Item.

Lemma head_of_result (wantedClass : ItemClass) (rawName : string)
  (item : Item) (others : list Item) :
  result_of manifest wantedClass rawName = item :: others →
  item ∈ manifest
  ∧ is_class wantedClass item = true
  ∧ retained (threshold_of wantedClass) rawName item = true.
Proof.
  intros Hres.
  assert (Hin : item ∈ result_of manifest wantedClass rawName)
    by (rewrite Hres; left).
  apply elem_of_rank in Hin as [Hcand Hkept].
  apply CandidateLemmas.elem_of_candidates_of in Hcand as (? & ? & _).
  done.
Qed.

Lemma omap_perk_of_dict (dicts : list PerkDict) :
  Forall (λ d, is_Some (pd_hash d)) dicts →
  map WishlistGenerator.name (omap WishlistGenerator.perk_of_dict dicts)
  = map pd_name dicts
  ∧ map (Some ∘ WishlistGenerator.hash)
        (omap WishlistGenerator.perk_of_dict dicts)
    = map pd_hash dicts.
Proof.
  induction 1 as [|d dicts [h Hh] _ [IH1 IH2]]; [done|].
  assert (Hd : WishlistGenerator.perk_of_dict d
               = Some {| WishlistGenerator.name := pd_name d;
                         WishlistGenerator.hash := h;
                         WishlistGenerator.description := pd_description d |})
    by (unfold WishlistGenerator.perk_of_dict; by rewrite Hh).
  change (omap WishlistGenerator.perk_of_dict (d :: dicts))
    with (match WishlistGenerator.perk_of_dict d with
          | Some y => y :: omap WishlistGenerator.perk_of_dict dicts
          | None => omap WishlistGenerator.perk_of_dict dicts
          end).
  rewrite Hd, !map_cons, IH1, IH2, Hh. done.
Qed.

End Hashes.

(** X15.  The hashes of a matched row come from the catalog: the weapon hash is
    that of a snapshot item that passes [is_weapon] and was retained for
    the row's name, every perk dict carries the hash of a snapshot item
    that passes [is_perk] and was retained for the perk's name; since each
    dict has a hash, [process_matched_weapon] drops none of them. *)
Theorem matched_hashes_in_catalog `{SetIteration} (manifest : list Item)
  (weapon : SheetParser.WeaponRoll) (s s' : ItemMatcher.State)
  (matched : MatchedWeapon) :
  Lookup.consistent manifest s →
  Matching.match_weapon manifest weapon s = Ok (Some matched, s') →
  let roll := WishlistGenerator.process_matched_weapon matched in
  (∃ item, item ∈ manifest
           ∧ BungieAPI.is_weapon item = true
           ∧ MatcherFacts.retained (8 # 10)%Q (SheetParser.name weapon) item
             = true
           ∧ mw_hash matched = hash item
           ∧ mw_type matched = default "Unknown" (itemTypeDisplayName item))
  ∧ Forall (λ d, ∃ item, item ∈ manifest
                         ∧ BungieAPI.is_perk item = true
                         ∧ MatcherFacts.retained (9 # 10)%Q (pd_name d) item
                           = true
                         ∧ pd_hash d = Some (hash item))
           (mw_perks_column1 matched ++ mw_perks_column2 matched)
  ∧ map WishlistGenerator.name (WishlistGenerator.perks_column1 roll)
    = map pd_name (mw_perks_column1 matched)
  ∧ map WishlistGenerator.name (WishlistGenerator.perks_column2 roll)
    = map pd_name (mw_perks_column2 matched)
  ∧ map (Some ∘ WishlistGenerator.hash) (WishlistGenerator.perks_column1 roll)
    = map pd_hash (mw_perks_column1 matched)
  ∧ map (Some ∘ WishlistGenerator.hash) (WishlistGenerator.perks_column2 roll)
    = map pd_hash (mw_perks_column2 matched).
Proof.
  intros Hcons Hrun roll.
  destruct (match_weapon_Some manifest weapon s s' matched Hcons Hrun)
    as (Hmatched & _ & _).
  destruct (matched_weapon_Some manifest weapon matched Hmatched)
    as (weapon_match & others & Hres & _ & Hhash & Htype & _ & Hcol1 & Hcol2).
  assert (Hperks : ∀ column perks,
    Forall (λ d, ∃ item, item ∈ manifest
                         ∧ BungieAPI.is_perk item = true
                         ∧ MatcherFacts.retained (9 # 10)%Q (pd_name d) item
                           = true
                         ∧ pd_hash d = Some (hash item))
           (Resolution.perk_dicts manifest column perks)).
  { intros column perks.
    eapply Forall_impl; [apply CandidateLemmas.perk_dicts_hashes|].
    intros d (item & rest & Hitem & Hd & _).
    destruct (head_of_result manifest Perk (pd_name d) item rest Hitem)
      as (? & ? & ?).
    by exists item. }
  assert (Hsome : ∀ column perks,
    Forall (λ d, is_Some (pd_hash d))
           (Resolution.perk_dicts manifest column perks)).
  { intros column perks. eapply Forall_impl; [apply Hperks|].
    intros d (item & _ & _ & _ & ->). by eexists. }
  split_and!.
  - destruct (head_of_result manifest Weapon (SheetParser.name weapon)
                weapon_match others Hres) as (? & ? & ?).
    by exists weapon_match.
  - rewrite Hcol1, Hcol2. apply Forall_app. split; apply Hperks.
  - unfold roll. simpl. rewrite Hcol1. by apply omap_perk_of_dict.
  - unfold roll. simpl. rewrite Hcol2. by apply omap_perk_of_dict.
  - unfold roll. simpl. rewrite Hcol1. by apply omap_perk_of_dict.
  - unfold roll. simpl. rewrite Hcol2. by apply omap_perk_of_dict.
Qed.

(** X15, on an example. *)
Lemma matched_hashes_in_catalog_witness :
  ∃ matched s',
    Matching.match_weapon (H := first_seen_order) Catalogs.armory
      Sheets.fatebringer ItemMatcher.init = Ok (Some matched, s')
    ∧ let roll := WishlistGenerator.process_matched_weapon matched in
      (∃ item, item ∈ Catalogs.armory
               ∧ BungieAPI.is_weapon item = true
               ∧ MatcherFacts.retained (8 # 10)%Q
                   (SheetParser.name Sheets.fatebringer) item = true
               ∧ mw_hash matched = hash item
               ∧ mw_type matched
                 = default "Unknown" (itemTypeDisplayName item))
      ∧ Forall (λ d, ∃ item, item ∈ Catalogs.armory
                             ∧ BungieAPI.is_perk item = true
                             ∧ MatcherFacts.retained (9 # 10)%Q (pd_name d)
                                 item = true
                             ∧ pd_hash d = Some (hash item))
               (mw_perks_column1 matched ++ mw_perks_column2 matched)
      ∧ map WishlistGenerator.name (WishlistGenerator.perks_column1 roll)
        = map pd_name (mw_perks_column1 matched)
      ∧ map WishlistGenerator.name (WishlistGenerator.perks_column2 roll)
        = map pd_name (mw_perks_column2 matched)
      ∧ map (Some ∘ WishlistGenerator.hash)
            (WishlistGenerator.perks_column1 roll)
        = map pd_hash (mw_perks_column1 matched)
      ∧ map (Some ∘ WishlistGenerator.hash)
            (WishlistGenerator.perks_column2 roll)
        = map pd_hash (mw_perks_column2 matched).
Proof.
  eexists _, _. split; [vm_compute; reflexivity|].
  eapply (matched_hashes_in_catalog (H := first_seen_order) Catalogs.armory
            Sheets.fatebringer ItemMatcher.init).
  - apply LookupLemmas.consistent_init.
  - vm_compute. reflexivity.
Defined.

(** ** The roll expander, case by case *)

Section ExpanderFacts.
Import ConfigManager WishlistGenerator.

Lemma all_combinations_empty (perk_option : PerkOption) (weapon : WeaponRoll) :
  all_combinations perk_option weapon = ∅
  ↔ (perk_option = BOTH_COLUMNS
     ∧ (perks_column1 weapon = [] ∨ perks_column2 weapon = []))
    ∨ (perks_column1 weapon = [] ∧ perks_column2 weapon = []).
Proof.
  split.
  - intros Hempty.
    assert (Hnone : ∀ line, line ∉ all_combinations perk_option weapon)
      by (intros line; rewrite Hempty; set_solver).
    destruct (perks_column1 weapon) as [|perk1 column1] eqn:Hcol1.
    + destruct (perks_column2 weapon) as [|perk2 column2] eqn:Hcol2;
        [by right|].
      destruct (decide (perk_option = BOTH_COLUMNS)) as [->|Hopt];
        [left; auto|].
      destruct (Hnone (single_line (w_hash weapon) (hash perk2))).
      apply elem_of_all_combinations. left. split; [done|].
      exists perk2. rewrite Hcol1, Hcol2. split; [left|done].
    + destruct (perks_column2 weapon) as [|perk2 column2] eqn:Hcol2.
      * destruct (decide (perk_option = BOTH_COLUMNS)) as [->|Hopt];
          [left; auto|].
        destruct (Hnone (single_line (w_hash weapon) (hash perk1))).
        apply elem_of_all_combinations. left. split; [done|].
        exists perk1. rewrite Hcol1, Hcol2. split; [left|done].
      * destruct (Hnone (pair_line (w_hash weapon) (hash perk1) (hash perk2))).
        apply elem_of_all_combinations. right.
        exists perk1, perk2. rewrite Hcol1, Hcol2. split_and!; [left..|done].
  - intros Hcase. apply set_eq. intros line.
    rewrite elem_of_all_combinations. split; [|set_solver].
    intros [[Hopt (perk & Hperk & _)]|(perk1 & perk2 & H1 & H2 & _)].
    + destruct Hcase as [[-> _]|[E1 E2]]; [done|].
      rewrite E1, E2 in Hperk. by apply elem_of_nil in Hperk.
    + destruct Hcase as [[_ [E|E]]|[E _]]; rewrite E in *;
        by eapply not_elem_of_nil in H1 || eapply not_elem_of_nil in H2.
Qed.

Lemma output_lines_None (configs : list TierConfig) (weapon : WeaponRoll) :
  output_lines configs weapon = None
  ↔ should_include_weapon (w_tier weapon) configs = None
    ∨ (∃ perk_option,
         should_include_weapon (w_tier weapon) configs = Some perk_option
         ∧ perk_option ≠ ANY_PERKS
         ∧ all_combinations perk_option weapon = ∅).
Proof.
  unfold output_lines.
  destruct (should_include_weapon (w_tier weapon) configs)
    as [perk_option|]; [|by split; [left|]].
  destruct (decide (all_combinations perk_option weapon = ∅)) as [Hempty|Hne].
  - rewrite (bool_decide_false (_ ≠ _)) by (by intros ?).
    destruct (decide (perk_option = ANY_PERKS)) as [->|Hopt].
    + rewrite bool_decide_true by done. split; [done|].
      by intros [?|(? & [= <-] & ? & _)].
    + rewrite !(bool_decide_false (perk_option = _)) by done.
      split; [|done]. intros _. right. by exists perk_option.
  - rewrite (bool_decide_true (_ ≠ _)) by done. split; [done|].
    by intros [?|(? & [= <-] & _ & ?)].
Qed.

End ExpanderFacts.

(** X16.  A weapon gets no block exactly in three cases: no policy entry has its
    tier; the policy is BOTH_COLUMNS and one of the columns is empty; the
    policy is ANY_COLUMN and both columns are empty.  Under ANY_PERKS a
    weapon of a configured tier always gets a block. *)
Theorem format_weapon_rolls_None_iff
  (configs : list ConfigManager.TierConfig)
  (weapon : WishlistGenerator.WeaponRoll) :
  WishlistGenerator._format_weapon_rolls configs weapon = None
  ↔ WishlistGenerator.w_tier weapon ∉ map ConfigManager.tier configs
    ∨ (ConfigManager.should_include_weapon
         (WishlistGenerator.w_tier weapon) configs
       = Some ConfigManager.BOTH_COLUMNS
       ∧ (WishlistGenerator.perks_column1 weapon = []
          ∨ WishlistGenerator.perks_column2 weapon = []))
    ∨ (ConfigManager.should_include_weapon
         (WishlistGenerator.w_tier weapon) configs
       = Some ConfigManager.ANY_COLUMN
       ∧ WishlistGenerator.perks_column1 weapon = []
       ∧ WishlistGenerator.perks_column2 weapon = []).
Proof.
  assert (Hformat :
    WishlistGenerator._format_weapon_rolls configs weapon = None
    ↔ WishlistGenerator.output_lines configs weapon = None).
  { unfold WishlistGenerator._format_weapon_rolls.
    by destruct (WishlistGenerator.output_lines configs weapon). }
  rewrite Hformat, output_lines_None, should_include_weapon_None.
  split.
  - intros [?|(perk_option & Hpolicy & Hopt & Hempty)]; [by left|].
    apply all_combinations_empty in Hempty.
    destruct perk_option; [|right; right|done].
    + right; left. split; [done|]. destruct Hempty as [[_ ?]|[? _]]; auto.
    + split; [done|]. by destruct Hempty as [[? _]|?].
  - intros [?|[[Hpolicy Hcol]|(Hpolicy & Hcol1 & Hcol2)]]; [by left|..].
    + right. exists ConfigManager.BOTH_COLUMNS. split_and!; [done..|].
      apply all_combinations_empty. by left.
    + right. exists ConfigManager.ANY_COLUMN. split_and!; [done..|].
      apply all_combinations_empty. by right.
Qed.

(** X17.  The three policies are nested: every roll line written under
    BOTH_COLUMNS is written under ANY_COLUMN, ANY_PERKS writes the lines of
    ANY_COLUMN, and its bare line is none of them. *)
Theorem policies_nested (weapon : WishlistGenerator.WeaponRoll) :
  WishlistGenerator.all_combinations ConfigManager.BOTH_COLUMNS weapon
  ⊆ WishlistGenerator.all_combinations ConfigManager.ANY_COLUMN weapon
  ∧ WishlistGenerator.all_combinations ConfigManager.ANY_PERKS weapon
    = WishlistGenerator.all_combinations ConfigManager.ANY_COLUMN weapon
  ∧ ∀ perk_option,
      WishlistGenerator.bare_line (WishlistGenerator.w_hash weapon)
      ∉ WishlistGenerator.all_combinations perk_option weapon.
Proof.
  split_and!.
  - intros line. rewrite !elem_of_all_combinations.
    intros [[? _]|?]; [done|by right].
  - apply set_eq. intros line. rewrite !elem_of_all_combinations.
    split; (intros [[_ ?]|?]; [left|right]; done).
  - intros perk_option. apply bare_line_not_combination.
Qed.

(** X18.  A block depends on the perks of a column only through the set of
    their hashes: repeating a perk or reordering a column changes
    nothing. *)
Theorem format_weapon_rolls_hash_sets
  (configs : list ConfigManager.TierConfig)
  (weapon weapon' : WishlistGenerator.WeaponRoll) :
  WishlistGenerator.w_name weapon = WishlistGenerator.w_name weapon' →
  WishlistGenerator.w_hash weapon = WishlistGenerator.w_hash weapon' →
  WishlistGenerator.w_tier weapon = WishlistGenerator.w_tier weapon' →
  (∀ h, h ∈ map WishlistGenerator.hash (WishlistGenerator.perks_column1 weapon)
        ↔ h ∈ map WishlistGenerator.hash
                (WishlistGenerator.perks_column1 weapon')) →
  (∀ h, h ∈ map WishlistGenerator.hash (WishlistGenerator.perks_column2 weapon)
        ↔ h ∈ map WishlistGenerator.hash
                (WishlistGenerator.perks_column2 weapon')) →
  WishlistGenerator._format_weapon_rolls configs weapon
  = WishlistGenerator._format_weapon_rolls configs weapon'.
Proof.
  intros Hname Hhash Htier Hcol1 Hcol2.
  assert (Hset : ∀ perk_option,
    WishlistGenerator.all_combinations perk_option weapon
    = WishlistGenerator.all_combinations perk_option weapon').
  { intros perk_option. apply set_eq. intros line.
    rewrite !elem_of_all_combinations, <-Hhash.
    assert (Hin1 : ∀ h,
      (∃ perk, perk ∈ WishlistGenerator.perks_column1 weapon
               ∧ h = WishlistGenerator.hash perk)
      ↔ (∃ perk, perk ∈ WishlistGenerator.perks_column1 weapon'
                 ∧ h = WishlistGenerator.hash perk)).
    { intros h. specialize (Hcol1 h). rewrite !list_elem_of_fmap in Hcol1.
      naive_solver. }
    assert (Hin2 : ∀ h,
      (∃ perk, perk ∈ WishlistGenerator.perks_column2 weapon
               ∧ h = WishlistGenerator.hash perk)
      ↔ (∃ perk, perk ∈ WishlistGenerator.perks_column2 weapon'
                 ∧ h = WishlistGenerator.hash perk)).
    { intros h. specialize (Hcol2 h). rewrite !list_elem_of_fmap in Hcol2.
      naive_solver. }
    setoid_rewrite elem_of_app.
    split.
    - intros [[Hopt (perk & [Hperk|Hperk] & ->)]|(p1 & p2 & H1 & H2 & ->)].
      + destruct (proj1 (Hin1 _) (ex_intro _ perk (conj Hperk eq_refl)))
          as (perk' & ? & ->). left. eauto.
      + destruct (proj1 (Hin2 _) (ex_intro _ perk (conj Hperk eq_refl)))
          as (perk' & ? & ->). left. eauto.
      + destruct (proj1 (Hin1 _) (ex_intro _ p1 (conj H1 eq_refl)))
          as (p1' & ? & ->).
        destruct (proj1 (Hin2 _) (ex_intro _ p2 (conj H2 eq_refl)))
          as (p2' & ? & ->). right. eauto.
    - intros [[Hopt (perk & [Hperk|Hperk] & ->)]|(p1 & p2 & H1 & H2 & ->)].
      + destruct (proj2 (Hin1 _) (ex_intro _ perk (conj Hperk eq_refl)))
          as (perk' & ? & ->). left. eauto.
      + destruct (proj2 (Hin2 _) (ex_intro _ perk (conj Hperk eq_refl)))
          as (perk' & ? & ->). left. eauto.
      + destruct (proj2 (Hin1 _) (ex_intro _ p1 (conj H1 eq_refl)))
          as (p1' & ? & ->).
        destruct (proj2 (Hin2 _) (ex_intro _ p2 (conj H2 eq_refl)))
          as (p2' & ? & ->). right. eauto. }
  unfold WishlistGenerator._format_weapon_rolls,
    WishlistGenerator.output_lines, WishlistGenerator.header_line.
  rewrite <-Htier, <-Hname, <-Hhash.
  destruct (ConfigManager.should_include_weapon _ configs); [|done].
  by rewrite Hset.
Qed.

(** X18, on an example. *)
Lemma format_weapon_rolls_hash_sets_witness :
  WishlistGenerator._format_weapon_rolls Examples.policy
    (Examples.weapon100 "S" [1; 2; 1]%Z [3]%Z)
  = WishlistGenerator._format_weapon_rolls Examples.policy
      (Examples.weapon100 "S" [2; 1]%Z [3; 3]%Z).
Proof.
  apply format_weapon_rolls_hash_sets; [done..| |].
  - intros h. simpl. rewrite !elem_of_cons, !elem_of_nil. tauto.
  - intros h. simpl. rewrite !elem_of_cons, !elem_of_nil. tauto.
Defined.

Lemma omap_cons {A B : Type} (f : A → option B) (x : A) (l : list A) :
  omap f (x :: l)
  = match f x with Some y => y :: omap f l | None => omap f l end.
Proof. done. Qed.

Lemma omap_length_le {A B : Type} (f : A → option B) (l : list A) :
  (List.length (omap f l) ≤ List.length l)%nat.
Proof.
  induction l as [|x l IH]; [done|]. rewrite omap_cons.
  destruct (f x); simpl; lia.
Qed.

Lemma omap_ext_all {A B : Type} (f g : A → option B) (l : list A) :
  (∀ x, f x = g x) → omap f l = omap g l.
Proof.
  intros Hfg. induction l as [|x l IH]; [done|].
  by rewrite !omap_cons, Hfg, IH.
Qed.

Section Entries.
Import ConfigManager WishlistGenerator.

Lemma format_weapon_rolls_nonempty (configs : list TierConfig)
  (weapon : WeaponRoll) (entry : string) :
  _format_weapon_rolls configs weapon = Some entry →
  ∃ body, entry = body +:+ PyStr.nl ∧ entry ≠ "".
Proof.
  unfold _format_weapon_rolls.
  destruct (output_lines configs weapon) as [output|]; [|done].
  intros [= <-]. eexists. split; [done|].
  intros Hnil%(f_equal String.length). rewrite string_length_app in Hnil.
  simpl in Hnil. lia.
Qed.

Lemma entries_omap (configs : list TierConfig)
  (matched_weapons : list MatchedWeapon) :
  entries configs matched_weapons
  = omap (λ weapon_data,
            _format_weapon_rolls configs (process_matched_weapon weapon_data))
         matched_weapons.
Proof.
  unfold entries. apply omap_ext_all. intros weapon_data.
  destruct (_format_weapon_rolls configs _) as [entry|] eqn:Hentry; [|done].
  simpl. apply format_weapon_rolls_nonempty in Hentry as (_ & _ & Hne).
  by destruct (String.eqb_spec entry "").
Qed.

End Entries.

(** X19.  The wishlist holds one block for each matched weapon that the roll
    expander does not reject, in the order of the weapons: a block is
    never the empty string, so the truth test on the entry drops nothing
    else; every block ends with a newline. *)
Theorem wishlist_entries (configs : list ConfigManager.TierConfig)
  (matched_weapons : list MatchedWeapon) :
  WishlistGenerator.entries configs matched_weapons
  = omap (λ weapon_data,
            WishlistGenerator._format_weapon_rolls configs
              (WishlistGenerator.process_matched_weapon weapon_data))
         matched_weapons
  ∧ Forall (λ entry, ∃ body, entry = body +:+ PyStr.nl)
           (WishlistGenerator.entries configs matched_weapons)
  ∧ (List.length (WishlistGenerator.entries configs matched_weapons)
     ≤ List.length matched_weapons)%nat.
Proof.
  pose proof (entries_omap configs matched_weapons) as Hentries.
  split_and!; [done| |].
  - rewrite Hentries. apply Forall_forall.
    intros entry (weapon_data & _ & Hentry)%list_elem_of_omap.
    apply format_weapon_rolls_nonempty in Hentry as (body & ? & _). eauto.
  - rewrite Hentries. apply omap_length_le.
Qed.

(** X20.  A generator built without tier configuration, as [main] of
    match_items.py builds it, writes an empty wishlist whatever was
    matched. *)
Theorem no_configs_empty_wishlist (matched_weapons : list MatchedWeapon) :
  WishlistGenerator.generate_dim_wishlist [] matched_weapons = "".
Proof.
  unfold WishlistGenerator.generate_dim_wishlist, WishlistGenerator.entries.
  by induction matched_weapons as [|weapon_data rest IH].
Qed.

(** ** The cells of the sheet *)

Section Strip.

Lemma rstrip_unfold (c : ascii) (s : string) :
  PyStr.rstrip (String c s)
  = if String.eqb (PyStr.rstrip s) "" && PyStr.is_space c then ""
    else String c (PyStr.rstrip s).
Proof. done. Qed.

Lemma rstrip_idem (s : string) : PyStr.rstrip (PyStr.rstrip s) = PyStr.rstrip s.
Proof.
  induction s as [|c s IH]; [done|]. rewrite rstrip_unfold.
  destruct (String.eqb_spec (PyStr.rstrip s) "") as [Hnil|Hne];
    destruct (PyStr.is_space c) eqn:Hc; cbn [andb]; try done;
    rewrite rstrip_unfold, IH, Hc;
    by destruct (String.eqb_spec (PyStr.rstrip s) "").
Qed.

Lemma lstrip_head (s : string) :
  PyStr.lstrip s = ""
  ∨ ∃ c s', PyStr.lstrip s = String c s' ∧ PyStr.is_space c = false.
Proof.
  induction s as [|c s IH]; [by left|]. simpl.
  destruct (PyStr.is_space c) eqn:Hc; [done|]. right. eauto.
Qed.

Lemma lstrip_fixed (c : ascii) (s : string) :
  PyStr.is_space c = false → PyStr.lstrip (String c s) = String c s.
Proof. intros Hc. simpl. by rewrite Hc. Qed.

Lemma strip_idem (s : string) : PyStr.strip (PyStr.strip s) = PyStr.strip s.
Proof.
  unfold PyStr.strip.
  destruct (lstrip_head s) as [->|(c & s' & -> & Hc)]; [done|].
  rewrite rstrip_unfold, Hc, andb_false_r, (lstrip_fixed _ _ Hc).
  rewrite rstrip_unfold, rstrip_idem. by rewrite Hc, andb_false_r.
Qed.

Lemma all_chars_lstrip (P : ascii → bool) (s : string) :
  all_chars P s = true → all_chars P (PyStr.lstrip s) = true.
Proof.
  induction s as [|c s IH]; [done|]. simpl.
  intros [Hc Hs]%andb_true_iff. destruct (PyStr.is_space c); [auto|].
  simpl. by rewrite Hc, Hs.
Qed.

Lemma all_chars_rstrip (P : ascii → bool) (s : string) :
  all_chars P s = true → all_chars P (PyStr.rstrip s) = true.
Proof.
  induction s as [|c s IH]; [done|]. rewrite rstrip_unfold. simpl.
  intros [Hc Hs]%andb_true_iff.
  destruct (_ && _); [done|]. simpl. by rewrite Hc, IH.
Qed.

Lemma all_chars_strip (P : ascii → bool) (s : string) :
  all_chars P s = true → all_chars P (PyStr.strip s) = true.
Proof. intros Hs. by apply all_chars_rstrip, all_chars_lstrip. Qed.

Lemma all_chars_split_head (P : ascii → bool) (pat s : string) :
  all_chars P s = true → all_chars P (PyStr.split_head pat s) = true.
Proof.
  induction s as [|c s IH]; rewrite split_head_unfold.
  - by destruct (String.prefix pat "").
  - cbn [all_chars]. intros [Hc Hs]%andb_true_iff.
    destruct (String.prefix pat (String c s)); [done|].
    cbn [all_chars]. by rewrite Hc, IH.
Qed.

Lemma split_head_newline (s : string) :
  all_chars not_newline (PyStr.split_head PyStr.nl s) = true.
Proof.
  induction s as [|c s IH]; rewrite split_head_unfold; [done|].
  destruct (String.prefix PyStr.nl (String c s)) eqn:Hprefix; [done|].
  cbn [all_chars]. rewrite IH, andb_true_r. unfold not_newline.
  apply negb_true_iff, Ascii.eqb_neq. intros ->.
  revert Hprefix. clear. by destruct s.
Qed.

Lemma split_char_go_pieces (sep : ascii) (cur s : string) :
  all_chars (λ c, negb (Ascii.eqb c sep)) cur = true →
  Forall (λ piece, all_chars (λ c, negb (Ascii.eqb c sep)) piece = true)
         (PyStr.split_char_go sep cur s).
Proof.
  revert cur. induction s as [|c s IH]; intros cur Hcur; simpl.
  - by repeat constructor.
  - destruct (Ascii.eqb c sep) eqn:Hc.
    + constructor; [done|]. by apply IH.
    + apply IH. rewrite all_chars_app, Hcur. simpl. by rewrite Hc.
Qed.

Lemma split_char_go_piece (sep : ascii) (cur w rest : string) :
  all_chars (λ c, negb (Ascii.eqb c sep)) w = true →
  PyStr.split_char_go sep cur (w +:+ rest)
  = PyStr.split_char_go sep (cur +:+ w) rest.
Proof.
  revert cur. induction w as [|c w IH]; intros cur.
  - intros _. by rewrite string_app_nil_l, string_app_nil_r.
  - cbn [all_chars]. intros [Hc Hw]%andb_true_iff.
    apply negb_true_iff in Hc. rewrite string_app_cons.
    cbn [PyStr.split_char_go]. by rewrite Hc, IH, string_app_snoc.
Qed.

Lemma split_char_join (pieces : list string) :
  pieces ≠ [] →
  Forall (λ piece, all_chars not_newline piece = true) pieces →
  PyStr.split_char PyStr.newline (PyStr.join PyStr.nl pieces) = pieces.
Proof.
  intros Hne Hpieces. unfold PyStr.split_char.
  induction Hpieces as [|piece pieces Hpiece _ IH]; [done|].
  destruct pieces as [|piece' pieces].
  - cbn [PyStr.join]. rewrite <-(string_app_nil_r piece) at 1.
    by rewrite split_char_go_piece, string_app_nil_l.
  - change (PyStr.join PyStr.nl (piece :: piece' :: pieces))
      with (piece +:+ String PyStr.newline
                        (PyStr.join PyStr.nl (piece' :: pieces))).
    rewrite split_char_go_piece, string_app_nil_l by done.
    cbn [PyStr.split_char_go]. rewrite Ascii.eqb_refl.
    by rewrite IH.
Qed.

Lemma join_nonempty (sep piece : string) (pieces : list string) :
  piece ≠ "" → PyStr.join sep (piece :: pieces) ≠ "".
Proof.
  intros Hne. destruct pieces as [|piece' pieces]; [done|].
  change (PyStr.join sep (piece :: piece' :: pieces))
    with (piece +:+ sep +:+ PyStr.join sep (piece' :: pieces)).
  intros Hnil%(f_equal String.length). rewrite string_length_app in Hnil.
  destruct piece; [done|]. simpl in Hnil. lia.
Qed.

Lemma strip_filter_fixed (perks : list string) :
  Forall (λ perk, perk ≠ "" ∧ stripped perk) perks →
  filter (λ p, p ≠ "") (map PyStr.strip perks) = perks.
Proof.
  induction 1 as [|perk perks [Hne Hstrip] _ IH]; [done|].
  rewrite map_cons, filter_cons, Hstrip, IH. by rewrite decide_True.
Qed.

Lemma parse_perks_Forall (perk_string : string) :
  Forall (λ perk, perk ≠ "" ∧ stripped perk
                  ∧ all_chars not_newline perk = true)
         (SheetParser.parse_perks perk_string).
Proof.
  unfold SheetParser.parse_perks.
  destruct (String.eqb perk_string ""); [constructor|].
  apply Forall_forall. intros perk [Hne Hin]%list_elem_of_filter.
  apply list_elem_of_fmap in Hin as (piece & -> & Hpiece).
  split_and!; [done|apply strip_idem|].
  apply all_chars_strip.
  pose proof (split_char_go_pieces PyStr.newline "" perk_string eq_refl)
    as Hpieces.
  rewrite Forall_forall in Hpieces. by apply Hpieces.
Qed.

End Strip.

Section Lines.

Lemma join_cons (sep piece : string) (pieces : list string) :
  pieces ≠ [] →
  PyStr.join sep (piece :: pieces) = piece +:+ sep +:+ PyStr.join sep pieces.
Proof. by destruct pieces. Qed.

Lemma split_char_go_nonempty (sep : ascii) (cur s : string) :
  PyStr.split_char_go sep cur s ≠ [].
Proof.
  revert cur. induction s as [|c s IH]; intros cur; simpl; [done|].
  destruct (Ascii.eqb c sep); [done|apply IH].
Qed.

Lemma join_split_char_go (cur s : string) :
  PyStr.join PyStr.nl (PyStr.split_char_go PyStr.newline cur s) = cur +:+ s.
Proof.
  revert cur. induction s as [|c s IH]; intros cur; simpl.
  - by rewrite string_app_nil_r.
  - destruct (Ascii.eqb_spec c PyStr.newline) as [->|Hne].
    + rewrite join_cons by apply split_char_go_nonempty.
      by rewrite IH, string_app_nil_l.
    + by rewrite IH, string_app_snoc.
Qed.

Lemma join_split_char (s : string) :
  PyStr.join PyStr.nl (PyStr.split_char PyStr.newline s) = s.
Proof.
  unfold PyStr.split_char. by rewrite join_split_char_go, string_app_nil_l.
Qed.

(** The perks of a cell are its non-empty stripped lines, in order. *)
Lemma parse_perks_lines (lines : list string) :
  lines ≠ [] →
  Forall (λ line, all_chars not_newline line = true) lines →
  SheetParser.parse_perks (PyStr.join PyStr.nl lines)
  = filter (λ perk, perk ≠ "") (map PyStr.strip lines).
Proof.
  intros Hne Hlines. unfold SheetParser.parse_perks.
  rewrite split_char_join by done.
  destruct (String.eqb_spec (PyStr.join PyStr.nl lines) "") as [Hnil|]; [|done].
  destruct lines as [|line [|line' lines]]; [done| |].
  - simpl in Hnil. by rewrite Hnil.
  - rewrite join_cons in Hnil by done.
    apply (f_equal String.length) in Hnil.
    rewrite !string_length_app in Hnil. simpl in Hnil. lia.
Qed.
End Lines.

(** X21.  The perks [parse_perks] returns are the lines of the cell, each
    without the white space at its ends, the empty ones left out, in the
    order of the cell: the cell is lines without line break joined by line
    breaks, and in whatever way it is written so, the perks are these lines
    stripped and filtered.  Hence every perk is non-empty, has no white
    space at either end and no line break; and parsing the perks joined by
    line breaks gives them back. *)
Theorem parse_perks_clean (perk_string : string) :
  let perks := SheetParser.parse_perks perk_string in
  (∃ lines,
     PyStr.join PyStr.nl lines = perk_string
     ∧ lines ≠ []
     ∧ Forall (λ line, all_chars not_newline line = true) lines
     ∧ perks = filter (λ perk, perk ≠ "") (map PyStr.strip lines))
  ∧ (∀ lines,
       PyStr.join PyStr.nl lines = perk_string →
       lines ≠ [] →
       Forall (λ line, all_chars not_newline line = true) lines →
       perks = filter (λ perk, perk ≠ "") (map PyStr.strip lines))
  ∧ Forall (λ perk, perk ≠ "" ∧ stripped perk
                    ∧ all_chars not_newline perk = true) perks
  ∧ SheetParser.parse_perks (PyStr.join PyStr.nl perks) = perks.
Proof.
  assert (Hall : ∀ lines,
    PyStr.join PyStr.nl lines = perk_string →
    lines ≠ [] →
    Forall (λ line, all_chars not_newline line = true) lines →
    SheetParser.parse_perks perk_string
    = filter (λ perk, perk ≠ "") (map PyStr.strip lines)).
  { intros lines <- Hne Hlines. by apply parse_perks_lines. }
  pose proof (parse_perks_Forall perk_string) as Hclean.
  cbn zeta. split_and!; [|done|done|].
  - exists (PyStr.split_char PyStr.newline perk_string).
    assert (Hlines : Forall (λ line, all_chars not_newline line = true)
                       (PyStr.split_char PyStr.newline perk_string))
      by (by apply split_char_go_pieces).
    split_and!; [apply join_split_char|apply split_char_go_nonempty|done|].
    apply Hall; [apply join_split_char|apply split_char_go_nonempty|done].
  - destruct (SheetParser.parse_perks perk_string) as [|perk perks]; [done|].
    rewrite parse_perks_lines; [|done|].
    + apply strip_filter_fixed. eapply Forall_impl; [done|].
      by intros p (? & ? & _).
    + eapply Forall_impl; [done|]. by intros p (_ & _ & ?).
Qed.

(** ** The tabs of the sheet *)

Module SheetTabLemmas.
Import SheetTab.

Lemma find_column_indices_loop_snoc (i : Z) (headers : list string)
  (header : string) (indices : Indices) :
  find_column_indices_loop i (headers ++ [header]) indices
  = find_column_indices_step (find_column_indices_loop i headers indices)
      (i + Z.of_nat (List.length headers)) header.
Proof.
  revert i indices. induction headers as [|h headers IH]; intros i indices.
  - simpl. by rewrite Z.add_0_r.
  - simpl. rewrite IH. f_equal. lia.
Qed.

Lemma index_of_step (column : Column) (indices : Indices) (i : Z)
  (header : string) :
  index_of column (find_column_indices_step indices i header)
  = if decide (header_key header = header_text column) then i
    else index_of column indices.
Proof.
  unfold find_column_indices_step. fold (header_key header).
  destruct (String.eqb_spec (header_key header) "name") as [->|?];
    [by destruct column|].
  destruct (String.eqb_spec (header_key header) "column 1") as [->|?];
    [by destruct column|].
  destruct (String.eqb_spec (header_key header) "column 2") as [->|?];
    [by destruct column|].
  destruct (String.eqb_spec (header_key header) "tier") as [->|?];
    [by destruct column|].
  destruct column; by rewrite decide_False.
Qed.

Lemma find_column_indices_snoc (column : Column) (headers : list string)
  (header : string) :
  index_of column (find_column_indices (headers ++ [header]))
  = if decide (header_key header = header_text column)
    then Z.of_nat (List.length headers)
    else index_of column (find_column_indices headers).
Proof.
  unfold find_column_indices.
  by rewrite find_column_indices_loop_snoc, index_of_step.
Qed.

Lemma find_column_indices_spec (column : Column) (headers : list string) :
  let i := index_of column (find_column_indices headers) in
  (i = (-1)%Z ∧ ∀ header, header ∈ headers →
                          header_key header ≠ header_text column)
  ∨ ∃ (n : nat) header,
      i = Z.of_nat n ∧ headers !! n = Some header
      ∧ header_key header = header_text column
      ∧ ∀ (m : nat) later, (n < m)%nat → headers !! m = Some later →
                           header_key later ≠ header_text column.
Proof.
  induction headers as [|header headers IH] using rev_ind.
  - left. split; [by destruct column|]. by intros h ?%elem_of_nil.
  - cbn zeta in *. rewrite find_column_indices_snoc.
    destruct (decide (header_key header = header_text column)) as [Hkey|Hkey].
    + right. exists (List.length headers), header. split_and!; [done| |done|].
      * by rewrite lookup_app_r, Nat.sub_diag by lia.
      * intros m later Hm Hlater. apply lookup_lt_Some in Hlater.
        rewrite length_app in Hlater. simpl in Hlater. lia.
    + destruct IH as [[Hnone Hall]|(n & h & Hn & Hh & Hhkey & Hlast)].
      * left. split; [done|]. intros h [?|Hh]%elem_of_app; [by apply Hall|].
        by apply list_elem_of_singleton in Hh as ->.
      * right. exists n, h. split_and!; [done| |done|].
        -- by apply lookup_app_l_Some.
        -- intros m later Hm Hlater.
           apply lookup_app_Some in Hlater as [?|[_ Hlater]]; [by eapply Hlast|].
           apply list_lookup_singleton_Some in Hlater as [_ <-]. done.
Qed.

End SheetTabLemmas.

Section ParseRow.
Import SheetParser.

Lemma parse_row_Some (name perk1 perk2 tier : string) (weapon : WeaponRoll) :
  parse_row name perk1 perk2 tier = Some weapon →
  name ≠ "" ∧ tier ≠ ""
  ∧ SheetParser.name weapon
    = PyStr.strip
        (PyStr.strip (PyStr.split_head "BRAVE version"
                        (PyStr.split_head PyStr.nl name)))
  ∧ SheetParser.tier weapon = PyStr.strip tier
  ∧ perks weapon = parse_perks perk1 ++ parse_perks perk2
  ∧ perks weapon ≠ [].
Proof.
  intros Hrow. pose proof (WeaponMatching.parse_row_perks _ _ _ _ _ Hrow)
    as Hperks.
  revert Hrow. unfold parse_row.
  destruct (String.eqb_spec name "") as [|Hname]; [done|].
  destruct (String.eqb_spec tier "") as [|Htier]; [done|]. cbn [orb].
  destruct (_ || _ || _ || _); [done|].
  case_bool_decide as Hnil; [done|].
  intros [= <-]. cbn in Hperks |- *. split_and!; try done;
    by rewrite <-Hperks.
Qed.

End ParseRow.

(** X22.  The index [find_column_indices] reports for a column is -1 exactly
    when no header reads, lower-cased and stripped, as the column's text;
    otherwise it is the position of the last such header. *)
Theorem find_column_indices_last (column : SheetTab.Column)
  (headers : list string) :
  let i := SheetTab.index_of column (SheetTab.find_column_indices headers) in
  (i = (-1)%Z
   ∧ ∀ header, header ∈ headers →
               SheetTab.header_key header ≠ SheetTab.header_text column)
  ∨ ∃ (n : nat) header,
      i = Z.of_nat n ∧ headers !! n = Some header
      ∧ SheetTab.header_key header = SheetTab.header_text column
      ∧ ∀ (m : nat) later, (n < m)%nat → headers !! m = Some later →
          SheetTab.header_key later ≠ SheetTab.header_text column.
Proof. apply SheetTabLemmas.find_column_indices_spec. Qed.

(** X23.  What [parse_tab] makes of the cell values of a tab: nothing when there
    are fewer than two rows or a required header is missing in the second
    row; otherwise at most one weapon per row from the third on, the first
    row playing no part.  Every weapon has at least one perk, its perks
    are non-empty stripped single lines, its name is stripped and holds no
    line break, and its tier is stripped. *)
Theorem parse_tab_weapons (values : list (list string)) :
  let weapons := SheetTab.parse_tab values in
  ((List.length values < 2)%nat → weapons = [])
  ∧ (∀ column,
       SheetTab.index_of column
         (SheetTab.find_column_indices (default [] (values !! 1%nat)))
       = (-1)%Z → weapons = [])
  ∧ (List.length weapons ≤ List.length values - 2)%nat
  ∧ (∀ first first' rest,
       values = first :: rest →
       SheetTab.parse_tab (first' :: rest) = weapons)
  ∧ Forall (λ weapon,
              SheetParser.perks weapon ≠ []
              ∧ Forall (λ perk, perk ≠ "" ∧ stripped perk
                                ∧ all_chars not_newline perk = true)
                       (SheetParser.perks weapon)
              ∧ stripped (SheetParser.name weapon)
              ∧ all_chars not_newline (SheetParser.name weapon) = true
              ∧ stripped (SheetParser.tier weapon))
           weapons.
Proof.
  cbn zeta. split_and!.
  - intros Hlen. unfold SheetTab.parse_tab.
    apply Nat.ltb_lt in Hlen. rewrite Hlen. by rewrite orb_true_r.
  - intros column Hmissing. unfold SheetTab.parse_tab.
    destruct (_ || _); [done|]. cbn zeta.
    replace (existsb _ _) with true; [done|]. symmetry.
    apply existsb_exists. exists (-1)%Z. split; [|done].
    rewrite <-Hmissing. unfold SheetTab.values_of.
    destruct column; simpl; auto.
  - unfold SheetTab.parse_tab.
    destruct (_ || _); [simpl; lia|]. cbn zeta.
    destruct (existsb _ _); [simpl; lia|].
    etrans; [apply omap_length_le|]. by rewrite length_drop.
  - intros first first' rest ->. unfold SheetTab.parse_tab.
    by rewrite !bool_decide_false by done.
  - unfold SheetTab.parse_tab.
    destruct (_ || _); [constructor|]. cbn zeta.
    destruct (existsb _ _); [constructor|].
    apply Forall_forall. intros weapon (row & _ & Hrow)%list_elem_of_omap.
    unfold SheetTab.parse_tab_row in Hrow.
    destruct (_ <=? _)%Z; [done|].
    apply parse_row_Some in Hrow as (_ & _ & -> & -> & Hperks & Hne).
    split_and!; [done| |apply strip_idem| |apply strip_idem].
    + rewrite Hperks. apply Forall_app. split; apply parse_perks_Forall.
    + do 2 apply all_chars_strip. apply all_chars_split_head.
      apply split_head_newline.
Qed.

(** ** The prompts *)

Module ConfigPromptLemmas.
Import ConfigManager ConfigPrompt.

Lemma get_tier_selection_find (answers : list (option Z)) :
  get_tier_selection answers
  = match list_find (valid_choice 4) answers with
    | Some (i, Some choice) =>
        Some (TierSelection_of choice, drop (S i) answers)
    | _ => None
    end.
Proof.
  induction answers as [|[choice|] rest IH]; [done|..].
  - cbn [get_tier_selection list_find].
    destruct (decide (valid_choice 4 (Some choice))) as [Hvalid|Hinvalid].
    + simpl in Hvalid.
      by rewrite (proj2 (Z.leb_le 1 choice)), (proj2 (Z.leb_le choice 4))
        by lia.
    + simpl in Hinvalid.
      replace ((1 <=? choice)%Z && (choice <=? 4)%Z) with false.
      2:{ symmetry. apply not_true_is_false.
          rewrite andb_true_iff, !Z.leb_le. lia. }
      rewrite IH. by destruct (list_find _ rest) as [[i [c|]]|].
  - cbn [get_tier_selection list_find].
    rewrite decide_False by (by intros []).
    rewrite IH. by destruct (list_find _ rest) as [[i [c|]]|].
Qed.

Lemma get_perk_option_find (answers : list (option Z)) :
  get_perk_option answers
  = match list_find (valid_choice 3) answers with
    | Some (i, Some choice) =>
        Some (PerkOption_of choice, drop (S i) answers)
    | _ => None
    end.
Proof.
  induction answers as [|[choice|] rest IH]; [done|..].
  - cbn [get_perk_option list_find].
    destruct (decide (valid_choice 3 (Some choice))) as [Hvalid|Hinvalid].
    + simpl in Hvalid.
      by rewrite (proj2 (Z.leb_le 1 choice)), (proj2 (Z.leb_le choice 3))
        by lia.
    + simpl in Hinvalid.
      replace ((1 <=? choice)%Z && (choice <=? 3)%Z) with false.
      2:{ symmetry. apply not_true_is_false.
          rewrite andb_true_iff, !Z.leb_le. lia. }
      rewrite IH. by destruct (list_find _ rest) as [[i [c|]]|].
  - cbn [get_perk_option list_find].
    rewrite decide_False by (by intros []).
    rewrite IH. by destruct (list_find _ rest) as [[i [c|]]|].
Qed.




End ConfigPromptLemmas.

Section Consumed.
Import ConfigManager ConfigPrompt ConfigPromptLemmas.




End Consumed.

(** X24.  Each prompt returns the first answer in its range, skipping the lines
    that are no number or out of range, and leaves the lines after it
    unread; when no line is valid the input runs out. *)
Theorem prompts_take_first_valid (answers : list (option Z)) :
  ConfigPrompt.get_tier_selection answers
  = match list_find (ConfigPrompt.valid_choice 4) answers with
    | Some (i, Some choice) =>
        Some (ConfigPrompt.TierSelection_of choice, drop (S i) answers)
    | _ => None
    end
  ∧ ConfigPrompt.get_perk_option answers
    = match list_find (ConfigPrompt.valid_choice 3) answers with
      | Some (i, Some choice) =>
          Some (ConfigPrompt.PerkOption_of choice, drop (S i) answers)
      | _ => None
      end.
Proof.
  split.
  - apply ConfigPromptLemmas.get_tier_selection_find.
  - apply ConfigPromptLemmas.get_perk_option_find.
Qed.



(** ** The processing loop *)

Module ProcessWeaponsLemmas.
Import ItemMatcher Matching MatcherFacts Lookup LookupLemmas.
Import Resolution ProcessWeapons.

Lemma weapons_append_fresh (weapon_type : string) (result : MatchedWeapon)
  (d : list (string * list MatchedWeapon)) :
  weapon_type ∉ map fst d →
  weapons_append weapon_type result d = d ++ [(weapon_type, [result])].
Proof.
  induction d as [|[k v] d IH]; simpl; [done|].
  intros Hout. destruct (String.eqb_spec k weapon_type) as [->|Hne].
  - destruct Hout. left.
  - rewrite IH; [done|]. intros Hin. apply Hout. by right.
Qed.

Lemma weapons_append_last (weapon_type : string) (result : MatchedWeapon)
  (d : list (string * list MatchedWeapon)) (results : list MatchedWeapon) :
  weapon_type ∉ map fst d →
  weapons_append weapon_type result (d ++ [(weapon_type, results)])
  = d ++ [(weapon_type, results ++ [result])].
Proof.
  induction d as [|[k v] d IH]; simpl.
  - intros _. by rewrite (proj2 (String.eqb_eq _ _) eq_refl).
  - intros Hout. destruct (String.eqb_spec k weapon_type) as [->|Hne].
    + destruct Hout. left.
    + rewrite IH; [done|]. intros Hin. apply Hout. by right.
Qed.

Lemma weapons_append_group (weapon_type : string) (result : MatchedWeapon)
  (d : list (string * list MatchedWeapon)) (results : list MatchedWeapon) :
  weapon_type ∉ map fst d →
  weapons_append weapon_type result (d ++ group weapon_type results)
  = d ++ group weapon_type (results ++ [result]).
Proof.
  intros Hout. destruct results as [|r results].
  - simpl. rewrite app_nil_r. by apply weapons_append_fresh.
  - by apply weapons_append_last.
Qed.

Section WithCatalog.
Context `{SetIteration}.
Variable manifest : list Item.

Lemma resolved_rows_cons (weapon : SheetParser.WeaponRoll)
  (rows : list SheetParser.WeaponRoll) :
  resolved_rows manifest (weapon :: rows)
  = match matched_weapon manifest weapon with
    | Some result => result :: resolved_rows manifest rows
    | None => resolved_rows manifest rows
    end.
Proof. done. Qed.

Lemma matched_weapon_None (weapon : SheetParser.WeaponRoll) :
  matched_weapon manifest weapon = None
  ↔ weapon_result manifest (SheetParser.name weapon) = [].
Proof.
  unfold matched_weapon.
  by destruct (weapon_result manifest (SheetParser.name weapon)).
Qed.

Lemma weapons_loop_run (weapon_type : string)
  (rows : list SheetParser.WeaponRoll)
  (d : list (string * list MatchedWeapon)) (results : list MatchedWeapon)
  (n m : nat) (s : State) :
  consistent manifest s →
  weapon_type ∉ map fst d →
  ∃ s',
    weapons_loop manifest weapon_type rows
      {| weapons := d ++ group weapon_type results;
         processed := n; matched := m |} s
    = Ok ({| weapons :=
               d ++ group weapon_type (results ++ resolved_rows manifest rows);
             processed := n + List.length rows;
             matched := m + List.length (resolved_rows manifest rows) |}, s')
    ∧ consistent manifest s'
    ∧ missing_weapons s'
      = list_to_set (missing_weapon_names manifest rows) ∪ missing_weapons s
    ∧ missing_perks s'
      = list_to_set (missing_perk_names manifest rows) ∪ missing_perks s.
Proof.
  intros Hcons Hout. revert results n m s Hcons.
  induction rows as [|weapon rows IH]; intros results n m s Hcons.
  - exists s. rewrite app_nil_r, !Nat.add_0_r.
    split_and!; [done..| |]; set_solver.
  - cbn [weapons_loop]. unfold mbind at 1, M_bind at 1.
    destruct (MatchWeapon.match_weapon_pure manifest weapon s Hcons)
      as (s1 & -> & Hcons1 & Hmissing).
    rewrite resolved_rows_cons.
    unfold missing_after in Hmissing.
    unfold missing_weapon_names, missing_perk_names.
    rewrite !filter_cons.
    destruct (matched_weapon manifest weapon) as [result|] eqn:Hmatched.
    + assert (Hres : weapon_result manifest (SheetParser.name weapon) ≠ []).
      { intros Hnone%matched_weapon_None. by rewrite Hnone in Hmatched. }
      destruct (weapon_result manifest (SheetParser.name weapon))
        as [|weapon_match others] eqn:Hresult; [done|].
      injection Hmissing as Hw Hp.
      cbn [weapons processed matched].
      rewrite weapons_append_group by done.
      destruct (IH (results ++ [result]) (n + 1)%nat (m + 1)%nat s1 Hcons1)
        as (s2 & -> & Hcons2 & Hw2 & Hp2).
      exists s2. split_and!; [|done|..].
      * rewrite <-app_assoc. simpl. do 3 f_equal; lia.
      * rewrite Hw2, Hw. rewrite decide_False by done. done.
      * rewrite Hp2, Hp. rewrite decide_True by done.
        unfold missing_perk_names. simpl.
        rewrite list_to_set_app_L. set_solver.
    + apply matched_weapon_None in Hmatched as Hresult.
      rewrite Hresult in Hmissing |- *. injection Hmissing as Hw Hp.
      cbn [weapons processed matched].
      destruct (IH results (n + 1)%nat m s1 Hcons1)
        as (s2 & -> & Hcons2 & Hw2 & Hp2).
      exists s2. split_and!; [|done|..].
      * simpl. do 3 f_equal; lia.
      * rewrite Hw2, Hw. rewrite decide_True by done. simpl.
        unfold missing_weapon_names. set_solver.
      * rewrite Hp2, Hp. rewrite decide_False by (by intros ?).
        done.
Qed.

Lemma missing_weapon_names_app (rows rows' : list SheetParser.WeaponRoll) :
  missing_weapon_names manifest (rows ++ rows')
  = missing_weapon_names manifest rows ++ missing_weapon_names manifest rows'.
Proof. unfold missing_weapon_names. by rewrite filter_app, map_app. Qed.

Lemma missing_perk_names_app (rows rows' : list SheetParser.WeaponRoll) :
  missing_perk_names manifest (rows ++ rows')
  = missing_perk_names manifest rows ++ missing_perk_names manifest rows'.
Proof. unfold missing_perk_names. by rewrite filter_app, bind_app. Qed.

Lemma resolved_rows_app (rows rows' : list SheetParser.WeaponRoll) :
  resolved_rows manifest (rows ++ rows')
  = resolved_rows manifest rows ++ resolved_rows manifest rows'.
Proof. apply omap_app. Qed.

Lemma group_keys (weapon_type : string) (results : list MatchedWeapon)
  (k : string) :
  k ∈ map fst (group weapon_type results) → k = weapon_type.
Proof.
  destruct results; simpl; [by intros ?%elem_of_nil|].
  by intros ->%list_elem_of_singleton.
Qed.

Lemma types_loop_run
  (all_weapons : list (string * list SheetParser.WeaponRoll))
  (d : list (string * list MatchedWeapon)) (n m : nat) (s : State) :
  consistent manifest s →
  NoDup (map fst d ++ map fst all_weapons) →
  ∃ s',
    types_loop manifest all_weapons
      {| weapons := d; processed := n; matched := m |} s
    = Ok ({| weapons := d ++ grouped manifest all_weapons;
             processed := n + List.length (all_weapons ≫= snd);
             matched :=
               m + List.length (resolved_rows manifest (all_weapons ≫= snd)) |},
          s')
    ∧ consistent manifest s'
    ∧ missing_weapons s'
      = list_to_set (missing_weapon_names manifest (all_weapons ≫= snd))
        ∪ missing_weapons s
    ∧ missing_perks s'
      = list_to_set (missing_perk_names manifest (all_weapons ≫= snd))
        ∪ missing_perks s.
Proof.
  revert d n m s.
  induction all_weapons as [|[weapon_type rows] rest IH];
    intros d n m s Hcons Hdup.
  - exists s. simpl. rewrite app_nil_r, !Nat.add_0_r.
    split_and!; [done..| |]; set_solver.
  - cbn [types_loop]. unfold mbind at 1, M_bind at 1.
    assert (Hout : weapon_type ∉ map fst d).
    { apply NoDup_app in Hdup as (_ & Hdup & _). intros Hin.
      apply (Hdup _ Hin). left. }
    destruct (weapons_loop_run weapon_type rows d [] n m s Hcons Hout)
      as (s1 & Hrun & Hcons1 & Hw1 & Hp1).
    simpl in Hrun. rewrite app_nil_r in Hrun. rewrite Hrun.
    destruct (IH (d ++ group weapon_type (resolved_rows manifest rows))
                (n + List.length rows)%nat
                (m + List.length (resolved_rows manifest rows))%nat s1 Hcons1)
      as (s2 & -> & Hcons2 & Hw2 & Hp2).
    { rewrite map_app. simpl in Hdup.
      apply NoDup_app in Hdup as (Hd & Hdisj & Hrest).
      apply NoDup_cons in Hrest as [Hfresh Hrest].
      rewrite <-app_assoc. apply NoDup_app. split_and!; [done| |].
      - intros k Hk [->%group_keys|Hin]%elem_of_app; [done|].
        apply (Hdisj k Hk). by right.
      - apply NoDup_app. split_and!; [|by intros k ->%group_keys|done].
        destruct (resolved_rows manifest rows); simpl;
          [constructor|apply NoDup_singleton]. }
    exists s2. split_and!; [|done|..].
    + unfold grouped. rewrite !bind_cons. cbn [fst snd].
      rewrite resolved_rows_app, !length_app, <-app_assoc.
      do 3 f_equal; lia.
    + rewrite Hw2, Hw1, bind_cons, missing_weapon_names_app.
      rewrite list_to_set_app_L. cbn [snd]. set_solver.
    + rewrite Hp2, Hp1, bind_cons, missing_perk_names_app.
      rewrite list_to_set_app_L. cbn [snd]. set_solver.
Qed.

Lemma grouped_values
  (all_weapons : list (string * list SheetParser.WeaponRoll)) :
  grouped manifest all_weapons ≫= snd
  = resolved_rows manifest (all_weapons ≫= snd).
Proof.
  induction all_weapons as [|[weapon_type rows] rest IH]; [done|].
  unfold grouped. rewrite !bind_cons, bind_app, resolved_rows_app.
  cbn [fst snd]. fold (grouped manifest rest). rewrite IH. f_equal.
  destruct (resolved_rows manifest rows); simpl; [done|].
  by rewrite app_nil_r.
Qed.

End WithCatalog.
End ProcessWeaponsLemmas.

(** X26.  The loop over the parsed tabs, run on a new matcher: every row is
    processed; [self.weapons] receives, per tab and in the order of the
    sheet, the rows that resolve, with no entry for a tab none of whose
    rows resolves; the counter [matched] counts them; the two sets of
    missing names receive the names of the rows without weapon candidate
    and the perks without candidate of the rows that resolve. *)
Theorem process_weapons_report `{SetIteration} (manifest : list Item)
  (all_weapons : list (string * list SheetParser.WeaponRoll))
  (s : ItemMatcher.State) :
  Lookup.consistent manifest s →
  NoDup (map fst all_weapons) →
  let rows := all_weapons ≫= snd in
  ∃ p s',
    ProcessWeapons.process_weapons manifest all_weapons [] s = Ok (p, s')
    ∧ ProcessWeapons.weapons p = ProcessWeapons.grouped manifest all_weapons
    ∧ ProcessWeapons.weapons p ≫= snd
      = omap (Resolution.matched_weapon manifest) rows
    ∧ ProcessWeapons.processed p = List.length rows
    ∧ ProcessWeapons.matched p
      = List.length (omap (Resolution.matched_weapon manifest) rows)
    ∧ (ProcessWeapons.matched p ≤ ProcessWeapons.processed p)%nat
    ∧ Lookup.consistent manifest s'
    ∧ ItemMatcher.missing_weapons s'
      = list_to_set (ProcessWeapons.missing_weapon_names manifest rows)
        ∪ ItemMatcher.missing_weapons s
    ∧ ItemMatcher.missing_perks s'
      = list_to_set (ProcessWeapons.missing_perk_names manifest rows)
        ∪ ItemMatcher.missing_perks s.
Proof.
  intros Hcons Hdup rows.
  destruct (ProcessWeaponsLemmas.types_loop_run manifest all_weapons [] 0 0 s
              Hcons Hdup) as (s' & Hrun & Hcons' & Hw & Hp).
  eexists _, s'. split; [exact Hrun|].
  cbn [ProcessWeapons.weapons ProcessWeapons.processed ProcessWeapons.matched].
  split_and!; [done| |done|done| |done..].
  - apply ProcessWeaponsLemmas.grouped_values.
  - apply omap_length_le.
Qed.

(** X26, on an example. *)
Lemma process_weapons_report_witness :
  let all_weapons :=
    [("Hand Cannons", [Sheets.fatebringer; Sheets.gjallarhorn])] in
  let rows := all_weapons ≫= snd in
  ∃ p s',
    ProcessWeapons.process_weapons (H := first_seen_order) Catalogs.armory
      all_weapons [] ItemMatcher.init = Ok (p, s')
    ∧ ProcessWeapons.weapons p
      = ProcessWeapons.grouped (H := first_seen_order) Catalogs.armory
          all_weapons
    ∧ ProcessWeapons.weapons p ≫= snd
      = omap (Resolution.matched_weapon (H := first_seen_order)
                Catalogs.armory) rows
    ∧ ProcessWeapons.processed p = List.length rows
    ∧ ProcessWeapons.matched p
      = List.length (omap (Resolution.matched_weapon (H := first_seen_order)
                             Catalogs.armory) rows)
    ∧ (ProcessWeapons.matched p ≤ ProcessWeapons.processed p)%nat
    ∧ Lookup.consistent (H := first_seen_order) Catalogs.armory s'
    ∧ ItemMatcher.missing_weapons s'
      = list_to_set (ProcessWeapons.missing_weapon_names
                       (H := first_seen_order) Catalogs.armory rows)
        ∪ ItemMatcher.missing_weapons ItemMatcher.init
    ∧ ItemMatcher.missing_perks s'
      = list_to_set (ProcessWeapons.missing_perk_names
                       (H := first_seen_order) Catalogs.armory rows)
        ∪ ItemMatcher.missing_perks ItemMatcher.init.
Proof.
  apply (process_weapons_report (H := first_seen_order) Catalogs.armory
           [("Hand Cannons", [Sheets.fatebringer; Sheets.gjallarhorn])]
           ItemMatcher.init).
  - apply LookupLemmas.consistent_init.
  - apply NoDup_singleton.
Defined.

(** ** The wishlist file *)

Module WishlistBuilderLemmas.
Import WishlistBuilder.

Lemma ltb_false (a b : string) : String.ltb a b = false ↔ String.le b a.
Proof.
  unfold String.le, String.leb, String.ltb.
  rewrite (String.compare_antisym a b).
  destruct (String.compare b a); simpl; naive_solver.
Qed.

Lemma tuple_le_spec (k1 k2 : string * string) :
  tuple_le k1 k2
  ↔ (k1.1 ≠ k2.1 ∧ String.le k1.1 k2.1)
    ∨ (k1.1 = k2.1 ∧ String.le k1.2 k2.2).
Proof.
  unfold tuple_le, tuple_lt.
  destruct (String.eqb_spec k2.1 k1.1) as [Heq|Hne]; rewrite ltb_false.
  - split; [by right|]. by intros [[? _]|[_ ?]].
  - split; [left; split; [by intros ?|done]|]. by intros [[_ ?]|[? _]].
Qed.

#[global] Instance tuple_le_trans : Transitive tuple_le.
Proof.
  intros k1 k2 k3. rewrite !tuple_le_spec.
  intros [[Hne1 H1]|[Heq1 H1]] [[Hne2 H2]|[Heq2 H2]].
  - left. split; [|by etrans]. intros Heq. rewrite Heq in H1.
    apply Hne2. by apply (anti_symm String.le).
  - left. rewrite <-Heq2. done.
  - left. rewrite Heq1. done.
  - right. split; [congruence|by etrans].
Qed.

Lemma tuple_lt_le (k1 k2 : string * string) :
  tuple_lt k1 k2 = true → tuple_le k1 k2.
Proof.
  unfold tuple_le, tuple_lt.
  rewrite (String.eqb_sym k2.1 k1.1).
  destruct (String.eqb_spec k1.1 k2.1) as [Heq|Hne].
  - intros Hlt. apply ltb_false. apply not_false_iff_true in Hlt.
    rewrite ltb_false in Hlt. by destruct (total String.le k1.2 k2.2).
  - intros Hlt. apply ltb_false. apply not_false_iff_true in Hlt.
    rewrite ltb_false in Hlt. by destruct (total String.le k1.1 k2.1).
Qed.

Lemma tuple_lt_irrefl (k : string * string) : tuple_lt k k = false.
Proof. apply tuple_le_spec. right. done. Qed.

Lemma insert_asc_perm (x : MatchedWeapon) (l : list MatchedWeapon) :
  insert_asc x l ≡ₚ x :: l.
Proof.
  induction l as [|y ys IH]; simpl; [done|].
  destruct (tuple_lt (type_name y) (type_name x)); [|done].
  rewrite IH. apply Permutation_swap.
Qed.

Lemma sort_asc_perm (l : list MatchedWeapon) : sort_asc l ≡ₚ l.
Proof.
  induction l as [|x xs IH]; simpl; [done|].
  by rewrite insert_asc_perm, IH.
Qed.

Lemma insert_asc_sorted (x : MatchedWeapon) (l : list MatchedWeapon) :
  StronglySorted (λ a b, tuple_le (type_name a) (type_name b)) l →
  StronglySorted (λ a b, tuple_le (type_name a) (type_name b))
                 (insert_asc x l).
Proof.
  induction l as [|y ys IH]; simpl; intros Hsorted.
  - repeat constructor.
  - apply StronglySorted_cons in Hsorted as [Hall Hsorted].
    destruct (tuple_lt (type_name y) (type_name x)) eqn:Hlt.
    + apply StronglySorted_cons. split; [|by apply IH].
      rewrite insert_asc_perm. constructor; [|done].
      by apply tuple_lt_le.
    + apply StronglySorted_cons. split; [|by apply StronglySorted_cons].
      constructor; [done|].
      eapply Forall_impl; [done|]. intros z Hz.
      by trans (type_name y).
Qed.

Lemma sort_asc_sorted (l : list MatchedWeapon) :
  StronglySorted (λ a b, tuple_le (type_name a) (type_name b)) (sort_asc l).
Proof.
  induction l as [|x xs IH]; simpl; [constructor|].
  by apply insert_asc_sorted.
Qed.

Lemma insert_asc_stable (k : string * string) (x : MatchedWeapon)
  (l : list MatchedWeapon) :
  filter (λ y, type_name y = k) (insert_asc x l)
  = filter (λ y, type_name y = k) (x :: l).
Proof.
  induction l as [|y ys IH]; simpl; [done|].
  destruct (tuple_lt (type_name y) (type_name x)) eqn:Hlt; [|done].
  rewrite filter_cons, IH, !filter_cons.
  destruct (decide (type_name x = k)) as [Hx|Hx];
    destruct (decide (type_name y = k)) as [Hy|Hy]; try done.
  by rewrite Hx, Hy, tuple_lt_irrefl in Hlt.
Qed.

Lemma sort_asc_stable (k : string * string) (l : list MatchedWeapon) :
  filter (λ y, type_name y = k) (sort_asc l)
  = filter (λ y, type_name y = k) l.
Proof.
  induction l as [|x xs IH]; simpl; [done|].
  by rewrite insert_asc_stable, !filter_cons, IH.
Qed.

End WishlistBuilderLemmas.

(** X27.  The file [generate_wishlist] writes is the header, which counts every
    matched weapon, followed by the blocks of the weapons the policy
    keeps, in ascending order of (type, name); weapons with the same type
    and name keep the order in which [self.weapons] holds them. *)
Theorem wishlist_file (answers rest : list (option Z))
  (configs : list ConfigManager.TierConfig) (now output_path : string)
  (matched_weapons : list (string * list MatchedWeapon)) :
  ConfigPrompt.get_config answers = Some (configs, rest) →
  ∃ ordered,
    WishlistBuilder.generate_wishlist answers now matched_weapons output_path
    = Some (WishlistBuilder.header now
              (List.length (matched_weapons ≫= snd)) output_path
            +:+ PyStr.join PyStr.nl
                  (omap (λ weapon_data,
                           WishlistGenerator._format_weapon_rolls configs
                             (WishlistGenerator.process_matched_weapon
                                weapon_data))
                        ordered))
    ∧ ordered ≡ₚ matched_weapons ≫= snd
    ∧ StronglySorted
        (λ a b, WishlistBuilder.tuple_le (WishlistBuilder.type_name a)
                                          (WishlistBuilder.type_name b))
        ordered
    ∧ (∀ a b i j,
         ordered !! i = Some a → ordered !! j = Some b → (i < j)%nat →
         (mw_type a ≠ mw_type b ∧ String.le (mw_type a) (mw_type b))
         ∨ (mw_type a = mw_type b ∧ String.le (mw_name a) (mw_name b)))
    ∧ (∀ k, filter (λ w, WishlistBuilder.type_name w = k) ordered
            = filter (λ w, WishlistBuilder.type_name w = k)
                     (matched_weapons ≫= snd)).
Proof.
  intros Hconfig.
  exists (WishlistBuilder.sort_asc (matched_weapons ≫= snd)).
  split_and!.
  - unfold WishlistBuilder.generate_wishlist. rewrite Hconfig. simpl.
    unfold WishlistGenerator.generate_dim_wishlist.
    rewrite (Permutation_length
               (WishlistBuilderLemmas.sort_asc_perm (matched_weapons ≫= snd))).
    by rewrite entries_omap.
  - apply WishlistBuilderLemmas.sort_asc_perm.
  - apply WishlistBuilderLemmas.sort_asc_sorted.
  - intros a b i j Ha Hb Hij.
    apply (WishlistBuilderLemmas.tuple_le_spec
             (WishlistBuilder.type_name a) (WishlistBuilder.type_name b)).
    by apply (StronglySorted_lookup
                (λ a b, WishlistBuilder.tuple_le (WishlistBuilder.type_name a)
                                                  (WishlistBuilder.type_name b))
                _ i j a b
                (WishlistBuilderLemmas.sort_asc_sorted (matched_weapons ≫= snd))).
  - intros k. apply WishlistBuilderLemmas.sort_asc_stable.
Qed.

(** X27, on an example. *)
Lemma wishlist_file_witness :
  let answers := [Some 2; Some 3; Some 1]%Z in
  let configs :=
    [ {| ConfigManager.tier := "A";
         ConfigManager.perk_option := ConfigManager.ANY_PERKS |};
      {| ConfigManager.tier := "S";
         ConfigManager.perk_option := ConfigManager.BOTH_COLUMNS |} ] in
  let matched_weapons := Sheets.matched in
  ∃ ordered,
    WishlistBuilder.generate_wishlist answers "2024-01-01 00:00:00"
      matched_weapons "out/dim_wishlist.txt"
    = Some (WishlistBuilder.header "2024-01-01 00:00:00"
              (List.length (matched_weapons ≫= snd)) "out/dim_wishlist.txt"
            +:+ PyStr.join PyStr.nl
                  (omap (λ weapon_data,
                           WishlistGenerator._format_weapon_rolls configs
                             (WishlistGenerator.process_matched_weapon
                                weapon_data))
                        ordered))
    ∧ ordered ≡ₚ matched_weapons ≫= snd
    ∧ StronglySorted
        (λ a b, WishlistBuilder.tuple_le (WishlistBuilder.type_name a)
                                          (WishlistBuilder.type_name b))
        ordered
    ∧ (∀ a b i j,
         ordered !! i = Some a → ordered !! j = Some b → (i < j)%nat →
         (mw_type a ≠ mw_type b ∧ String.le (mw_type a) (mw_type b))
         ∨ (mw_type a = mw_type b ∧ String.le (mw_name a) (mw_name b)))
    ∧ (∀ k, filter (λ w, WishlistBuilder.type_name w = k) ordered
            = filter (λ w, WishlistBuilder.type_name w = k)
                     (matched_weapons ≫= snd)).
Proof.
  apply (wishlist_file [Some 2; Some 3; Some 1]%Z []).
  by vm_compute.
Defined.

(** ** Ids by name *)

Module BungieIdsLemmas.
Import BungieAPI BungieIds.

Lemma first_match_filter (test : Item → bool) (P : Item → Prop)
  `{∀ x, Decision (P x)} (l : list Item) :
  (∀ x, test x = true → P x) →
  first_match test (filter P l) = first_match test l.
Proof.
  intros Himpl. induction l as [|x l IH]; [done|].
  rewrite filter_cons. destruct (decide (P x)) as [HP|HP]; simpl.
  - by rewrite IH.
  - rewrite IH. destruct (test x) eqn:Htest; [|done].
    by destruct HP; apply Himpl.
Qed.

Lemma find_id_unfold (wantedClass : ItemClass) (manifest : list Item)
  (item_name : string) (cache : IdCache) :
  find_id wantedClass manifest item_name cache
  = match ids_of wantedClass cache !! item_name with
    | Some item_hash => (Some item_hash, cache)
    | None =>
        match first_match
                (λ item, is_class wantedClass item
                         && String.eqb (PyStr.lower (name item))
                                       (PyStr.lower item_name))
                (search_results manifest item_name) with
        | Some item =>
            (Some (hash item),
             match wantedClass with
             | Weapon =>
                 {| weapons := <[item_name := hash item]> (weapons cache);
                    perks := perks cache |}
             | Perk =>
                 {| weapons := weapons cache;
                    perks := <[item_name := hash item]> (perks cache) |}
             end)
        | None => (None, cache)
        end
    end.
Proof. by destruct wantedClass. Qed.

Lemma named_test (wantedClass : ItemClass) (item_name : string)
  (item : Item) :
  is_class wantedClass item
  && String.eqb (PyStr.lower (name item)) (PyStr.lower item_name) = true
  ↔ named wantedClass item_name item.
Proof. unfold named. by rewrite andb_true_iff, String.eqb_eq. Qed.

Lemma first_match_named (wantedClass : ItemClass) (item_name : string)
  (l : list Item) :
  first_match
    (λ item, is_class wantedClass item
             && String.eqb (PyStr.lower (name item)) (PyStr.lower item_name))
    l
  = snd <$> list_find (named wantedClass item_name) l.
Proof.
  induction l as [|x l IH]; [done|]. cbn [first_match list_find].
  destruct (decide (named wantedClass item_name x)) as [Hx|Hx].
  - apply named_test in Hx as Htest. by rewrite Htest.
  - rewrite <-named_test in Hx. apply not_true_is_false in Hx.
    rewrite Hx, IH. by destruct (list_find _ l) as [[i y]|].
Qed.

Lemma first_match_search (wantedClass : ItemClass) (manifest : list Item)
  (item_name : string) :
  first_match
    (λ item, is_class wantedClass item
             && String.eqb (PyStr.lower (name item)) (PyStr.lower item_name))
    (search_results manifest item_name)
  = snd <$> list_find (named wantedClass item_name) manifest.
Proof.
  unfold search_results. rewrite first_match_filter.
  - apply first_match_named.
  - intros item [_ Hname]%named_test. apply Is_true_true.
    rewrite Hname. apply contains_refl.
Qed.

End BungieIdsLemmas.

(** X28.  [find_weapon_id] and [find_perk_id], for a name that is not cached:
    the id found is the hash of the first item of the snapshot that is of
    the class and whose display name equals the name up to case, and it
    is cached under the name; when the snapshot has no such item the
    result is [None] and nothing is cached, so the next call searches
    again.  A cached name is answered from the cache. *)
Theorem find_id_spec (wantedClass : ItemClass) (manifest : list Item)
  (item_name : string) (cache : BungieIds.IdCache) :
  match BungieIds.ids_of wantedClass cache !! item_name with
  | Some item_hash =>
      BungieIds.find_id wantedClass manifest item_name cache
      = (Some item_hash, cache)
  | None =>
      match list_find (BungieIds.named wantedClass item_name) manifest with
      | Some (_, item) =>
          ∃ cache',
            BungieIds.find_id wantedClass manifest item_name cache
            = (Some (hash item), cache')
            ∧ BungieIds.ids_of wantedClass cache'
              = <[item_name := hash item]> (BungieIds.ids_of wantedClass cache)
            ∧ BungieIds.find_id wantedClass manifest item_name cache'
              = (Some (hash item), cache')
      | None =>
          BungieIds.find_id wantedClass manifest item_name cache
          = (None, cache)
      end
  end.
Proof.
  rewrite BungieIdsLemmas.find_id_unfold.
  destruct (BungieIds.ids_of wantedClass cache !! item_name)
    as [item_hash|] eqn:Hcache; [done|].
  rewrite BungieIdsLemmas.first_match_search.
  destruct (list_find _ manifest) as [[i item]|]; [|done]. simpl.
  eexists. split; [done|]. split; [by destruct wantedClass|].
  rewrite BungieIdsLemmas.find_id_unfold.
  replace (BungieIds.ids_of wantedClass _ !! item_name)
    with (Some (hash item)); [done|].
  destruct wantedClass; simpl; by rewrite lookup_insert_eq.
Qed.

Section Agreement.
Import ItemMatcher MatcherFacts Lookup BungieAPI BungieIds.

Lemma lower_normalize (a b : string) :
  PyStr.lower a = PyStr.lower b → normalize_name a = normalize_name b.
Proof. unfold normalize_name. by intros ->. Qed.

Lemma NoDup_fmap_eq {A B : Type} (f : A → B) (l : list A) (x y : A) :
  NoDup (map f l) → x ∈ l → y ∈ l → f x = f y → x = y.
Proof.
  induction l as [|z l IH]; simpl; [by intros _ ?%elem_of_nil|].
  intros [Hz Hl]%NoDup_cons [->|Hx]%elem_of_cons [->|Hy]%elem_of_cons Hf.
  - done.
  - destruct Hz. rewrite Hf. by apply (list_elem_of_fmap_2 f).
  - destruct Hz. rewrite <-Hf. by apply (list_elem_of_fmap_2 f).
  - by apply IH.
Qed.

Lemma named_candidate `{SetIteration} (manifest : list Item)
  (wantedClass : ItemClass) (item_name : string) (item : Item) :
  NoDup (map hash manifest) →
  item ∈ manifest → named wantedClass item_name item →
  item ∈ candidates_of manifest wantedClass item_name.
Proof.
  intros Hdup Hin [Hclass Hname].
  assert (Hfound : item ∈ search_results manifest item_name).
  { apply elem_of_search_results. split; [done|].
    rewrite Hname. apply contains_refl. }
  destruct wantedClass; simpl in *.
  - assert (Hhit : item ∈ get_search_variants item_name
                          ≫= weapon_hits manifest).
    { apply list_elem_of_bind. exists item_name. split.
      - apply list_elem_of_filter. split; [by apply Is_true_true|done].
      - apply set_to_list_elem, elem_of_variants_list. by left. }
    unfold weapon_candidates.
    destruct (dict_by_hash_spec (get_search_variants item_name
                                 ≫= weapon_hits manifest))
      as (_ & Hsub & Hhashes & _).
    assert (Hhash : hash item ∈ map hash
              (dict_values (dict_by_hash (get_search_variants item_name
                                          ≫= weapon_hits manifest)))).
    { apply Hhashes. by apply (list_elem_of_fmap_2 hash). }
    apply list_elem_of_fmap in Hhash as (kept & Hkept & Hkept_in).
    assert (kept = item) as <-; [|done].
    apply (NoDup_fmap_eq hash manifest); [done| |done..].
    apply Hsub in Hkept_in.
    apply list_elem_of_bind in Hkept_in as (v & Hv & _).
    apply list_elem_of_filter in Hv as [_ Hv].
    by apply elem_of_search_results in Hv as [? _].
  - apply list_elem_of_filter. split; [by apply Is_true_true|done].
Qed.

End Agreement.

(** X29.  The two ways of resolving a name agree: when [find_weapon_id] or
    [find_perk_id] finds an id for a name in a snapshot without repeated
    hashes, the candidate lookup of the matcher for the same name is not
    empty, returns the item of that id, and returns an exact match
    first. *)
Theorem id_found_then_matched `{SetIteration} (manifest : list Item)
  (wantedClass : ItemClass) (item_name : string)
  (cache cache' : BungieIds.IdCache) (item_hash : Z) :
  NoDup (map hash manifest) →
  BungieIds.ids_of wantedClass cache !! item_name = None →
  BungieIds.find_id wantedClass manifest item_name cache
  = (Some item_hash, cache') →
  ∃ first others,
    Lookup.result_of manifest wantedClass item_name = first :: others
    ∧ spec_exact item_name (name first)
    ∧ ∃ item, item ∈ first :: others ∧ hash item = item_hash
              ∧ PyStr.lower (name item) = PyStr.lower item_name.
Proof.
  intros Hdup Hcache.
  rewrite BungieIdsLemmas.find_id_unfold, Hcache,
    BungieIdsLemmas.first_match_search.
  destruct (list_find _ manifest) as [[i item]|] eqn:Hfind; [|done].
  simpl. intros [= <- _].
  apply list_find_Some in Hfind as (Hi%list_elem_of_lookup_2 & Hnamed & _).
  pose proof (named_candidate manifest wantedClass item_name item
                Hdup Hi Hnamed) as Hcand.
  assert (Hexact : spec_exact item_name (name item)).
  { unfold spec_exact. apply lower_normalize. by destruct Hnamed. }
  assert (Hin : item ∈ Lookup.result_of manifest wantedClass item_name).
  { apply elem_of_rank. split; [done|].
    apply LookupLemmas.retained_spec. by left. }
  destruct (Lookup.result_of manifest wantedClass item_name)
    as [|first others] eqn:Hresult; [by apply elem_of_nil in Hin|].
  exists first, others. split; [done|]. split.
  - destruct (CandidateLemmas.result_first_best manifest wantedClass
                item_name first others Hresult) as [_ Hbest].
    by apply (Hbest item).
  - exists item. by destruct Hnamed.
Qed.

(** X29, on an example. *)
Lemma id_found_then_matched_witness :
  ∃ first others,
    Lookup.result_of (H := first_seen_order) Catalogs.armory Weapon
      "FATEBRINGER" = first :: others
    ∧ spec_exact "FATEBRINGER" (name first)
    ∧ ∃ item, item ∈ first :: others ∧ hash item = 200%Z
              ∧ PyStr.lower (name item) = PyStr.lower "FATEBRINGER".
Proof.
  eapply (id_found_then_matched (H := first_seen_order) Catalogs.armory
            Weapon "FATEBRINGER"
            {| BungieIds.weapons := ∅; BungieIds.perks := ∅ |}).
  - apply (bool_decide_unpack _). by vm_compute.
  - done.
  - vm_compute. reflexivity.
Defined.

(** ** The perks of a row, by position *)

Module PerkSearchLemmas.
Import ItemMatcher Matching MatcherFacts MatcherLemmas Cache CacheLemmas.
Import Lookup LookupLemmas WeaponMatching Resolution PerkSearches.

Section WithCatalog.
Context `{SetIteration}.
Variable manifest : list Item.

Lemma log_queries_fields (terms : list string) (s : State) :
  missing_weapons (log_queries terms s) = missing_weapons s
  ∧ missing_perks (log_queries terms s) = missing_perks s
  ∧ perk_lookups (log_queries terms s) = perk_lookups s
  ∧ weapon_matches (log_queries terms s) = weapon_matches s
  ∧ perk_matches (log_queries terms s) = perk_matches s
  ∧ catalog_queries (log_queries terms s) = catalog_queries s ++ terms.
Proof.
  revert s. induction terms as [|term terms IH]; intros s.
  - by rewrite app_nil_r.
  - simpl. destruct (IH (log_query term s)) as (-> & -> & -> & -> & -> & ->).
    simpl. by rewrite <-app_assoc.
Qed.

(** One perk lookup from consistent caches, with all it does to the
    matcher. *)
Lemma find_perk_matches_trace (perk : string) (s : State) :
  consistent manifest s →
  ∃ s',
    find_perk_matches manifest perk s = Ok (perk_result manifest perk, s')
    ∧ consistent manifest s'
    ∧ perk_matches s' = <[perk := perk_result manifest perk]> (perk_matches s)
    ∧ catalog_queries s'
      = catalog_queries s
        ++ (if decide (perk ∈ dom (perk_matches s)) then [] else [perk])
    ∧ weapon_matches s' = weapon_matches s
    ∧ perk_lookups s' = perk_lookups s
    ∧ missing_weapons s' = missing_weapons s
    ∧ missing_perks s' = missing_perks s.
Proof.
  intros Hcons.
  destruct (perk_matches s !! perk) as [cached|] eqn:Hcache.
  - assert (cached = perk_result manifest perk) as ->
      by apply (Hcons Perk perk cached Hcache).
    exists s. rewrite (find_perk_matches_hit manifest _ _ _ Hcache).
    split_and!; try done.
    + by rewrite insert_id.
    + rewrite decide_True, app_nil_r; [done|]. by apply elem_of_dom.
  - pose proof (find_perk_matches_miss manifest perk s Hcache) as Hrun.
    eexists. split; [exact Hrun|]. split.
    { by apply (findCandidates_consistent manifest Perk perk s _ _ Hrun). }
    simpl. split_and!; try done.
    rewrite decide_False; [done|]. by apply not_elem_of_dom.
Qed.

(** The weapon lookup from consistent caches, with all it does to the
    matcher. *)
Lemma find_weapon_matches_trace (weapon_name : string) (s : State) :
  consistent manifest s →
  ∃ s',
    find_weapon_matches manifest weapon_name s
    = Ok (weapon_result manifest weapon_name, s')
    ∧ consistent manifest s'
    ∧ catalog_queries s'
      = catalog_queries s
        ++ weapon_queries (dom (weapon_matches s)) weapon_name
    ∧ perk_matches s' = perk_matches s
    ∧ perk_lookups s' = perk_lookups s
    ∧ missing_weapons s' = missing_weapons s
    ∧ missing_perks s' = missing_perks s.
Proof.
  intros Hcons. unfold weapon_queries.
  destruct (weapon_matches s !! weapon_name) as [cached|] eqn:Hcache.
  - assert (cached = weapon_result manifest weapon_name) as ->
      by apply (Hcons Weapon weapon_name cached Hcache).
    exists s. rewrite (find_weapon_matches_hit manifest _ _ _ Hcache).
    split_and!; try done.
    rewrite decide_True, app_nil_r; [done|]. by apply elem_of_dom.
  - pose proof (find_weapon_matches_miss manifest weapon_name s Hcache)
      as Hrun.
    eexists. split; [exact Hrun|]. split.
    { by apply (findCandidates_consistent manifest Weapon weapon_name s _ _
                  Hrun). }
    destruct (log_queries_fields (get_search_variants weapon_name) s)
      as (Hw & Hp & Hl & _ & Hpm & Hq).
    simpl. rewrite Hw, Hp, Hl, Hpm, Hq. split_and!; try done.
    rewrite decide_False; [done|]. by apply not_elem_of_dom.
Qed.

Lemma perk_queries_app (seen : gset string) (perks perks' : list string) :
  perk_queries manifest seen (perks ++ perks')
  = perk_queries manifest seen perks
    ++ perk_queries manifest (list_to_set perks ∪ seen) perks'.
Proof.
  revert seen. induction perks as [|perk perks IH]; intros seen; simpl.
  - by rewrite (left_id_L ∅ (∪)).
  - rewrite IH, <-!app_assoc. do 3 f_equal. f_equal. set_solver.
Qed.

Lemma perk_dicts_step (column : nat) (perk : string) (perks : list string) :
  perk_dicts manifest column (perk :: perks)
  = match perk_result manifest perk with
    | perk_match :: _ =>
        {| pd_name := perk;
           pd_hash := Some (hash perk_match);
           pd_description := default "" (description perk_match);
           pd_column := column |} :: perk_dicts manifest column perks
    | [] => perk_dicts manifest column perks
    end.
Proof.
  unfold perk_dicts. simpl. unfold perk_dict at 1.
  by destruct (perk_result manifest perk).
Qed.

(** One perk loop from consistent caches: what it returns and all it does
    to the matcher. *)
Lemma match_perks_loop_trace (column : nat) (perks : list string)
  (s : State) :
  consistent manifest s →
  ∃ s',
    match_perks_loop manifest column perks s
    = Ok (perk_dicts manifest column perks, s')
    ∧ consistent manifest s'
    ∧ perk_lookups s' = perk_lookups s ++ map (pair column) perks
    ∧ catalog_queries s'
      = catalog_queries s
        ++ perk_queries manifest (dom (perk_matches s)) perks
    ∧ dom (perk_matches s') = list_to_set perks ∪ dom (perk_matches s)
    ∧ (∀ perk, perk ∈ perks →
               perk_matches s' !! perk = Some (perk_result manifest perk))
    ∧ missing_weapons s' = missing_weapons s
    ∧ missing_perks s'
      = list_to_set (unresolved manifest perks) ∪ missing_perks s.
Proof.
  revert s. induction perks as [|perk rest IH]; intros s Hcons.
  - exists s. rewrite !app_nil_r.
    split_and!; try done; [set_solver|by intros ? ?%elem_of_nil|].
    unfold unresolved. set_solver.
  - cbn [match_perks_loop]. unfold modify.
    unfold mbind at 1, M_bind at 1. unfold mbind at 1, M_bind at 1.
    destruct (find_perk_matches_trace perk (log_lookup column perk s))
      as (s1 & -> & Hcons1 & Hpm1 & Hq1 & Hwm1 & Hl1 & Hw1 & Hp1).
    { by apply (consistent_same manifest s). }
    simpl in Hpm1, Hq1, Hwm1, Hl1, Hw1, Hp1.
    rewrite perk_dicts_step. unfold unresolved. rewrite filter_cons.
    fold (unresolved manifest rest). cbn [perk_queries map].
    assert (Hkeep : ∀ s2 : State,
      consistent manifest s2 →
      perk_matches s2 !! perk = Some (perk_result manifest perk) →
      ∀ s3 : State,
        dom (perk_matches s3) = list_to_set rest ∪ dom (perk_matches s2) →
        (∀ p, p ∈ rest →
              perk_matches s3 !! p = Some (perk_result manifest p)) →
        consistent manifest s3 →
        ∀ p, p ∈ perk :: rest →
             perk_matches s3 !! p = Some (perk_result manifest p)).
    { intros s2 _ Hs2 s3 Hdom Hrest Hcons3 p [->|Hp]%elem_of_cons; [|auto].
      assert (Hin : perk ∈ dom (perk_matches s3)).
      { rewrite Hdom. apply elem_of_union_r, elem_of_dom. by eexists. }
      apply elem_of_dom in Hin as [v Hv]. rewrite Hv. f_equal.
      apply (Hcons3 Perk perk v Hv). }
    destruct (perk_result manifest perk) as [|perk_match others] eqn:Hres.
    + rewrite !(decide_True (P := @nil Item = [])) by done.
      unfold search_destiny_items, modify.
      do 2 (unfold mbind at 1, M_bind at 1).
      unfold mret at 1, M_ret at 1. unfold mbind at 1, M_bind at 1.
      destruct (IH (add_missing_perk perk (log_query perk s1)))
        as (s2 & -> & Hcons2 & Hl2 & Hq2 & Hdom2 & Hpm2 & Hw2 & Hp2).
      { by apply (consistent_same manifest s1). }
      simpl in Hl2, Hq2, Hdom2, Hw2, Hp2.
      exists s2. split_and!; [done|done|..].
      * rewrite Hl2, Hl1. by rewrite <-app_assoc.
      * rewrite Hq2, Hq1, Hpm1, dom_insert_L. by rewrite <-!app_assoc.
      * rewrite Hdom2, Hpm1, dom_insert_L. set_solver.
      * apply (Hkeep s1 Hcons1); [|done..].
        by rewrite Hpm1, lookup_insert_eq.
      * by rewrite Hw2, Hw1.
      * rewrite Hp2, Hp1. set_solver.
    + rewrite !(decide_False (P := perk_match :: others = [])) by done.
      unfold mbind at 1, M_bind at 1.
      destruct (IH s1 Hcons1)
        as (s2 & -> & Hcons2 & Hl2 & Hq2 & Hdom2 & Hpm2 & Hw2 & Hp2).
      exists s2. split_and!; [done|done|..].
      * rewrite Hl2, Hl1. by rewrite <-app_assoc.
      * rewrite Hq2, Hq1, Hpm1, dom_insert_L. simpl.
        by rewrite <-!app_assoc.
      * rewrite Hdom2, Hpm1, dom_insert_L. set_solver.
      * apply (Hkeep s1 Hcons1); [|done..].
        by rewrite Hpm1, lookup_insert_eq.
      * by rewrite Hw2, Hw1.
      * by rewrite Hp2, Hp1.
Qed.

End WithCatalog.
End PerkSearchLemmas.

Module MatchWeaponTrace.
Import ItemMatcher Matching MatcherFacts MatcherLemmas Cache CacheLemmas.
Import Lookup LookupLemmas WeaponMatching Resolution PerkSearches.
Import PerkSearchLemmas.

Section WithCatalog.
Context `{SetIteration}.
Variable manifest : list Item.

(** A row without weapon candidate: [match_weapon] returns [None] after the
    weapon lookup and the search for the report, and touches no perk. *)
Lemma match_weapon_unmatched (weapon : SheetParser.WeaponRoll) (s : State) :
  consistent manifest s →
  weapon_result manifest (SheetParser.name weapon) = [] →
  ∃ s',
    match_weapon manifest weapon s = Ok (None, s')
    ∧ perk_lookups s' = perk_lookups s
    ∧ perk_matches s' = perk_matches s
    ∧ missing_perks s' = missing_perks s
    ∧ catalog_queries s'
      = catalog_queries s
        ++ weapon_queries (dom (weapon_matches s)) (SheetParser.name weapon)
        ++ [SheetParser.name weapon].
Proof.
  intros Hcons Hnone. unfold match_weapon. unfold mbind at 1, M_bind at 1.
  destruct (find_weapon_matches_trace manifest (SheetParser.name weapon) s
              Hcons) as (s1 & -> & _ & Hq1 & Hpm1 & Hl1 & _ & Hp1).
  rewrite Hnone. eexists. split; [done|]. simpl.
  rewrite Hl1, Hpm1, Hp1, Hq1. by rewrite <-app_assoc.
Qed.

(** A row with a weapon candidate: the two perk loops run over the two
    halves of the row's perks, one after the other. *)
Lemma match_weapon_matched (weapon : SheetParser.WeaponRoll) (s : State) :
  consistent manifest s →
  weapon_result manifest (SheetParser.name weapon) ≠ [] →
  let perks := SheetParser.perks weapon in
  let half := (List.length perks `div` 2)%nat in
  ∃ matched s',
    match_weapon manifest weapon s = Ok (Some matched, s')
    ∧ mw_perks_column1 matched = perk_dicts manifest 1 (take half perks)
    ∧ mw_perks_column2 matched = perk_dicts manifest 2 (drop half perks)
    ∧ perk_lookups s'
      = perk_lookups s ++ map (pair 1%nat) (take half perks)
                       ++ map (pair 2%nat) (drop half perks)
    ∧ catalog_queries s'
      = catalog_queries s
        ++ weapon_queries (dom (weapon_matches s)) (SheetParser.name weapon)
        ++ perk_queries manifest (dom (perk_matches s)) perks
    ∧ (∀ perk, perk ∈ perks →
               perk_matches s' !! perk = Some (perk_result manifest perk))
    ∧ missing_perks s'
      = list_to_set (unresolved manifest perks) ∪ missing_perks s.
Proof.
  intros Hcons Hsome perks half.
  unfold match_weapon. unfold mbind at 1, M_bind at 1.
  destruct (find_weapon_matches_trace manifest (SheetParser.name weapon) s
              Hcons) as (s1 & -> & Hcons1 & Hq1 & Hpm1 & Hl1 & _ & Hp1).
  destruct (weapon_result manifest (SheetParser.name weapon))
    as [|weapon_match others]; [done|].
  unfold mbind at 1, M_bind at 1. fold perks. fold half.
  destruct (match_perks_loop_trace manifest 1 (take half perks) s1 Hcons1)
    as (s2 & -> & Hcons2 & Hl2 & Hq2 & Hdom2 & Hpm2 & _ & Hp2).
  unfold mbind at 1, M_bind at 1.
  destruct (match_perks_loop_trace manifest 2 (drop half perks) s2 Hcons2)
    as (s3 & -> & Hcons3 & Hl3 & Hq3 & Hdom3 & Hpm3 & _ & Hp3).
  eexists _, s3. split; [done|]. cbn [mw_perks_column1 mw_perks_column2].
  split_and!; [done|done|..].
  - by rewrite Hl3, Hl2, Hl1, <-app_assoc.
  - assert (perk_queries manifest (dom (perk_matches s)) perks
            = perk_queries manifest (dom (perk_matches s)) (take half perks)
              ++ perk_queries manifest
                   (list_to_set (take half perks) ∪ dom (perk_matches s))
                   (drop half perks)) as ->
      by (by rewrite <-perk_queries_app, take_drop).
    by rewrite Hq3, Hq2, Hq1, Hdom2, Hpm1, <-!app_assoc.
  - intros perk Hperk. rewrite <-(take_drop half perks) in Hperk.
    apply elem_of_app in Hperk as [Hperk|Hperk]; [|by apply Hpm3].
    assert (Hin : perk ∈ dom (perk_matches s3)).
    { rewrite Hdom3. apply elem_of_union_r, elem_of_dom.
      rewrite (Hpm2 perk Hperk). by eexists. }
    apply elem_of_dom in Hin as [v Hv]. rewrite Hv. f_equal.
    apply (Hcons3 Perk perk v Hv).
  - assert (unresolved manifest perks
            = unresolved manifest (take half perks)
              ++ unresolved manifest (drop half perks)) as ->
      by (unfold unresolved; by rewrite <-filter_app, take_drop).
    rewrite Hp3, Hp2, Hp1, list_to_set_app_L. set_solver.
Qed.

End WithCatalog.
End MatchWeaponTrace.

(** C5, as stated, fails: the row "Gjallarhorn" with the perks Outlaw and
    Rampage has no weapon candidate in the catalog; [match_weapon] returns
    [None] after searching the weapon name and looks up neither perk, for
    neither column, although the catalog has the perk Outlaw, which a lookup
    finds. *)
Lemma unmatched_row_attempts_no_perk :
  ∃ weapon s' s'',
    SheetParser.parse_row "Gjallarhorn" "Outlaw" "Rampage" "S" = Some weapon
    ∧ SheetParser.perks weapon = ["Outlaw"; "Rampage"]
    ∧ Matching.match_weapon (H := first_seen_order) Catalogs.armory weapon
        ItemMatcher.init = Ok (None, s')
    ∧ ItemMatcher.perk_lookups s' = []
    ∧ ItemMatcher.perk_matches s' = ∅
    ∧ ItemMatcher.missing_perks s' = ∅
    ∧ ItemMatcher.catalog_queries s'
      = ["Gjallarhorn"; "gjallarhorn"; "Gjallarhorn"]
    ∧ Matching.find_perk_matches Catalogs.armory "Outlaw" s'
      = Ok ([Catalogs.perk_item 2 "Outlaw"], s'').
Proof.
  eexists _, _, _. split; [vm_compute; reflexivity|].
  split_and!; by vm_compute.
Qed.

(** C5, amended.  From a matcher whose caches hold results of this catalog,
    as they do all along a run, take a spreadsheet row that yields a weapon;
    its perk list [P] is the perks of the first perk cell followed by those
    of the second.  When the weapon name has a candidate, [match_weapon]
    resolves for column 1 the first [len(P) // 2] names of [P], in order,
    then for column 2 the remaining names, in order, whatever cell a perk
    came from: the two columns it returns hold, in that order, those of
    these names that have a perk candidate, each with the hash of its first
    candidate; every name of [P] is in the perk cache afterwards with the
    result of its lookup, the catalog was searched for the names in the
    order of [P], and the names without candidate are in [missing_perks].
    When the weapon name has no candidate, [match_weapon] returns [None] and
    no perk is looked up. *)
Theorem perks_split_by_position `{SetIteration} (manifest : list Item)
  (name perk1 perk2 tier : string) (weapon : SheetParser.WeaponRoll)
  (s : ItemMatcher.State) :
  SheetParser.parse_row name perk1 perk2 tier = Some weapon →
  Lookup.consistent manifest s →
  let P := SheetParser.parse_perks perk1 ++ SheetParser.parse_perks perk2 in
  let half := (List.length P `div` 2)%nat in
  let weapon_name := SheetParser.name weapon in
  let candidates := MatcherFacts.weapon_result manifest weapon_name in
  let resolves := λ perk, MatcherFacts.perk_result manifest perk ≠ [] in
  SheetParser.perks weapon = P
  ∧ ∃ result s',
      Matching.match_weapon manifest weapon s = Ok (result, s')
      ∧ (candidates = [] →
         result = None
         ∧ ItemMatcher.perk_lookups s' = ItemMatcher.perk_lookups s
         ∧ ItemMatcher.perk_matches s' = ItemMatcher.perk_matches s
         ∧ ItemMatcher.missing_perks s' = ItemMatcher.missing_perks s
         ∧ ItemMatcher.catalog_queries s'
           = ItemMatcher.catalog_queries s
             ++ PerkSearches.weapon_queries
                  (dom (ItemMatcher.weapon_matches s)) weapon_name
             ++ [weapon_name])
      ∧ (candidates ≠ [] →
         ∃ matched,
           result = Some matched
           ∧ mw_perks_column1 matched
             = Resolution.perk_dicts manifest 1 (take half P)
           ∧ mw_perks_column2 matched
             = Resolution.perk_dicts manifest 2 (drop half P)
           ∧ map pd_name (mw_perks_column1 matched)
             = filter resolves (take half P)
           ∧ map pd_name (mw_perks_column2 matched)
             = filter resolves (drop half P)
           ∧ Forall (λ d, ∃ item others,
                       MatcherFacts.perk_result manifest (pd_name d)
                       = item :: others
                       ∧ pd_hash d = Some (hash item)
                       ∧ pd_column d = 1%nat)
                    (mw_perks_column1 matched)
           ∧ Forall (λ d, ∃ item others,
                       MatcherFacts.perk_result manifest (pd_name d)
                       = item :: others
                       ∧ pd_hash d = Some (hash item)
                       ∧ pd_column d = 2%nat)
                    (mw_perks_column2 matched)
           ∧ ItemMatcher.perk_lookups s'
             = ItemMatcher.perk_lookups s
               ++ map (pair 1%nat) (take half P)
               ++ map (pair 2%nat) (drop half P)
           ∧ ItemMatcher.catalog_queries s'
             = ItemMatcher.catalog_queries s
               ++ PerkSearches.weapon_queries
                    (dom (ItemMatcher.weapon_matches s)) weapon_name
               ++ PerkSearches.perk_queries manifest
                    (dom (ItemMatcher.perk_matches s)) P
           ∧ (∀ perk, perk ∈ P →
                ItemMatcher.perk_matches s' !! perk
                = Some (MatcherFacts.perk_result manifest perk))
           ∧ ItemMatcher.missing_perks s'
             = list_to_set (Resolution.unresolved manifest P)
               ∪ ItemMatcher.missing_perks s).
Proof.
  intros Hrow%WeaponMatching.parse_row_perks Hcons
    P half weapon_name candidates resolves.
  split; [done|]. subst P half. rewrite <-Hrow.
  destruct (decide (candidates = [])) as [Hnone|Hsome].
  - destruct (MatchWeaponTrace.match_weapon_unmatched manifest weapon s
                Hcons Hnone) as (s' & Hrun & Hrest).
    exists None, s'. split; [done|]. split; [done|]. by intros ?.
  - destruct (MatchWeaponTrace.match_weapon_matched manifest weapon s
                Hcons Hsome)
      as (matched & s' & Hrun & Hcol1 & Hcol2 & Hlog & Hq & Hcache & Hmiss).
    exists (Some matched), s'. split; [done|]. split; [done|]. intros _.
    exists matched. split_and!; try done.
    + rewrite Hcol1. apply CandidateLemmas.perk_dicts_names.
    + rewrite Hcol2. apply CandidateLemmas.perk_dicts_names.
    + rewrite Hcol1. eapply Forall_impl;
        [apply CandidateLemmas.perk_dicts_hashes|].
      intros d (item & others & ? & ? & _ & ?). by exists item, others.
    + rewrite Hcol2. eapply Forall_impl;
        [apply CandidateLemmas.perk_dicts_hashes|].
      intros d (item & others & ? & ? & _ & ?). by exists item, others.
Qed.

(** C5, amended, on the row "Recluse" with the perk cells
    "Rapid Hit / Outlaw" and "Rampage / Vorpal Weapon": the perk loop of
    column 1 gets Rapid Hit and Outlaw, that of column 2 Rampage and Vorpal
    Weapon. *)
Lemma perks_split_by_position_witness :
  let perk1 := "Rapid Hit" +:+ PyStr.nl +:+ "Outlaw" in
  let perk2 := "Rampage" +:+ PyStr.nl +:+ "Vorpal Weapon" in
  let weapon :=
    {| SheetParser.name := "Recluse"; SheetParser.tier := "S";
       SheetParser.perks :=
         ["Rapid Hit"; "Outlaw"; "Rampage"; "Vorpal Weapon"] |} in
  let s := ItemMatcher.init in
  let P := SheetParser.parse_perks perk1 ++ SheetParser.parse_perks perk2 in
  let half := (List.length P `div` 2)%nat in
  let weapon_name := SheetParser.name weapon in
  let candidates :=
    MatcherFacts.weapon_result (H := first_seen_order) Catalogs.armory
      weapon_name in
  let resolves := λ perk, MatcherFacts.perk_result Catalogs.armory perk ≠ [] in
  SheetParser.perks weapon = P
  ∧ ∃ result s',
      Matching.match_weapon (H := first_seen_order) Catalogs.armory weapon s
      = Ok (result, s')
      ∧ (candidates = [] →
         result = None
         ∧ ItemMatcher.perk_lookups s' = ItemMatcher.perk_lookups s
         ∧ ItemMatcher.perk_matches s' = ItemMatcher.perk_matches s
         ∧ ItemMatcher.missing_perks s' = ItemMatcher.missing_perks s
         ∧ ItemMatcher.catalog_queries s'
           = ItemMatcher.catalog_queries s
             ++ PerkSearches.weapon_queries (H := first_seen_order)
                  (dom (ItemMatcher.weapon_matches s)) weapon_name
             ++ [weapon_name])
      ∧ (candidates ≠ [] →
         ∃ matched,
           result = Some matched
           ∧ mw_perks_column1 matched
             = Resolution.perk_dicts Catalogs.armory 1 (take half P)
           ∧ mw_perks_column2 matched
             = Resolution.perk_dicts Catalogs.armory 2 (drop half P)
           ∧ map pd_name (mw_perks_column1 matched)
             = filter resolves (take half P)
           ∧ map pd_name (mw_perks_column2 matched)
             = filter resolves (drop half P)
           ∧ Forall (λ d, ∃ item others,
                       MatcherFacts.perk_result Catalogs.armory (pd_name d)
                       = item :: others
                       ∧ pd_hash d = Some (hash item)
                       ∧ pd_column d = 1%nat)
                    (mw_perks_column1 matched)
           ∧ Forall (λ d, ∃ item others,
                       MatcherFacts.perk_result Catalogs.armory (pd_name d)
                       = item :: others
                       ∧ pd_hash d = Some (hash item)
                       ∧ pd_column d = 2%nat)
                    (mw_perks_column2 matched)
           ∧ ItemMatcher.perk_lookups s'
             = ItemMatcher.perk_lookups s
               ++ map (pair 1%nat) (take half P)
               ++ map (pair 2%nat) (drop half P)
           ∧ ItemMatcher.catalog_queries s'
             = ItemMatcher.catalog_queries s
               ++ PerkSearches.weapon_queries (H := first_seen_order)
                    (dom (ItemMatcher.weapon_matches s)) weapon_name
               ++ PerkSearches.perk_queries Catalogs.armory
                    (dom (ItemMatcher.perk_matches s)) P
           ∧ (∀ perk, perk ∈ P →
                ItemMatcher.perk_matches s' !! perk
                = Some (MatcherFacts.perk_result Catalogs.armory perk))
           ∧ ItemMatcher.missing_perks s'
             = list_to_set (Resolution.unresolved Catalogs.armory P)
               ∪ ItemMatcher.missing_perks s).
Proof.
  intros perk1 perk2 weapon s.
  apply (perks_split_by_position (H := first_seen_order) Catalogs.armory
           "Recluse" perk1 perk2 "S" weapon s).
  - vm_compute. reflexivity.
  - apply LookupLemmas.consistent_init.
Defined.

(** What the row of the example resolves to. *)
Example perks_split_ex :
  ∃ matched s',
    Matching.match_weapon (H := first_seen_order) Catalogs.armory
      {| SheetParser.name := "Recluse"; SheetParser.tier := "S";
         SheetParser.perks :=
           ["Rapid Hit"; "Outlaw"; "Rampage"; "Vorpal Weapon"] |}
      ItemMatcher.init = Ok (Some matched, s')
    ∧ map pd_name (mw_perks_column1 matched) = ["Rapid Hit"; "Outlaw"]
    ∧ map pd_name (mw_perks_column2 matched) = ["Rampage"]
    ∧ map pd_hash (mw_perks_column1 matched) = [Some 1%Z; Some 2%Z]
    ∧ map pd_hash (mw_perks_column2 matched) = [Some 3%Z]
    ∧ ItemMatcher.missing_perks s' = {["Vorpal Weapon"]}
    ∧ ItemMatcher.catalog_queries s'
      = ["Recluse"; "recluse"; "Rapid Hit"; "Outlaw"; "Rampage";
         "Vorpal Weapon"; "Vorpal Weapon"].
Proof.
  eexists _, _. split; [vm_compute; reflexivity|]. split_and!; by vm_compute.
Qed.
